(** * andropay-tpm-reports: item parser, metrics engine and snapshot store

    A shallow embedding of [src/models.py], [src/processor.py],
    [src/models_v2.py], [src/processor_v2.py] and [src/snapshot.py],
    with the properties the specification states about them, and of
    [src/config.py], of the snapshot step and the choice of the renderer in
    [src/main.py], of the workload table of [src/renderers/html_renderer.py]
    and of the colours of [src/charts/chart_builder.py], with further
    properties of the code.

    Conventions of the embedding:
    - a Python [int] is a [Z]; a Python [str] is the list of its code
      points ([pystr]), so that [len] counts code points as Python does and
      [<] on strings is the order of the code points;
    - a Python [float] is a type [F] with the float builtins the code calls
      (class [PyFloat]); the properties hold for every such [F], and the
      IEEE-754 binary64 instance [binary64] evaluates the sample data;
    - a raised exception is the [Raise] case of [except], with the class of
      the exception;
    - a [dict] keyed by strings and used as a map is a [gmap];
    - JSON-decoded data the code inspects dynamically (the status, the
      priority and the content of a raw record, the status and the priority
      stored in a snapshot) is a [pyval], as is every field the code only
      copies; the fields the code computes with ([id], [assignees],
      [estimate_hours]) have the types the dataclass declares;
    - a dictionary whose keys the code fixes (a raw record, a serialized
      item, a snapshot file) is a record of its entries;
    - the clock and the snapshot directory are explicit: [save_snapshot]
      takes the clock reading and the directory and returns the directory
      afterwards, or raises when the text cannot be encoded as UTF-8; a
      file of the directory holds a whole JSON object, the one written to
      it; the limits of the interpreter (recursion depth, digits of an
      integer) are not modelled. *)

From Stdlib Require Import ZArith Strings.Ascii.
From Stdlib Require Import Floats.PrimFloat Floats.SpecFloat Floats.FloatOps.
From stdpp Require Import base option list list_monad gmap strings sorting.

Local Open Scope Z_scope.
Set Warnings "-inexact-float,-register-all,-clear-no-such-hyp".

(** ** Python strings *)

Abbreviation pystr := (list N).

(** An ASCII literal of the source, as code points. *)
Definition lit (s : string) : pystr := N_of_ascii <$> String.list_ascii_of_string s.

(** [s.startswith(p)] *)
Fixpoint startswith (s p : pystr) : bool :=
  match p, s with
  | [], _ => true
  | c :: p', d :: s' => bool_decide (c = d) && startswith s' p'
  | _ :: _, [] => false
  end.

(** [s.endswith(p)] *)
Definition endswith (s p : pystr) : bool := startswith (reverse s) (reverse p).

(** [len(s)] *)
Definition len {A} (l : list A) : Z := Z.of_nat (length l).

(** [a < b] on [str]: lexicographic on code points. *)
Fixpoint str_ltb (a b : pystr) : bool :=
  match a, b with
  | _, [] => false
  | [], _ :: _ => true
  | c :: a', d :: b' => (c <? d)%N || ((c =? d)%N && str_ltb a' b')
  end.

Definition str_leb (a b : pystr) : bool := negb (str_ltb b a).

(** A surrogate, U+D800 to U+DFFF: the code points of a [str] that UTF-8
    does not encode. *)
Definition surrogate (c : N) : bool := ((55296 <=? c) && (c <=? 57343))%N.

(** [s.encode('utf-8')] returns: [s] holds no surrogate. *)
Definition utf8 (s : pystr) : bool := forallb (λ c, negb (surrogate c)) s.

(** ** Exceptions *)

Inductive exn := ValueError | AttributeError | TypeError | UnicodeEncodeError.

(** [issubclass(e, ValueError)]: [UnicodeEncodeError] derives from
    [UnicodeError], which derives from [ValueError]. *)
Definition is_ValueError (e : exn) : bool :=
  match e with
  | ValueError | UnicodeEncodeError => true
  | AttributeError | TypeError => false
  end.

Inductive except (A : Type) :=
| Ok (a : A)
| Raise (e : exn).
Arguments Ok {A} a.
Arguments Raise {A} e.

Global Instance except_ret : MRet except := λ A a, Ok a.
Global Instance except_bind : MBind except := λ A B f m,
  match m with Ok a => f a | Raise e => Raise e end.
Global Instance except_fmap : FMap except := λ A B f m,
  match m with Ok a => Ok (f a) | Raise e => Raise e end.

(** [try: c  except ValueError: h] *)
Definition try_except_ValueError {A} (c : except A) (h : except A) : except A :=
  match c with
  | Raise e => if is_ValueError e then h else c
  | Ok _ => c
  end.

(** [a and b] in a condition: [b] is evaluated only when [a] is true. *)
Definition py_and (a b : except bool) : except bool :=
  a ≫= λ x : bool, if x then b else Ok false.

(** ** Python floats *)

(** The float builtins the code calls.  Their numeric behaviour is that of
    the interpreter; the properties below hold for any of them. *)
Class PyFloat (F : Type) := {
  f_lit0 : F;                      (* the literal [0.0] *)
  f_nonzero : F → bool;            (* [bool(x)] *)
  f_sum : list F → F;              (* [sum(xs)], [xs] non-empty: [0 + x1 + ...] *)
  int_truediv : Z → Z → F;         (* [a / b] on ints, [b ≠ 0] *)
  f_mul_int : F → Z → F;           (* [x * n] *)
  f_round : F → Z → F;             (* [round(x, ndigits)] *)
}.

(** A number that is an [int] or a [float]. *)
Inductive pynum (F : Type) :=
| NInt (z : Z)
| NFloat (x : F).
Arguments NInt {F} z.
Arguments NFloat {F} x.

(** *** IEEE-754 binary64 *)

Module Binary64.

(** The double nearest to [n / q] (ties to even), [0 <= n], [0 < q],
    negated when [neg].  The quotient is taken with more than 64 bits and
    a sticky bit, then rounded once. *)
Definition nearest (neg : bool) (n q : Z) : float :=
  let sh := 64 + Z.log2_up q in
  let num := n * 2 ^ sh in
  let sticky := if num mod q =? 0 then 0 else 1 in
  let mz := 2 * (num / q) + sticky in
  SF2Prim (binary_normalize prec emax (if neg then - mz else mz) (- (sh + 1)) neg).

Definition of_int (z : Z) : float := nearest (z <? 0) (Z.abs z) 1.

Definition truediv (a b : Z) : float :=
  nearest (xorb (a <? 0) (b <? 0)) (Z.abs a) (Z.abs b).

(** [round(x, 1)]: the decimal with one fractional digit nearest to the
    exact value of [x] (ties to the even digit), then the double nearest
    to that decimal. *)
Definition round1 (x : float) : float :=
  match Prim2SF x with
  | S754_finite s m e =>
      if 0 <=? e then x
      else
        let n := 10 * Z.pos m in
        let d := 2 ^ (- e) in
        let q := n / d in
        let k := match 2 * (n mod d) ?= d with
                 | Lt => q
                 | Gt => q + 1
                 | Eq => if Z.even q then q else q + 1
                 end in
        nearest s k 10
  | _ => x
  end.

Definition nonzero (x : float) : bool :=
  match Prim2SF x with
  | S754_zero _ => false
  | _ => true
  end.

End Binary64.

(** Left-to-right summation, the behaviour of [sum] up to CPython 3.11
    (later versions compensate the rounding errors); [round] is modelled
    for [ndigits = 1], the only call the code makes. *)
Global Instance binary64 : PyFloat float := {|
  f_lit0 := 0%float;
  f_nonzero := Binary64.nonzero;
  f_sum := foldl PrimFloat.add (Binary64.of_int 0);
  int_truediv := Binary64.truediv;
  f_mul_int := λ x n, PrimFloat.mul x (Binary64.of_int n);
  f_round := λ x _, Binary64.round1 x;
|}.

(** The comparison of a float with the [int] 0, the only one the code
    makes on a value that may be a float. *)
Class PyFloatOrd (F : Type) := {
  f_le_zero : F → bool;            (* [x <= 0] *)
}.

Global Instance binary64_ord : PyFloatOrd float := {|
  f_le_zero := λ x, PrimFloat.leb x 0%float;
|}.

(** ** JSON-decoded values *)

Section Values.
Context {F : Type} `{PyFloat F}.

(** What [json.loads] returns: [None], [bool], [int], [float], [str],
    [list], and [dict] with string keys (in insertion order, keys
    distinct). *)
Inductive pyval :=
| VNone
| VBool (b : bool)
| VInt (z : Z)
| VFloat (x : F)
| VStr (s : pystr)
| VList (l : list pyval)
| VDict (d : list (pystr * pyval)).

(** [bool(v)] *)
Definition py_truth (v : pyval) : bool :=
  match v with
  | VNone => false
  | VBool b => b
  | VInt z => negb (z =? 0)
  | VFloat x => f_nonzero x
  | VStr s => negb (bool_decide (s = []))
  | VList l => match l with [] => false | _ => true end
  | VDict d => match d with [] => false | _ => true end
  end.

(** [v.startswith(p)]: only [str] has the attribute. *)
Definition py_startswith (v : pyval) (p : pystr) : except bool :=
  match v with
  | VStr s => Ok (startswith s p)
  | _ => Raise AttributeError
  end.

(** [len(v)] *)
Definition py_len (v : pyval) : except Z :=
  match v with
  | VStr s => Ok (len s)
  | VList l => Ok (len l)
  | VDict d => Ok (len d)
  | _ => Raise TypeError
  end.

(** [json.dumps(v, ensure_ascii=False)], written to a file opened with
    [encoding='utf-8'], can be encoded: no string of [v], key or value,
    holds a surrogate. *)
Fixpoint py_utf8 (v : pyval) : bool :=
  match v with
  | VStr s => utf8 s
  | VList l => forallb py_utf8 l
  | VDict d => forallb (λ kv, let '(k, w) := kv in utf8 k && py_utf8 w) d
  | _ => true
  end.

(** [d[k]] for a [dict] as a list of items. *)
Fixpoint assoc (k : pystr) (d : list (pystr * pyval)) : option pyval :=
  match d with
  | [] => None
  | (k', v) :: d' => if decide (k = k') then Some v else assoc k d'
  end.

(** [v.get(k, dflt)]: only [dict] has the attribute. *)
Definition py_get (v : pyval) (k : pystr) (dflt : pyval) : except pyval :=
  match v with
  | VDict d => Ok (default dflt (assoc k d))
  | _ => Raise AttributeError
  end.

End Values.
Arguments pyval F : clear implicits.

(** ** src/models.py *)

Module models.

Inductive Priority := FIRE | P0 | P1 | P2.
Inductive Status := BACKLOG | TODO | PENDING | IN_PROGRESS | IN_REVIEW | DONE.

Global Instance Priority_eq_dec : EqDecision Priority.
Proof. solve_decision. Defined.
Global Instance Status_eq_dec : EqDecision Status.
Proof. solve_decision. Defined.

(** The member's [.value]; [FIRE] is "P" followed by U+1F525. *)
Definition Priority_value (p : Priority) : pystr :=
  match p with
  | FIRE => lit "P" ++ [128293%N]
  | P0 => lit "P0"
  | P1 => lit "P1"
  | P2 => lit "P2"
  end.

Definition Status_value (s : Status) : pystr :=
  match s with
  | BACKLOG => lit "Backlog"
  | TODO => lit "Todo"
  | PENDING => lit "Pending"
  | IN_PROGRESS => lit "In Progress"
  | IN_REVIEW => lit "In Review"
  | DONE => lit "Done"
  end.

Definition Priority_members : list Priority := [FIRE; P0; P1; P2].
Definition Status_members : list Status :=
  [BACKLOG; TODO; PENDING; IN_PROGRESS; IN_REVIEW; DONE].

Section WithFloat.
Context {F : Type}.

(** [Priority(v)]: the member whose value equals [v], else [ValueError]. *)
Definition Priority_call (v : pyval F) : except Priority :=
  match v with
  | VStr s =>
      match List.find (λ p, bool_decide (Priority_value p = s)) Priority_members with
      | Some p => Ok p
      | None => Raise ValueError
      end
  | _ => Raise ValueError
  end.

(** [Status(v)] *)
Definition Status_call (v : pyval F) : except Status :=
  match v with
  | VStr s =>
      match List.find (λ p, bool_decide (Status_value p = s)) Status_members with
      | Some p => Ok p
      | None => Raise ValueError
      end
  | _ => Raise ValueError
  end.

(** The fields the code computes with carry the types the dataclass
    declares; the fields it only carries along keep the JSON value
    they were read from. *)
Record ProjectItem := {
  id : pystr;
  title : pyval F;
  status : Status;
  priority : Priority;
  assignees : list pystr;
  estimate_hours : option F;
  labels : pyval F;
  url : pyval F;
  repository : pyval F;
  issue_number : pyval F;
}.

Definition is_planned (self : ProjectItem) : bool :=
  negb (bool_decide (priority self = FIRE)).

Definition is_active (self : ProjectItem) : bool :=
  negb (bool_decide (status self = DONE)).

(** [I] is the class of the items held by the three groupings. *)
Record ProjectMetrics {I : Type} := {
  total_items : Z;
  total_estimate_hours : pynum F;
  completion_percentage : F;
  planned_count : Z;
  unplanned_count : Z;
  unplanned_percentage : F;
  high_priority_not_started : Z;
  items_by_status : gmap pystr (list I);
  items_by_priority : gmap pystr (list I);
  items_by_assignee : gmap pystr (list I);
  active_items : Z;
  active_completion_percentage : F;
  pending_items : Z;
  in_progress_items : Z;
  active_unplanned_percentage : F;
  todo_items : Z;
  done_active_items : Z;
  unplanned_done_percentage : F;
  unplanned_done_count : Z;
  active_unplanned_count : Z;
}.

End WithFloat.
Arguments ProjectItem F : clear implicits.
Arguments ProjectMetrics F I : clear implicits.

End models.

(** ** Raw records *)

(** A raw item of the data source: a [dict] in which every key may be
    absent ([None] here).  The values the parser inspects ([status],
    [priority], [content]) and the ones it only copies are arbitrary JSON
    values; [id], [assignees] and the estimate are typed as the fields of
    the item they become. *)
Record RawItem {F : Type} := {
  raw_id : option pystr;                       (* 'id' *)
  raw_title : option (pyval F);                (* 'title' *)
  raw_status : option (pyval F);               (* 'status' *)
  raw_priority : option (pyval F);             (* 'priority' *)
  raw_assignees : option (list pystr);         (* 'assignees' *)
  raw_estimate : option (option F);            (* 'estimate (Hrs)': null or a number *)
  raw_labels : option (pyval F);               (* 'labels' *)
  raw_content : option (pyval F);              (* 'content' *)
  raw_project_created_at : option (pyval F);
  raw_project_updated_at : option (pyval F);
  raw_issue_created_at : option (pyval F);
  raw_issue_updated_at : option (pyval F);
  raw_issue_closed_at : option (pyval F);
}.
Arguments RawItem F : clear implicits.

(** [d.get(k, dflt)] for a key of the record. *)
Abbreviation get field dflt := (default dflt field) (only parsing).

(** [sum(1 for item in items if cond(item))] *)
Definition sum_ones {A} (cond : A → bool) (items : list A) : Z :=
  foldl (λ acc item, if cond item then acc + 1 else acc) 0 items.

(** [if k not in grouped: grouped[k] = []] followed by
    [grouped[k].append(item)]. *)
Definition append_to {I} (grouped : gmap pystr (list I)) (k : pystr) (item : I)
    : gmap pystr (list I) :=
  let grouped := match grouped !! k with
                 | None => <[k := []]> grouped
                 | Some _ => grouped
                 end in
  alter (λ l, l ++ [item]) k grouped.

(** [round((a / b * 100), 1)] *)
Definition percentage `{PyFloat F} (a b : Z) : F :=
  f_round (f_mul_int (int_truediv a b) 100) 1.

(** [sum(h for h in hours if h is not None)]; the sum of no number is the
    [int] 0. *)
Definition sum_estimates `{PyFloat F} (hours : list (option F)) : pynum F :=
  match omap (λ h, h) hours with
  | [] => NInt 0
  | xs => NFloat (f_sum xs)
  end.

(** ** src/processor.py *)

Module processor.
Import models.

Section WithFloat.
Context {F : Type} `{PyFloat F}.

Definition parse_item (raw_item : RawItem F) : except (ProjectItem F) :=
  let content := get (raw_content raw_item) (VDict []) in
  let status_value := get (raw_status raw_item) (VStr (lit "Backlog")) in
  status ← try_except_ValueError (Status_call status_value) (Ok BACKLOG);
  let priority_value := get (raw_priority raw_item) (VStr (lit "P2")) in
  priority ← try_except_ValueError (Priority_call priority_value)
    (py_and (Ok (py_truth priority_value))
       (py_and (py_startswith priority_value (lit "P"))
          ((λ n, 2 <? n) <$> py_len priority_value))
     ≫= λ c : bool, if c then Ok FIRE else Ok P2);
  url ← py_get content (lit "url") (VStr (lit ""));
  repository ← py_get content (lit "repository") (VStr (lit ""));
  issue_number ← py_get content (lit "number") VNone;
  Ok {| id := get (raw_id raw_item) (lit "");
        title := get (raw_title raw_item) (VStr (lit ""));
        status := status;
        priority := priority;
        assignees := get (raw_assignees raw_item) [];
        estimate_hours := get (raw_estimate raw_item) None;
        labels := get (raw_labels raw_item) (VList []);
        url := url;
        repository := repository;
        issue_number := issue_number |}.

Definition parse_items (raw_items : list (RawItem F)) : except (list (ProjectItem F)) :=
  mapM parse_item raw_items.

Definition group_by_status (items : list (ProjectItem F))
    : gmap pystr (list (ProjectItem F)) :=
  foldl (λ grouped item, append_to grouped (Status_value (status item)) item) ∅ items.

Definition group_by_priority (items : list (ProjectItem F))
    : gmap pystr (list (ProjectItem F)) :=
  foldl (λ grouped item, append_to grouped (Priority_value (priority item)) item) ∅ items.

Definition group_by_assignee (items : list (ProjectItem F))
    : gmap pystr (list (ProjectItem F)) :=
  foldl (λ grouped item,
           match assignees item with
           | [] => append_to grouped (lit "Unassigned") item
           | _ => foldl (λ grouped assignee, append_to grouped assignee item)
                    grouped (assignees item)
           end) ∅ items.

Definition calculate_todo_count (items : list (ProjectItem F)) : Z :=
  sum_ones (λ item, bool_decide (status item = TODO)) items.

Definition calculate_done_active_count (items : list (ProjectItem F)) : Z :=
  sum_ones (λ item, bool_decide (status item = DONE)) items.

Definition calculate_unplanned_done_stats (items : list (ProjectItem F)) : F * Z :=
  let done_items := filter (λ item, status item = DONE) items in
  let total_done := len done_items in
  if total_done =? 0 then (f_lit0, 0)
  else
    let unplanned_done :=
      sum_ones (λ item, bool_decide (priority item = FIRE)) done_items in
    (percentage unplanned_done total_done, unplanned_done).

Definition calculate_metrics (items : list (ProjectItem F))
    : ProjectMetrics F (ProjectItem F) :=
  match items with
  | [] =>
      {| total_items := 0;
         total_estimate_hours := NFloat f_lit0;
         completion_percentage := f_lit0;
         planned_count := 0;
         unplanned_count := 0;
         unplanned_percentage := f_lit0;
         high_priority_not_started := 0;
         items_by_status := ∅;
         items_by_priority := ∅;
         items_by_assignee := ∅;
         active_items := 0;
         active_completion_percentage := f_lit0;
         pending_items := 0;
         in_progress_items := 0;
         active_unplanned_percentage := f_lit0;
         active_unplanned_count := 0;
         todo_items := 0;
         done_active_items := 0;
         unplanned_done_percentage := f_lit0;
         unplanned_done_count := 0 |}
  | _ =>
      let total_items := len items in
      let total_estimate_hours := sum_estimates (estimate_hours <$> items) in
      let done_items := sum_ones (λ item, bool_decide (status item = DONE)) items in
      let completion_percentage :=
        if 0 <? total_items then percentage done_items total_items else f_lit0 in
      let unplanned_count := sum_ones (λ item, negb (is_planned item)) items in
      let planned_count := total_items - unplanned_count in
      let unplanned_percentage :=
        if 0 <? total_items then percentage unplanned_count total_items else f_lit0 in
      let high_priority_not_started :=
        sum_ones (λ item,
                    bool_decide (priority item ∈ [FIRE; P0])
                    && bool_decide (status item ∈ [BACKLOG; TODO])) items in
      let items_by_status := group_by_status items in
      let items_by_priority := group_by_priority items in
      let items_by_assignee := group_by_assignee items in
      let active_items_list := filter (λ item, status item ≠ BACKLOG) items in
      let active_items := len active_items_list in
      let active_done :=
        sum_ones (λ item, bool_decide (status item = DONE)) active_items_list in
      let active_completion_percentage :=
        if 0 <? active_items then percentage active_done active_items else f_lit0 in
      let pending_items := sum_ones (λ item, bool_decide (status item = PENDING)) items in
      let in_progress_items :=
        sum_ones (λ item, bool_decide (status item = IN_PROGRESS)) items in
      let active_unplanned_count :=
        sum_ones (λ item, negb (is_planned item)) active_items_list in
      let active_unplanned_percentage :=
        if 0 <? active_items then percentage active_unplanned_count active_items
        else f_lit0 in
      let todo_items := calculate_todo_count items in
      let done_active_items := calculate_done_active_count items in
      let '(unplanned_done_percentage, unplanned_done_count) :=
        calculate_unplanned_done_stats items in
      {| total_items := total_items;
         total_estimate_hours := total_estimate_hours;
         completion_percentage := completion_percentage;
         planned_count := planned_count;
         unplanned_count := unplanned_count;
         unplanned_percentage := unplanned_percentage;
         high_priority_not_started := high_priority_not_started;
         items_by_status := items_by_status;
         items_by_priority := items_by_priority;
         items_by_assignee := items_by_assignee;
         active_items := active_items;
         active_completion_percentage := active_completion_percentage;
         pending_items := pending_items;
         in_progress_items := in_progress_items;
         active_unplanned_percentage := active_unplanned_percentage;
         active_unplanned_count := active_unplanned_count;
         todo_items := todo_items;
         done_active_items := done_active_items;
         unplanned_done_percentage := unplanned_done_percentage;
         unplanned_done_count := unplanned_done_count |}
  end.

Inductive color := green | yellow | red.

Definition get_workload_color (item_count : Z) : color :=
  if 10 <? item_count then red
  else if 6 <=? item_count then yellow
  else green.

Definition get_high_priority_color (count : Z) : color :=
  if 5 <? count then red
  else if 0 <? count then yellow
  else green.

End WithFloat.

End processor.

(** ** src/models_v2.py *)

Module models_v2.

Inductive Priority := FIRE | P0 | P1 | P2.
Inductive Status := BACKLOG | TODO | PENDING | IN_PROGRESS | IN_REVIEW | DONE.

Global Instance Priority_eq_dec : EqDecision Priority.
Proof. solve_decision. Defined.
Global Instance Status_eq_dec : EqDecision Status.
Proof. solve_decision. Defined.

Definition Priority_value (p : Priority) : pystr :=
  match p with
  | FIRE => lit "P" ++ [128293%N]
  | P0 => lit "P0"
  | P1 => lit "P1"
  | P2 => lit "P2"
  end.

Definition Status_value (s : Status) : pystr :=
  match s with
  | BACKLOG => lit "Backlog"
  | TODO => lit "Todo"
  | PENDING => lit "Pending"
  | IN_PROGRESS => lit "In Progress"
  | IN_REVIEW => lit "In Review"
  | DONE => lit "Done"
  end.

Definition Priority_members : list Priority := [FIRE; P0; P1; P2].
Definition Status_members : list Status :=
  [BACKLOG; TODO; PENDING; IN_PROGRESS; IN_REVIEW; DONE].

Section WithFloat.
Context {F : Type}.

Definition Priority_call (v : pyval F) : except Priority :=
  match v with
  | VStr s =>
      match List.find (λ p, bool_decide (Priority_value p = s)) Priority_members with
      | Some p => Ok p
      | None => Raise ValueError
      end
  | _ => Raise ValueError
  end.

Definition Status_call (v : pyval F) : except Status :=
  match v with
  | VStr s =>
      match List.find (λ p, bool_decide (Status_value p = s)) Status_members with
      | Some p => Ok p
      | None => Raise ValueError
      end
  | _ => Raise ValueError
  end.

Record ProjectItemV2 := {
  id : pystr;
  title : pyval F;
  status : Status;
  priority : Priority;
  assignees : list pystr;
  estimate_hours : option F;
  labels : pyval F;
  url : pyval F;
  repository : pyval F;
  issue_number : pyval F;
  project_created_at : pyval F;
  project_updated_at : pyval F;
  issue_created_at : pyval F;
  issue_updated_at : pyval F;
  issue_closed_at : pyval F;
}.

Definition is_planned (self : ProjectItemV2) : bool :=
  negb (bool_decide (priority self = FIRE)).

Definition is_active (self : ProjectItemV2) : bool :=
  negb (bool_decide (status self = DONE)).

Record ProjectMetrics := {
  total_items : Z;
  total_estimate_hours : pynum F;
  completion_percentage : F;
  planned_count : Z;
  unplanned_count : Z;
  unplanned_percentage : F;
  high_priority_not_started : Z;
  items_by_status : gmap pystr (list ProjectItemV2);
  items_by_priority : gmap pystr (list ProjectItemV2);
  items_by_assignee : gmap pystr (list ProjectItemV2);
  active_items : Z;
  active_completion_percentage : F;
  pending_items : Z;
  in_progress_items : Z;
  active_unplanned_percentage : F;
  todo_items : Z;
  done_active_items : Z;
  unplanned_done_percentage : F;
  unplanned_done_count : Z;
  active_unplanned_count : Z;
}.

End WithFloat.
Arguments ProjectItemV2 F : clear implicits.
Arguments ProjectMetrics F : clear implicits.

End models_v2.

(** ** Python datetimes *)

(** The [datetime] builtins the code calls, for a type [D] of datetimes.
    Parsing raises [ValueError] on a malformed string; comparing a
    datetime that carries an offset with one that carries none raises
    [TypeError]. *)
Class PyDatetime (D : Type) := {
  fromisoformat : pystr → except D;       (* [datetime.fromisoformat(s)] *)
  replace_tzinfo_utc : D → D;             (* [d.replace(tzinfo=timezone.utc)] *)
  dt_lt : D → D → except bool;            (* [a < b] *)
  dt_gt : D → D → except bool;            (* [a > b] *)
}.

(** [s.replace(old, new)] for an [old] of one character. *)
Definition replace_char (old : N) (new s : pystr) : pystr :=
  s ≫= λ c, if (c =? old)%N then new else [c].

(** [v.replace(old, new)]: only [str] has the attribute. *)
Definition py_replace {F} (v : pyval F) (old : N) (new : pystr) : except pystr :=
  match v with
  | VStr s => Ok (replace_char old new s)
  | _ => Raise AttributeError
  end.

(** [bool(s)] for an [Optional[str]]. *)
Definition opt_str_truth (s : option pystr) : bool :=
  match s with
  | Some (_ :: _) => true
  | _ => false
  end.


(** *** Timestamps to the second *)

(** The datetime builtins on the two shapes of timestamp the data holds:
    a date [YYYY-MM-DD], and a date and a time [YYYY-MM-DDTHH:MM:SS] with
    or without an offset [+HH:MM] or [-HH:MM].  On these the functions
    below are the ones of the interpreter; every other string is rejected
    here, which the interpreter need not do. *)
Module Iso8601.

(** The fields, and the offset from UTC in minutes of a datetime that
    carries one. *)
Record dt := {
  fields : Z * Z * Z * Z * Z * Z;
  utcoffset : option Z;
}.

Definition digit (c : N) : option Z :=
  if ((48 <=? c) && (c <=? 57))%N then Some (Z.of_N c - 48) else None.

(** The number written by a string of digits. *)
Definition number (s : pystr) : option Z :=
  foldl (λ acc c, n ← acc; d ← digit c; Some (10 * n + d)) (Some 0) s.

Definition is_leap (y : Z) : bool :=
  (y mod 4 =? 0) && (negb (y mod 100 =? 0) || (y mod 400 =? 0)).

Definition days_in_month (y m : Z) : Z :=
  if m =? 2 then (if is_leap y then 29 else 28)
  else if (m =? 4) || (m =? 6) || (m =? 9) || (m =? 11) then 30
  else 31.

(** The days from 1970-01-01 to the given date. *)
Definition days_from_civil (y m d : Z) : Z :=
  let y := if m <=? 2 then y - 1 else y in
  let era := y / 400 in
  let yoe := y - era * 400 in
  let doy := (153 * (if 2 <? m then m - 3 else m + 9) + 2) / 5 + d - 1 in
  let doe := yoe * 365 + yoe / 4 - yoe / 100 + doy in
  era * 146097 + doe - 719468.

Definition parse_date (s : pystr) : option (Z * Z * Z) :=
  match s with
  | [y1; y2; y3; y4; dash1; m1; m2; dash2; d1; d2] =>
      y ← number [y1; y2; y3; y4];
      m ← number [m1; m2];
      d ← number [d1; d2];
      if ((dash1 =? 45) && (dash2 =? 45))%N
         && (1 <=? y) && (1 <=? m) && (m <=? 12) && (1 <=? d) && (d <=? days_in_month y m)
      then Some (y, m, d) else None
  | _ => None
  end.

Definition parse_time (s : pystr) : option (Z * Z * Z) :=
  match s with
  | [h1; h2; colon1; m1; m2; colon2; s1; s2] =>
      h ← number [h1; h2];
      m ← number [m1; m2];
      s ← number [s1; s2];
      if ((colon1 =? 58) && (colon2 =? 58))%N && (h <=? 23) && (m <=? 59) && (s <=? 59)
      then Some (h, m, s) else None
  | _ => None
  end.

Definition parse_offset (s : pystr) : option (option Z) :=
  match s with
  | [] => Some None
  | [sign; h1; h2; colon; m1; m2] =>
      h ← number [h1; h2];
      m ← number [m1; m2];
      if (colon =? 58)%N && (h <=? 23) && (m <=? 59)
      then if (sign =? 43)%N then Some (Some (60 * h + m))
           else if (sign =? 45)%N then Some (Some (- (60 * h + m)))
           else None
      else None
  | _ => None
  end.

Definition parse (s : pystr) : option dt :=
  '(y, m, d) ← parse_date (take 10 s);
  match drop 10 s with
  | [] => Some {| fields := (y, m, d, 0, 0, 0); utcoffset := None |}
  | sep :: rest =>
      if (sep =? 84)%N then
        '(h, mi, sec) ← parse_time (take 8 rest);
        offset ← parse_offset (drop 8 rest);
        Some {| fields := (y, m, d, h, mi, sec); utcoffset := offset |}
      else None
  end.

(** The seconds from the epoch, of the fields read as UTC. *)
Definition seconds (f : Z * Z * Z * Z * Z * Z) : Z :=
  let '(y, m, d, h, mi, s) := f in
  ((days_from_civil y m d * 24 + h) * 60 + mi) * 60 + s.

(** The comparison by [cmp] of two datetimes: as instants when both carry
    an offset, by their fields when neither does. *)
Definition compare (cmp : Z → Z → bool) (a b : dt) : except bool :=
  match utcoffset a, utcoffset b with
  | Some oa, Some ob => Ok (cmp (seconds (fields a) - 60 * oa) (seconds (fields b) - 60 * ob))
  | None, None => Ok (cmp (seconds (fields a)) (seconds (fields b)))
  | _, _ => Raise TypeError
  end.

End Iso8601.

Global Instance iso8601 : PyDatetime Iso8601.dt := {|
  fromisoformat := λ s, match Iso8601.parse s with
                        | Some d => Ok d
                        | None => Raise ValueError
                        end;
  replace_tzinfo_utc := λ d, {| Iso8601.fields := Iso8601.fields d;
                                Iso8601.utcoffset := Some 0 |};
  dt_lt := Iso8601.compare Z.ltb;
  dt_gt := Iso8601.compare Z.gtb;
|}.

(** ** src/processor_v2.py *)

Module processor_v2.
Import models_v2.

Section WithFloat.
Context {F : Type} `{PyFloat F}.

Definition parse_item_v2 (raw_item : RawItem F) : except (ProjectItemV2 F) :=
  let content := get (raw_content raw_item) (VDict []) in
  let status_value := get (raw_status raw_item) (VStr (lit "Backlog")) in
  status ← try_except_ValueError (Status_call status_value) (Ok BACKLOG);
  let priority_value := get (raw_priority raw_item) (VStr (lit "P2")) in
  priority ← try_except_ValueError (Priority_call priority_value)
    (py_and (Ok (py_truth priority_value))
       (py_and (py_startswith priority_value (lit "P"))
          ((λ n, 2 <? n) <$> py_len priority_value))
     ≫= λ c : bool, if c then Ok FIRE else Ok P2);
  url ← py_get content (lit "url") (VStr (lit ""));
  repository ← py_get content (lit "repository") (VStr (lit ""));
  issue_number ← py_get content (lit "number") VNone;
  Ok {| id := get (raw_id raw_item) (lit "");
        title := get (raw_title raw_item) (VStr (lit ""));
        status := status;
        priority := priority;
        assignees := get (raw_assignees raw_item) [];
        estimate_hours := get (raw_estimate raw_item) None;
        labels := get (raw_labels raw_item) (VList []);
        url := url;
        repository := repository;
        issue_number := issue_number;
        project_created_at := get (raw_project_created_at raw_item) VNone;
        project_updated_at := get (raw_project_updated_at raw_item) VNone;
        issue_created_at := get (raw_issue_created_at raw_item) VNone;
        issue_updated_at := get (raw_issue_updated_at raw_item) VNone;
        issue_closed_at := get (raw_issue_closed_at raw_item) VNone |}.

Definition parse_items_v2 (raw_items : list (RawItem F))
    : except (list (ProjectItemV2 F)) :=
  mapM parse_item_v2 raw_items.

(** The attribute that [date_field] names: one of the five timestamps, or
    no attribute of the item. *)
Inductive DateField :=
| by_issue_created_at
| by_issue_updated_at
| by_issue_closed_at
| by_project_created_at
| by_project_updated_at
| by_no_attribute.

(** [getattr(item, date_field, None)] *)
Definition getattr (item : ProjectItemV2 F) (date_field : DateField) : pyval F :=
  match date_field with
  | by_issue_created_at => issue_created_at item
  | by_issue_updated_at => issue_updated_at item
  | by_issue_closed_at => issue_closed_at item
  | by_project_created_at => project_created_at item
  | by_project_updated_at => project_updated_at item
  | by_no_attribute => VNone
  end.

Section WithDatetime.
Context {D : Type} `{PyDatetime D}.

(** The body of the loop of [filter_by_date_range]: [filtered] after
    one more item. *)
Definition filter_step (start_date end_date : option pystr) (date_field : DateField)
    (filtered : list (ProjectItemV2 F)) (item : ProjectItemV2 F)
    : except (list (ProjectItemV2 F)) :=
  let date_value := getattr item date_field in
  if negb (py_truth date_value) then Ok filtered                       (* continue *)
  else
    text ← py_replace date_value 90 (lit "+00:00");
    item_date ← fromisoformat text;
    before ← match start_date with
             | Some (c :: s) =>
                 start ← fromisoformat (c :: s);
                 dt_lt item_date (replace_tzinfo_utc start)
             | _ => Ok false
             end;
    if before : bool then Ok filtered                                   (* continue *)
    else
      after ← match end_date with
              | Some (c :: s) =>
                  end_ ← fromisoformat (c :: s);
                  dt_gt item_date (replace_tzinfo_utc end_)
              | _ => Ok false
              end;
      if after : bool then Ok filtered                                  (* continue *)
      else Ok (filtered ++ [item]).

Definition filter_by_date_range (items : list (ProjectItemV2 F))
    (start_date end_date : option pystr) (date_field : DateField)
    : except (list (ProjectItemV2 F)) :=
  if negb (opt_str_truth start_date) && negb (opt_str_truth end_date) then Ok items
  else
    foldl (λ filtered item,
             filtered ≫= λ filtered, filter_step start_date end_date date_field filtered item)
      (Ok []) items.

End WithDatetime.

(** The body of the single grouping loop: the three dictionaries are
    updated for one item. *)
Definition group_step
    (acc : gmap pystr (list (ProjectItemV2 F)) * gmap pystr (list (ProjectItemV2 F))
           * gmap pystr (list (ProjectItemV2 F)))
    (item : ProjectItemV2 F) :=
  let '(items_by_status, items_by_priority, items_by_assignee) := acc in
  let items_by_status := append_to items_by_status (Status_value (status item)) item in
  let items_by_priority :=
    append_to items_by_priority (Priority_value (priority item)) item in
  let items_by_assignee :=
    match assignees item with
    | [] => append_to items_by_assignee (lit "Unassigned") item
    | _ => foldl (λ grouped assignee, append_to grouped assignee item)
             items_by_assignee (assignees item)
    end in
  (items_by_status, items_by_priority, items_by_assignee).

Definition calculate_metrics_v2 (items : list (ProjectItemV2 F)) : ProjectMetrics F :=
  match items with
  | [] =>
      {| total_items := 0;
         total_estimate_hours := NFloat f_lit0;
         completion_percentage := f_lit0;
         planned_count := 0;
         unplanned_count := 0;
         unplanned_percentage := f_lit0;
         high_priority_not_started := 0;
         items_by_status := ∅;
         items_by_priority := ∅;
         items_by_assignee := ∅;
         (* the dataclass defaults *)
         active_items := 0;
         active_completion_percentage := f_lit0;
         pending_items := 0;
         in_progress_items := 0;
         active_unplanned_percentage := f_lit0;
         todo_items := 0;
         done_active_items := 0;
         unplanned_done_percentage := f_lit0;
         unplanned_done_count := 0;
         active_unplanned_count := 0 |}
  | _ =>
      let total_items := len items in
      let total_estimate_hours := sum_estimates (estimate_hours <$> items) in
      let done_items := sum_ones (λ item, bool_decide (status item = DONE)) items in
      let completion_percentage :=
        if 0 <? total_items then percentage done_items total_items else f_lit0 in
      let unplanned_count := sum_ones (λ item, negb (is_planned item)) items in
      let planned_count := total_items - unplanned_count in
      let unplanned_percentage :=
        if 0 <? total_items then percentage unplanned_count total_items else f_lit0 in
      let high_priority_not_started :=
        sum_ones (λ item,
                    bool_decide (priority item ∈ [FIRE; P0])
                    && bool_decide (status item ∈ [BACKLOG; TODO])) items in
      let '(items_by_status, items_by_priority, items_by_assignee) :=
        foldl group_step (∅, ∅, ∅) items in
      let active_items_list := filter (λ item, status item ≠ BACKLOG) items in
      let active_items := len active_items_list in
      let active_done :=
        sum_ones (λ item, bool_decide (status item = DONE)) active_items_list in
      let active_completion_percentage :=
        if 0 <? active_items then percentage active_done active_items else f_lit0 in
      let pending_items := sum_ones (λ item, bool_decide (status item = PENDING)) items in
      let in_progress_items :=
        sum_ones (λ item, bool_decide (status item = IN_PROGRESS)) items in
      let active_unplanned_count :=
        sum_ones (λ item, negb (is_planned item)) active_items_list in
      let active_unplanned_percentage :=
        if 0 <? active_items then percentage active_unplanned_count active_items
        else f_lit0 in
      let todo_items := sum_ones (λ item, bool_decide (status item = TODO)) items in
      let done_active_items :=
        sum_ones (λ item, bool_decide (status item = DONE)) items in
      let done_items_list := filter (λ item, status item = DONE) items in
      let total_done := len done_items_list in
      let unplanned_done_count :=
        sum_ones (λ item, bool_decide (priority item = FIRE)) done_items_list in
      let unplanned_done_percentage :=
        if 0 <? total_done then percentage unplanned_done_count total_done
        else f_lit0 in
      {| total_items := total_items;
         total_estimate_hours := total_estimate_hours;
         completion_percentage := completion_percentage;
         planned_count := planned_count;
         unplanned_count := unplanned_count;
         unplanned_percentage := unplanned_percentage;
         high_priority_not_started := high_priority_not_started;
         items_by_status := items_by_status;
         items_by_priority := items_by_priority;
         items_by_assignee := items_by_assignee;
         active_items := active_items;
         active_completion_percentage := active_completion_percentage;
         pending_items := pending_items;
         in_progress_items := in_progress_items;
         active_unplanned_percentage := active_unplanned_percentage;
         active_unplanned_count := active_unplanned_count;
         todo_items := todo_items;
         done_active_items := done_active_items;
         unplanned_done_percentage := unplanned_done_percentage;
         unplanned_done_count := unplanned_done_count |}
  end.

End WithFloat.

End processor_v2.

(** ** src/snapshot.py *)

(** [datetime.now()]: the reading of the clock is an input. *)
Record datetime := {
  year : Z; month : Z; day : Z;
  hour : Z; minute : Z; second : Z; microsecond : Z;
}.

(** The [width] last decimal digits of [n], zero-padded. *)
Fixpoint zfill (width : nat) (n : Z) : pystr :=
  match width with
  | O => []
  | S w => zfill w (n / 10) ++ [(48 + Z.to_N (n mod 10))%N]
  end.

(** [t.strftime("snapshot-%Y%m%d-%H%M%S.json")], for a year of four digits. *)
Definition strftime_snapshot (t : datetime) : pystr :=
  lit "snapshot-" ++ zfill 4 (year t) ++ zfill 2 (month t) ++ zfill 2 (day t)
  ++ lit "-" ++ zfill 2 (hour t) ++ zfill 2 (minute t) ++ zfill 2 (second t)
  ++ lit ".json".

(** [t.isoformat()] *)
Definition isoformat (t : datetime) : pystr :=
  zfill 4 (year t) ++ lit "-" ++ zfill 2 (month t) ++ lit "-" ++ zfill 2 (day t)
  ++ lit "T" ++ zfill 2 (hour t) ++ lit ":" ++ zfill 2 (minute t) ++ lit ":"
  ++ zfill 2 (second t)
  ++ (if microsecond t =? 0 then [] else lit "." ++ zfill 6 (microsecond t)).

(** The pattern ["snapshot-*.json"] of [Path.glob]. *)
Definition glob_snapshot (name : pystr) : bool :=
  startswith name (lit "snapshot-") && endswith name (lit ".json")
  && (len (lit "snapshot-") + len (lit ".json") <=? len name).

Module snapshot.
Import models.

Section WithFloat.
Context {F : Type} `{PyFloat F}.

(** The dictionary of one stored item: the entries under the ten keys
    that [_serialize_item] writes and [_deserialize_item] reads, and the
    entries under any other key, which a file may hold and nothing reads. *)
Record ItemData := {
  d_id : pystr;
  d_title : pyval F;
  d_status : pyval F;
  d_priority : pyval F;
  d_assignees : list pystr;
  d_estimate_hours : option F;
  d_labels : pyval F;
  d_url : pyval F;
  d_repository : pyval F;
  d_issue_number : pyval F;
  d_others : list (pystr * pyval F);
}.

(** The JSON object of a snapshot file.  [json.load] is taken to return
    the object that [json.dump] wrote, when the write succeeded: the same
    strings and numbers in the same places. *)
Record SnapshotData := {
  timestamp : pystr;
  items : list ItemData;
}.

(** The snapshot directory: absent, or its files by name, each a whole
    snapshot. *)
Definition directory := option (gmap pystr SnapshotData).

(** The strings of a stored item can be encoded. *)
Definition item_utf8 (data : ItemData) : bool :=
  utf8 (d_id data) && py_utf8 (d_title data) && py_utf8 (d_status data)
  && py_utf8 (d_priority data) && forallb utf8 (d_assignees data)
  && py_utf8 (d_labels data) && py_utf8 (d_url data) && py_utf8 (d_repository data)
  && py_utf8 (d_issue_number data) && py_utf8 (VDict (d_others data)).

(** [json.dump(data, f, ensure_ascii=False, indent=2)] on a file opened with
    [encoding='utf-8']: the strings are written as they are, and the write
    raises [UnicodeEncodeError] at a string that holds a surrogate. *)
Definition json_dump (data : SnapshotData) : except () :=
  if utf8 (timestamp data) && forallb item_utf8 (items data) then Ok ()
  else Raise UnicodeEncodeError.

Definition _serialize_item (item : ProjectItem F) : ItemData :=
  {| d_id := id item;
     d_title := title item;
     d_status := VStr (Status_value (status item));
     d_priority := VStr (Priority_value (priority item));
     d_assignees := assignees item;
     d_estimate_hours := estimate_hours item;
     d_labels := labels item;
     d_url := url item;
     d_repository := repository item;
     d_issue_number := issue_number item;
     d_others := [] |}.

(** Returns the name of the file written and the directory afterwards.
    When the write raises, the file is left with the part of the text
    written before the string that could not be encoded, which is no JSON
    object: that directory is none of those [directory] describes, and
    none is returned. *)
Definition save_snapshot (now : datetime) (items : list (ProjectItem F))
    (snapshot_dir : directory) : except (pystr * directory) :=
  let files := default ∅ snapshot_dir in          (* mkdir(parents, exist_ok) *)
  let timestamp := now in
  let filename := strftime_snapshot timestamp in
  let snapshot_data :=
    {| timestamp := isoformat timestamp ++ lit "Z";
       items := _serialize_item <$> items |} in
  json_dump snapshot_data ;;
  Ok (filename, Some (<[filename := snapshot_data]> files)).

Definition _deserialize_item (data : ItemData) : except (ProjectItem F) :=
  status ← Status_call (d_status data);
  priority ← Priority_call (d_priority data);
  Ok {| id := d_id data;
        title := d_title data;
        status := status;
        priority := priority;
        assignees := d_assignees data;
        estimate_hours := d_estimate_hours data;
        labels := d_labels data;
        url := d_url data;
        repository := d_repository data;
        issue_number := d_issue_number data |}.

(** [max(first :: rest, key=lambda p: p.name)]: a later file replaces
    the candidate only when its name is greater. *)
Definition max_by_name {A} (first : pystr * A) (rest : list (pystr * A)) : pystr * A :=
  foldl (λ best p, if str_ltb best.1 p.1 then p else best) first rest.

(** [None] of Python is [Ok None]. *)
Definition load_latest_snapshot (snapshot_dir : directory)
    : except (option (list (ProjectItem F))) :=
  match snapshot_dir with
  | None => Ok None
  | Some files =>
      let snapshot_files := filter (λ p, glob_snapshot p.1 = true) (map_to_list files) in
      match snapshot_files with
      | [] => Ok None
      | first :: rest =>
          let latest_snapshot := max_by_name first rest in
          let data := latest_snapshot.2 in
          Some <$> mapM _deserialize_item (items data)
      end
  end.

Record StatusChange := {
  c_id : pystr;
  c_title : pyval F;
  c_from_status : pystr;
  c_to_status : pystr;
}.

Record Comparison := {
  items_completed : Z;
  items_added : Z;
  status_changes : list StatusChange;
}.

(** [{item.id: item for item in items}] *)
Definition by_id (items : list (ProjectItem F)) : gmap pystr (ProjectItem F) :=
  foldl (λ d item, <[id item := item]> d) ∅ items.

Definition compare_snapshots (current : list (ProjectItem F))
    (previous : option (list (ProjectItem F))) : Comparison :=
  match previous with
  | None => {| items_completed := 0; items_added := 0; status_changes := [] |}
  | Some previous =>
      let previous_by_id := by_id previous in
      let current_by_id := by_id current in
      let items_completed :=
        foldl (λ items_completed item,
                 match previous_by_id !! id item with
                 | Some prev_item =>
                     if negb (bool_decide (status prev_item = DONE))
                        && bool_decide (status item = DONE)
                     then items_completed + 1
                     else items_completed
                 | None => items_completed
                 end) 0 current in
      let items_added :=
        sum_ones (λ item_id, negb (bool_decide (is_Some (previous_by_id !! item_id))))
          (map_to_list current_by_id).*1 in
      let status_changes :=
        foldl (λ status_changes item,
                 match previous_by_id !! id item with
                 | Some prev_item =>
                     if negb (bool_decide (status prev_item = status item))
                     then status_changes ++
                            [ {| c_id := id item;
                                 c_title := title item;
                                 c_from_status := Status_value (status prev_item);
                                 c_to_status := Status_value (status item) |} ]
                     else status_changes
                 | None => status_changes
                 end) [] current in
      {| items_completed := items_completed;
         items_added := items_added;
         status_changes := status_changes |}
  end.

End WithFloat.
Arguments ItemData F : clear implicits.
Arguments SnapshotData F : clear implicits.
Arguments directory F : clear implicits.
Arguments StatusChange F : clear implicits.
Arguments Comparison F : clear implicits.

End snapshot.

(** ** src/config.py *)

(** [c.isspace()]: the characters [str.strip] removes. *)
Definition isspace (c : N) : bool :=
  ((9 <=? c) && (c <=? 13) || (28 <=? c) && (c <=? 32) || (c =? 133) || (c =? 160)
   || (c =? 5760) || (8192 <=? c) && (c <=? 8202) || (c =? 8232) || (c =? 8233)
   || (c =? 8239) || (c =? 8287) || (c =? 12288))%N.

Fixpoint lstrip (s : pystr) : pystr :=
  match s with
  | c :: s' => if isspace c then lstrip s' else s
  | [] => []
  end.

(** [s.strip()] *)
Definition strip (s : pystr) : pystr := reverse (lstrip (reverse (lstrip s))).

(** [sep.join(l)] *)
Fixpoint join (sep : pystr) (l : list pystr) : pystr :=
  match l with
  | [] => []
  | [s] => s
  | s :: l' => s ++ sep ++ join sep l'
  end.

Module config.

Section WithFloat.
Context {F : Type} `{PyFloat F} `{PyFloatOrd F}.

(** The fields hold what the configuration file or the command line gave:
    nothing checks their types before [validate]. *)
Record Config := {
  owner : pyval F;
  project_number : pyval F;
  default_format : pyval F;
  output_directory : pyval F;
}.

(** [Config()]: the defaults of the dataclass. *)
Definition Config_defaults : Config :=
  {| owner := VStr (lit "TechBurst-Pro");
     project_number := VInt 2;
     default_format := VStr (lit "html");
     output_directory := VStr (lit "reports") |}.

(** The file at [config_path]: absent; present, with [open] or [json.load]
    raising [IOError] or [JSONDecodeError]; or present and holding a JSON
    value. *)
Inductive ConfigFile :=
| Absent
| Unreadable
| Holds (data : pyval F).

Definition load (config_file : ConfigFile) : except Config :=
  match config_file with
  | Absent => Ok Config_defaults
  | Unreadable => Ok Config_defaults
  | Holds data =>
      owner ← py_get data (lit "owner") (owner Config_defaults);
      project_number ← py_get data (lit "project_number") (project_number Config_defaults);
      default_format ← py_get data (lit "default_format") (default_format Config_defaults);
      output_directory ←
        py_get data (lit "output_directory") (output_directory Config_defaults);
      Ok {| owner := owner;
            project_number := project_number;
            default_format := default_format;
            output_directory := output_directory |}
  end.

(** The parsed command line.  [owner] and [project_number] are attributes
    of every namespace the code receives; [format] and [output] are read
    behind [hasattr], [None] here when there is no such attribute. *)
Record Namespace := {
  args_owner : pyval F;
  args_project_number : pyval F;
  args_format : option (pyval F);
  args_output : option (pyval F);
}.

(** [v is not None] *)
Definition is_not_None (v : pyval F) : bool :=
  match v with
  | VNone => false
  | _ => true
  end.

Definition merge_with_args (self : Config) (args : Namespace) : Config :=
  {| owner := if is_not_None (args_owner args) then args_owner args else owner self;
     project_number :=
       if is_not_None (args_project_number args) then args_project_number args
       else project_number self;
     default_format :=
       match args_format args with
       | Some format => if is_not_None format then format else default_format self
       | None => default_format self
       end;
     output_directory :=
       match args_output args with
       | Some output => if is_not_None output then output else output_directory self
       | None => output_directory self
       end |}.

(** What [validate] does: it returns, raises [ConfigValidationError] with
    a message, or raises an exception of the interpreter. *)
Inductive validation :=
| Valid
| ConfigValidationError (message : pystr)
| Error (e : exn).

(** [v.strip()]: only [str] has the attribute. *)
Definition py_strip (v : pyval F) : except (pyval F) :=
  match v with
  | VStr s => Ok (VStr (strip s))
  | _ => Raise AttributeError
  end.

(** [not v or not v.strip()] *)
Definition empty (v : pyval F) : except bool :=
  if negb (py_truth v) then Ok true
  else (λ stripped, negb (py_truth stripped)) <$> py_strip v.

(** [v <= 0] *)
Definition py_le_zero (v : pyval F) : except bool :=
  match v with
  | VInt z => Ok (z <=? 0)
  | VBool b => Ok ((if b then 1 else 0) <=? 0)
  | VFloat x => Ok (f_le_zero x)
  | _ => Raise TypeError
  end.

(** [v not in l] for a list [l] of strings: no other value equals a
    string. *)
Definition py_not_in (v : pyval F) (l : list pystr) : bool :=
  match v with
  | VStr s => negb (bool_decide (s ∈ l))
  | _ => true
  end.

(** [if cond: raise ConfigValidationError(message)], then [rest]. *)
Definition raise_if (cond : except bool) (message : pystr) (rest : validation)
    : validation :=
  match cond with
  | Raise e => Error e
  | Ok true => ConfigValidationError message
  | Ok false => rest
  end.

Definition valid_formats : list pystr := [lit "html"; lit "md"; lit "csv"; lit "json"].

Definition validate (self : Config) : validation :=
  raise_if (empty (owner self)) (lit "owner cannot be empty")
  (raise_if (py_le_zero (project_number self)) (lit "project_number must be positive")
  (raise_if (Ok (py_not_in (default_format self) valid_formats))
     (lit "format must be one of: " ++ join (lit ", ") valid_formats)
  (raise_if (empty (output_directory self)) (lit "output_directory cannot be empty")
  Valid))).

End WithFloat.
Arguments Config F : clear implicits.
Arguments ConfigFile F : clear implicits.
Arguments Namespace F : clear implicits.

End config.

(** ** src/charts/chart_builder.py *)

Module chart_builder.

(** The data series of a horizontal bar chart: the labels, the values and
    the colours of [chart_config['data'][0]].  The other entries of the
    configuration are constants; its serialization is not modelled. *)
Record Bars := {
  y : list pystr;
  x : list Z;
  marker_color : list pystr;
}.

(** A [Dict[str, int]] is the list of its items, in the order of
    insertion. *)
Definition priority_colors : list (pystr * pystr) :=
  [ (lit "P" ++ [128293%N], lit "#ef4444");
    (lit "P0", lit "#f97316");
    (lit "P1", lit "#eab308");
    (lit "P2", lit "#3b82f6") ].

(** [d.get(k, dflt)] on such a dictionary. *)
Definition dict_get {A} (d : list (pystr * A)) (k : pystr) (dflt : A) : A :=
  default dflt (snd <$> List.find (λ kv, bool_decide (kv.1 = k)) d).

Definition create_priority_chart (data : list (pystr * Z)) : Bars :=
  let labels := data.*1 in
  let values := data.*2 in
  let colors := (λ label, dict_get priority_colors label (lit "#6b7280")) <$> labels in
  {| y := labels; x := values; marker_color := colors |}.

Definition create_team_workload_chart (data : list (pystr * Z)) : Bars :=
  let labels := data.*1 in
  let values := data.*2 in
  let colors :=
    foldl (λ colors count,
             if 10 <? count then colors ++ [lit "#ef4444"]
             else if 6 <=? count then colors ++ [lit "#eab308"]
             else colors ++ [lit "#22c55e"]) [] values in
  {| y := labels; x := values; marker_color := colors |}.

End chart_builder.

(** ** src/renderers/html_renderer.py *)

Module html_renderer.
Import models.

Section WithFloat.
Context {F : Type}.

(** The loop of [HTMLRenderer.render] that fills [assignee_workload] from
    [metrics.items_by_assignee]. *)
Definition assignee_workload (items_by_assignee : gmap pystr (list (ProjectItem F)))
    : gmap pystr Z :=
  map_fold (λ assignee assignee_items assignee_workload,
              if decide (assignee = lit "MansourM") then assignee_workload
              else
                let active_count := sum_ones is_active assignee_items in
                if 0 <? active_count
                then <[assignee := active_count]> assignee_workload
                else assignee_workload) ∅ items_by_assignee.

(** [{priority: len(items_list) for priority, items_list in
    metrics.items_by_priority.items()}], and the same for the statuses:
    the items of the dictionary, in an order the properties do not depend
    on. *)
Definition counts (items_by : gmap pystr (list (ProjectItem F))) : list (pystr * Z) :=
  map_to_list (len <$> items_by).

End WithFloat.

End html_renderer.

(** ** src/main.py *)

Module main.
Import models snapshot.

Inductive renderer_class := HTMLRenderer | MarkdownRenderer | CSVRenderer | JSONRenderer.

Definition renderers : list (pystr * renderer_class) :=
  [ (lit "html", HTMLRenderer);
    (lit "md", MarkdownRenderer);
    (lit "csv", CSVRenderer);
    (lit "json", JSONRenderer) ].

(** The class of the renderer that is returned. *)
Definition get_renderer (format_type : pystr) : except renderer_class :=
  match snd <$> List.find (λ kv, bool_decide (kv.1 = format_type)) renderers with
  | Some renderer_class => Ok renderer_class
  | None => Raise ValueError
  end.

(** [sorted(files)] on paths of one directory: by name, ascending. *)
Fixpoint sorted_insert {A} (p : pystr * A) (l : list (pystr * A)) : list (pystr * A) :=
  match l with
  | [] => [p]
  | q :: l' => if str_ltb p.1 q.1 then p :: q :: l' else q :: sorted_insert p l'
  end.

Definition sorted {A} (l : list (pystr * A)) : list (pystr * A) :=
  foldl (λ acc p, sorted_insert p acc) [] l.

Section WithFloat.
Context {F : Type} `{PyFloat F}.

(** The steps of [main] that run unless [--no-snapshot] is given: the
    directory afterwards and the comparison whose numbers are printed, if
    one is made. *)
Definition track_snapshot (now : datetime) (items : list (ProjectItem F))
    (snapshots : directory F) : except (directory F * option (Comparison F)) :=
  '(snapshot_path, snapshots) ← save_snapshot now items snapshots;
  previous_items ← load_latest_snapshot snapshots;
  match previous_items with
  | Some (_ :: _) =>
      let snapshot_files :=
        sorted (filter (λ p, glob_snapshot p.1 = true) (map_to_list (default ∅ snapshots))) in
      if 1 <? len snapshot_files then
        match reverse snapshot_files !! 1%nat with
        | Some second_latest =>
            previous_items ← mapM _deserialize_item (snapshot.items second_latest.2);
            Ok (snapshots, Some (compare_snapshots items (Some previous_items)))
        | None => Ok (snapshots, None)
        end
      else Ok (snapshots, None)
  | _ => Ok (snapshots, None)
  end.

End WithFloat.

End main.

(** * Properties *)

(** ** Notions the statements use *)

(** [sum(len(group) for group in grouped.values())] *)
Definition group_sizes {I} (grouped : gmap pystr (list I)) : Z :=
  map_fold (λ _ group acc, len group + acc) 0 grouped.

Section RawRecordShapes.
Context {F : Type} `{PyFloat F}.

(** The ['priority'] key is absent, or holds a string or [None]. *)
Definition priority_is_text (r : RawItem F) : Prop :=
  match raw_priority r with
  | None | Some VNone | Some (VStr _) => True
  | _ => False
  end.

(** The ['priority'] key is absent, or holds a string or a false value
    ([None], [False], [0], [0.0], an empty list or object). *)
Definition priority_is_text_or_false (r : RawItem F) : Prop :=
  match raw_priority r with
  | None | Some (VStr _) => True
  | Some v => py_truth v = false
  end.

(** The ['content'] key is absent, or holds an object. *)
Definition content_is_object (r : RawItem F) : Prop :=
  match raw_content r with
  | None | Some (VDict _) => True
  | _ => False
  end.

End RawRecordShapes.

Section ParserNotions.
Context {F : Type} `{PyFloat F}.
Import models.

(** The two [try]/[except] blocks of [parse_item]. *)
Definition status_block (v : pyval F) : except Status :=
  try_except_ValueError (Status_call v) (Ok BACKLOG).

Definition priority_block (v : pyval F) : except Priority :=
  try_except_ValueError (Priority_call v)
    (py_and (Ok (py_truth v))
       (py_and (py_startswith v (lit "P")) ((λ n, 2 <? n) <$> py_len v))
     ≫= λ c : bool, if c then Ok FIRE else Ok P2).

End ParserNotions.

Section MetricsNotions.
Context {F : Type}.
Import models.

(** The number of groups an item is filed under by [group_by_assignee]. *)
Definition assignee_groups (item : ProjectItem F) : Z :=
  match assignees item with
  | [] => 1
  | names => len names
  end.

End MetricsNotions.

Section PipelineNotions.
Context {F : Type}.

(** The member of [models] with the name of a member of [models_v2]. *)
Definition v1_priority (p : models_v2.Priority) : models.Priority :=
  match p with
  | models_v2.FIRE => models.FIRE
  | models_v2.P0 => models.P0
  | models_v2.P1 => models.P1
  | models_v2.P2 => models.P2
  end.

Definition v1_status (s : models_v2.Status) : models.Status :=
  match s with
  | models_v2.BACKLOG => models.BACKLOG
  | models_v2.TODO => models.TODO
  | models_v2.PENDING => models.PENDING
  | models_v2.IN_PROGRESS => models.IN_PROGRESS
  | models_v2.IN_REVIEW => models.IN_REVIEW
  | models_v2.DONE => models.DONE
  end.

(** The v1 fields of a v2 item. *)
Definition v1_item (item : models_v2.ProjectItemV2 F) : models.ProjectItem F :=
  {| models.id := models_v2.id item;
     models.title := models_v2.title item;
     models.status := v1_status (models_v2.status item);
     models.priority := v1_priority (models_v2.priority item);
     models.assignees := models_v2.assignees item;
     models.estimate_hours := models_v2.estimate_hours item;
     models.labels := models_v2.labels item;
     models.url := models_v2.url item;
     models.repository := models_v2.repository item;
     models.issue_number := models_v2.issue_number item |}.

(** Equal in every scalar field. *)
Definition same_scalars {I} (m1 : models.ProjectMetrics F I)
    (m2 : models_v2.ProjectMetrics F) : Prop :=
  models.total_items m1 = models_v2.total_items m2
  ∧ models.total_estimate_hours m1 = models_v2.total_estimate_hours m2
  ∧ models.completion_percentage m1 = models_v2.completion_percentage m2
  ∧ models.planned_count m1 = models_v2.planned_count m2
  ∧ models.unplanned_count m1 = models_v2.unplanned_count m2
  ∧ models.unplanned_percentage m1 = models_v2.unplanned_percentage m2
  ∧ models.high_priority_not_started m1 = models_v2.high_priority_not_started m2
  ∧ models.active_items m1 = models_v2.active_items m2
  ∧ models.active_completion_percentage m1 = models_v2.active_completion_percentage m2
  ∧ models.pending_items m1 = models_v2.pending_items m2
  ∧ models.in_progress_items m1 = models_v2.in_progress_items m2
  ∧ models.active_unplanned_percentage m1 = models_v2.active_unplanned_percentage m2
  ∧ models.todo_items m1 = models_v2.todo_items m2
  ∧ models.done_active_items m1 = models_v2.done_active_items m2
  ∧ models.unplanned_done_percentage m1 = models_v2.unplanned_done_percentage m2
  ∧ models.unplanned_done_count m1 = models_v2.unplanned_done_count m2
  ∧ models.active_unplanned_count m1 = models_v2.active_unplanned_count m2.

(** The same keys, and under each key the v1 fields of the v2 items, in
    the same order. *)
Definition same_groups (g1 : gmap pystr (list (models.ProjectItem F)))
    (g2 : gmap pystr (list (models_v2.ProjectItemV2 F))) : Prop :=
  g1 = fmap (M := gmap pystr) (fmap v1_item) g2.

End PipelineNotions.

Section SnapshotNotions.
Context {F : Type}.
Import models snapshot.

(** The item carrying the identifier [k]; the last one when several do. *)
Definition lookup_id (items : list (ProjectItem F)) (k : pystr) : option (ProjectItem F) :=
  last (filter (λ item, id item = k) items).

(** The identifiers present in a list of items. *)
Definition ids (items : list (ProjectItem F)) : gset pystr := list_to_set (id <$> items).

(** [item] is Done and the previous item with its identifier was not. *)
Definition completed (previous : list (ProjectItem F)) (item : ProjectItem F) : bool :=
  match lookup_id previous (id item) with
  | Some prev_item =>
      negb (bool_decide (status prev_item = DONE)) && bool_decide (status item = DONE)
  | None => false
  end.

(** The entry reported for [item] when the previous item with its
    identifier had another status. *)
Definition status_change (previous : list (ProjectItem F)) (item : ProjectItem F)
    : option (StatusChange F) :=
  match lookup_id previous (id item) with
  | Some prev_item =>
      if bool_decide (status prev_item = status item) then None
      else Some {| c_id := id item;
                   c_title := title item;
                   c_from_status := Status_value (status prev_item);
                   c_to_status := Status_value (status item) |}
  | None => None
  end.

(** The identifiers present on both sides whose previous status is not
    Done and whose current status is Done. *)
Definition completed_ids (current previous : list (ProjectItem F)) : gset pystr :=
  filter (λ k, match lookup_id previous k, lookup_id current k with
               | Some p, Some c =>
                   negb (bool_decide (status p = DONE)) && bool_decide (status c = DONE)
               | _, _ => false
               end = true) (ids current ∩ ids previous).

(** The identifiers present on both sides with differing status. *)
Definition changed_ids (current previous : list (ProjectItem F)) : gset pystr :=
  filter (λ k, match lookup_id previous k, lookup_id current k with
               | Some p, Some c => negb (bool_decide (status p = status c))
               | _, _ => false
               end = true) (ids current ∩ ids previous).

(** The stored status and priority are values of members. *)
Definition legal_item (data : ItemData F) : Prop :=
  (∃ s, d_status data = VStr (Status_value s))
  ∧ (∃ p, d_priority data = VStr (Priority_value p)).

(** [item] is what [data] stores: under the ten keys of a stored item,
    [data] holds the fields of [item], the status and the priority by
    their values. *)
Definition stored_as (data : ItemData F) (item : ProjectItem F) : Prop :=
  d_id data = id item
  ∧ d_title data = title item
  ∧ d_status data = VStr (Status_value (status item))
  ∧ d_priority data = VStr (Priority_value (priority item))
  ∧ d_assignees data = assignees item
  ∧ d_estimate_hours data = estimate_hours item
  ∧ d_labels data = labels item
  ∧ d_url data = url item
  ∧ d_repository data = repository item
  ∧ d_issue_number data = issue_number item.

(** No string of the item holds a surrogate, so that its text can be
    encoded as UTF-8. *)
Definition encodable (item : ProjectItem F) : bool :=
  utf8 (id item) && py_utf8 (title item) && forallb utf8 (assignees item)
  && py_utf8 (labels item) && py_utf8 (url item) && py_utf8 (repository item)
  && py_utf8 (issue_number item).

(** Every item of the list is encodable. *)
Definition all_encodable (items : list (ProjectItem F)) : bool :=
  forallb encodable items.

End SnapshotNotions.

(** The fields of a clock reading that the file name shows lie in the
    ranges of their formats. *)
Definition in_range (t : datetime) : Prop :=
  0 ≤ year t < 10000 ∧ 0 ≤ month t < 100 ∧ 0 ≤ day t < 100
  ∧ 0 ≤ hour t < 100 ∧ 0 ≤ minute t < 100 ∧ 0 ≤ second t < 100.

(** A clock reading to the second, as one number: year, month, day, hour,
    minute, second from the most significant. *)
Definition to_the_second (t : datetime) : Z :=
  ((((year t * 100 + month t) * 100 + day t) * 100 + hour t) * 100 + minute t) * 100
  + second t.

(** The directory after a sequence of saves, each at its clock reading. *)
Definition after_saves {F} (saves : list (datetime * list (models.ProjectItem F)))
    (snapshot_dir : snapshot.directory F) : except (snapshot.directory F) :=
  foldl (λ d save, d ≫= λ d, snd <$> snapshot.save_snapshot save.1 save.2 d)
    (Ok snapshot_dir) saves.

(** ** Notions of the further properties *)

Section GroupNotions.
Context {F : Type}.
Import models.

(** A group of the three groupings: no key is kept for an empty list. *)
Definition group_of {I} (l : list I) : option (list I) :=
  match l with
  | [] => None
  | _ => Some l
  end.

(** The entries [group_by_assignee] makes for [item] under the key [k]. *)
Definition filed_under (k : pystr) (item : ProjectItem F) : list (ProjectItem F) :=
  match assignees item with
  | [] => if decide (k = lit "Unassigned") then [item] else []
  | names => (λ _, item) <$> filter (λ name, name = k) names
  end.

(** A group, possibly absent, extended by the items [l]. *)
Definition extend {I} (g : option (list I)) (l : list I) : option (list I) :=
  match g, l with
  | None, [] => None
  | _, _ => Some (default [] g ++ l)
  end.

(** The number of items with the status [st]. *)
Definition count_status (st : Status) (items : list (ProjectItem F)) : Z :=
  len (filter (λ item, status item = st) items).

(** A Fire or P0 item that is still in Backlog or Todo. *)
Definition waiting (item : ProjectItem F) : Prop :=
  (priority item = FIRE ∨ priority item = P0)
  ∧ (status item = BACKLOG ∨ status item = TODO).

(** Equal in every count and percentage; the total of the estimates, a
    sum of floats that depends on their order, is left out. *)
Definition same_numbers {I J} (m1 : ProjectMetrics F I) (m2 : ProjectMetrics F J) : Prop :=
  total_items m1 = total_items m2
  ∧ completion_percentage m1 = completion_percentage m2
  ∧ planned_count m1 = planned_count m2
  ∧ unplanned_count m1 = unplanned_count m2
  ∧ unplanned_percentage m1 = unplanned_percentage m2
  ∧ high_priority_not_started m1 = high_priority_not_started m2
  ∧ active_items m1 = active_items m2
  ∧ active_completion_percentage m1 = active_completion_percentage m2
  ∧ pending_items m1 = pending_items m2
  ∧ in_progress_items m1 = in_progress_items m2
  ∧ active_unplanned_percentage m1 = active_unplanned_percentage m2
  ∧ todo_items m1 = todo_items m2
  ∧ done_active_items m1 = done_active_items m2
  ∧ unplanned_done_percentage m1 = unplanned_done_percentage m2
  ∧ unplanned_done_count m1 = unplanned_done_count m2
  ∧ active_unplanned_count m1 = active_unplanned_count m2.

(** The same keys, and under each key the same items up to their order. *)
Definition same_groups_up_to_order {I} (g1 g2 : gmap pystr (list I)) : Prop :=
  ∀ k, option_Forall2 (≡ₚ) (g1 !! k) (g2 !! k).

End GroupNotions.


(** A clock reading with a year of four digits and the other fields in
    the ranges of the calendar and the clock. *)
Definition calendar (t : datetime) : Prop :=
  1000 ≤ year t ≤ 9999 ∧ 1 ≤ month t ≤ 12 ∧ 1 ≤ day t ≤ 31
  ∧ 0 ≤ hour t ≤ 23 ∧ 0 ≤ minute t ≤ 59 ∧ 0 ≤ second t ≤ 59.

(** The six fields the file name shows. *)
Definition shown (t : datetime) : list Z :=
  [year t; month t; day t; hour t; minute t; second t].


Section ConfigNotions.
Context {F : Type} `{PyFloat F} `{PyFloatOrd F}.
Import config.

(** A string with a character that is not white space. *)
Definition has_text (v : pyval F) : Prop :=
  ∃ s c, v = VStr s ∧ c ∈ s ∧ isspace c = false.

(** A number that is not [<= 0]: a positive [int], [True], or a float
    for which the comparison fails. *)
Definition is_positive (v : pyval F) : Prop :=
  match v with
  | VInt z => 0 < z
  | VBool b => b = true
  | VFloat x => f_le_zero x = false
  | _ => False
  end.

(** One of the four formats. *)
Definition is_format (v : pyval F) : Prop :=
  ∃ s, v = VStr s ∧ s ∈ valid_formats.

(** The fields have the types the dataclass declares. *)
Definition well_typed (self : Config F) : Prop :=
  (∃ s, owner self = VStr s) ∧ (∃ z, project_number self = VInt z)
  ∧ (∃ s, default_format self = VStr s) ∧ (∃ s, output_directory self = VStr s).

(** The four messages of [validate]. *)
Definition messages : list pystr :=
  [ lit "owner cannot be empty";
    lit "project_number must be positive";
    lit "format must be one of: html, md, csv, json";
    lit "output_directory cannot be empty" ].

(** The entry of a JSON object under [k], or [dflt]. *)
Definition entry (d : list (pystr * pyval F)) (k : string) (dflt : pyval F) : pyval F :=
  default dflt (assoc (lit k) d).

End ConfigNotions.

(** The name of the first file is smaller than the name of the second. *)
Definition name_lt {A} (p q : pystr * A) : Prop := str_ltb p.1 q.1 = true.

(** The colour code of a workload tier. *)
Definition hex (c : processor.color) : pystr :=
  match c with
  | processor.red => lit "#ef4444"
  | processor.yellow => lit "#eab308"
  | processor.green => lit "#22c55e"
  end.

(** ** Sample data *)

Module samples.
Import models snapshot.

Definition item (ident : string) (st : Status) (pr : Priority) (who : list string)
    : ProjectItem float :=
  {| id := lit ident;
     title := VStr (lit "Item " ++ lit ident);
     status := st;
     priority := pr;
     assignees := lit <$> who;
     estimate_hours := None;
     labels := VList [];
     url := VStr (lit "");
     repository := VStr (lit "");
     issue_number := VNone |}.

(** A raw record with the given ['priority'] and ['content'] entries. *)
Definition raw (priority content : option (pyval float)) : RawItem float :=
  {| raw_id := Some (lit "PVTI_1");
     raw_title := Some (VStr (lit "Task"));
     raw_status := Some (VStr (lit "Todo"));
     raw_priority := priority;
     raw_assignees := Some [lit "user1"];
     raw_estimate := Some (Some 5%float);
     raw_labels := Some (VList [VStr (lit "bug")]);
     raw_content := content;
     raw_project_created_at := None;
     raw_project_updated_at := None;
     raw_issue_created_at := None;
     raw_issue_updated_at := None;
     raw_issue_closed_at := None |}.

(** "P" followed by U+2261, U+0627, U+00A4, U+062D: a Fire value as older
    clients garbled it. *)
Definition corrupted_fire : pystr := [80; 8801; 1575; 164; 1581]%N.

Definition raw_corrupted : RawItem float := raw (Some (VStr corrupted_fire)) None.

(** A record whose priority is the number 5, and one whose content is
    [null]. *)
Definition raw_numeric_priority : RawItem float := raw (Some (VInt 5)) None.
Definition raw_null_content : RawItem float := raw (Some (VStr (lit "P1"))) (Some VNone).

(** A record whose status is the number 5. *)
Definition raw_numeric_status : RawItem float :=
  {| raw_id := Some (lit "PVTI_1");
     raw_title := Some (VStr (lit "Task"));
     raw_status := Some (VInt 5);
     raw_priority := Some (VStr (lit "P1"));
     raw_assignees := Some [lit "user1"];
     raw_estimate := Some (Some 5%float);
     raw_labels := Some (VList [VStr (lit "bug")]);
     raw_content := None;
     raw_project_created_at := None;
     raw_project_updated_at := None;
     raw_issue_created_at := None;
     raw_issue_updated_at := None;
     raw_issue_closed_at := None |}.

(** Three items with priorities Fire, P1, P1 and statuses Todo,
    In Progress, Done. *)
Definition three_items : list (ProjectItem float) :=
  [ item "1" TODO FIRE ["user1"];
    item "2" IN_PROGRESS P1 ["user2"; "user1"];
    item "3" DONE P1 [] ].

(** Two snapshots of two items that both went to Done. *)
Definition previous_two : list (ProjectItem float) :=
  [ item "1" IN_PROGRESS P1 []; item "2" TODO P1 [] ].
Definition current_two : list (ProjectItem float) :=
  [ item "1" DONE P1 []; item "2" DONE P1 [] ].

(** A current list naming item "1" twice and a new item "9" twice. *)
Definition current_duplicated : list (ProjectItem float) :=
  [ item "1" DONE P1 []; item "1" DONE P1 []; item "9" TODO P2 []; item "9" TODO P2 [] ].

(** The clock at 01:10:00 on 26 October 2025, and a directory that holds a
    snapshot named for 01:30:00 of that day. *)
Definition at_0110 : datetime :=
  {| year := 2025; month := 10; day := 26; hour := 1; minute := 10; second := 0;
     microsecond := 0 |}.
Definition at_0130 : datetime :=
  {| year := 2025; month := 10; day := 26; hour := 1; minute := 30; second := 0;
     microsecond := 0 |}.
Definition at_0050 : datetime :=
  {| year := 2025; month := 10; day := 26; hour := 0; minute := 50; second := 0;
     microsecond := 0 |}.

(** The directory a sequence of saves leaves, starting with none. *)
Definition dir_after (saves : list (datetime * list (ProjectItem float)))
    : directory float :=
  match after_saves saves None with
  | Ok snapshot_dir => snapshot_dir
  | Raise _ => None
  end.

Definition dir_with (t : datetime) (items : list (ProjectItem float)) : directory float :=
  dir_after [(t, items)].

(** An item whose title ends in the lone surrogate U+D800. *)
Definition lone_surrogate : ProjectItem float :=
  {| id := lit "4";
     title := VStr (lit "Caf" ++ [55296%N]);
     status := TODO;
     priority := P1;
     assignees := [];
     estimate_hours := None;
     labels := VList [];
     url := VStr (lit "");
     repository := VStr (lit "");
     issue_number := VNone |}.

Definition files_0130 : gmap pystr (SnapshotData float) :=
  default ∅ (dir_with at_0130 current_two).

(** A v2 item created at the given time. *)
Definition dated (ident : string) (created : pyval float) : models_v2.ProjectItemV2 float :=
  {| models_v2.id := lit ident;
     models_v2.title := VStr (lit "Item " ++ lit ident);
     models_v2.status := models_v2.TODO;
     models_v2.priority := models_v2.P1;
     models_v2.assignees := [];
     models_v2.estimate_hours := None;
     models_v2.labels := VList [];
     models_v2.url := VStr (lit "");
     models_v2.repository := VStr (lit "");
     models_v2.issue_number := VNone;
     models_v2.project_created_at := VNone;
     models_v2.project_updated_at := VNone;
     models_v2.issue_created_at := created;
     models_v2.issue_updated_at := VNone;
     models_v2.issue_closed_at := VNone |}.

(** Items created on 10 January, on 31 January at 10:00, at no known
    time, and on 2 February 2025. *)
Definition dated_items : list (models_v2.ProjectItemV2 float) :=
  [ dated "1" (VStr (lit "2025-01-10T09:00:00Z"));
    dated "2" (VStr (lit "2025-01-31T10:00:00Z"));
    dated "3" VNone;
    dated "4" (VStr (lit "2025-02-02T00:00:00Z")) ].

(** A directory with the snapshots of 00:50 and 01:10 and a file of
    notes. *)
Definition two_snapshots : directory float :=
  dir_after [(at_0050, previous_two); (at_0110, current_two)].

Definition notes : SnapshotData float := {| timestamp := []; items := [] |}.

(** A configuration with a blank owner, and the one the command line
    [--owner MyOrg --project 5 --format md] gives. *)
Definition blank_owner : config.Config float :=
  {| config.owner := VStr (lit "   ");
     config.project_number := VInt 2;
     config.default_format := VStr (lit "html");
     config.output_directory := VStr (lit "reports") |}.

Definition my_org : config.Config float :=
  {| config.owner := VStr (lit "MyOrg");
     config.project_number := VInt 5;
     config.default_format := VStr (lit "md");
     config.output_directory := VStr (lit "reports") |}.

End samples.

(** ** Float builtins of the binary64 instance *)

Example round1_third :
  Binary64.round1 (PrimFloat.mul (Binary64.truediv 1 3) 100) = 33.3%float.
Proof. vm_compute. reflexivity. Qed.

Example round1_tie_even : Binary64.round1 12.25%float = 12.2%float.
Proof. vm_compute. reflexivity. Qed.

(** ** Workload colour *)

(** C9.  For every non-negative count, [get_workload_color] is red exactly
    when the count exceeds 10, yellow exactly when it lies in 6..10 (both
    ends included), and green exactly when it is below 6. *)
Theorem get_workload_color_tiers (count : Z) :
  0 ≤ count →
  (processor.get_workload_color count = processor.red ↔ 10 < count)
  ∧ (processor.get_workload_color count = processor.yellow ↔ 6 ≤ count ≤ 10)
  ∧ (processor.get_workload_color count = processor.green ↔ count < 6).
Proof.
  intros _. unfold processor.get_workload_color.
  destruct (Z.ltb_spec 10 count), (Z.leb_spec 6 count);
    repeat split; intros; (discriminate || lia || reflexivity).
Qed.

(** The two ends of the middle tier. *)
Lemma get_workload_color_tiers_witness :
  processor.get_workload_color 6 = processor.yellow
  ∧ processor.get_workload_color 10 = processor.yellow.
Proof.
  split.
  - apply (get_workload_color_tiers 6); lia.
  - apply (get_workload_color_tiers 10); lia.
Defined.

(** ** Item parser *)

Section ParserProperties.
Context {F : Type} `{PyFloat F}.
Import models processor.


Lemma status_block_total (v : pyval F) : ∃ st, status_block v = Ok st.
Proof.
  unfold status_block, Status_call.
  destruct v; simpl; eauto.
  case_match; simpl; eauto.
Qed.

Lemma Priority_call_member p : Priority_call (F := F) (VStr (Priority_value p)) = Ok p.
Proof. by destruct p. Qed.

Lemma Priority_call_no_member s :
  (∀ p, Priority_value p ≠ s) → Priority_call (F := F) (VStr s) = Raise ValueError.
Proof.
  intros Hno. unfold Priority_call.
  destruct (List.find _ _) as [p|] eqn:Hfind; [|done].
  apply List.find_some in Hfind as [_ Hp].
  apply bool_decide_eq_true in Hp. by destruct (Hno p).
Qed.

Lemma Priority_call_not_str (v : pyval F) :
  (∀ s, v ≠ VStr s) → Priority_call v = Raise ValueError.
Proof. intros Hv. destruct v; try done. by destruct (Hv s). Qed.

Lemma priority_block_member p : priority_block (VStr (Priority_value p)) = Ok p.
Proof. unfold priority_block. by rewrite Priority_call_member. Qed.

Lemma priority_block_no_member s :
  (∀ p, Priority_value p ≠ s) →
  priority_block (VStr s)
  = Ok (if bool_decide (s ≠ []) && startswith s (lit "P") && (2 <? len s)
        then FIRE else P2).
Proof.
  intros Hno. unfold priority_block. rewrite Priority_call_no_member by done.
  simpl. repeat case_bool_decide; try done; simpl.
  destruct (startswith s (lit "P")); simpl; [|done].
  by destruct (2 <? len s).
Qed.

Lemma priority_block_not_str (v : pyval F) p :
  (∀ s, v ≠ VStr s) → priority_block v = Ok p → p = P2.
Proof.
  intros Hv. unfold priority_block. rewrite Priority_call_not_str by done.
  destruct v; simpl; try congruence.
  - destruct b; simpl; congruence.
  - destruct (z =? 0); simpl; congruence.
  - destruct (f_nonzero x); simpl; congruence.
  - by destruct (Hv s).
  - destruct l; simpl; congruence.
  - destruct d; simpl; congruence.
Qed.

Lemma priority_block_false (v : pyval F) :
  (∀ s, v ≠ VStr s) → py_truth v = false → priority_block v = Ok P2.
Proof.
  intros Hv Hf. unfold priority_block. rewrite Priority_call_not_str by done.
  simpl. by rewrite Hf.
Qed.

Lemma priority_block_true_not_str (v : pyval F) :
  (∀ s, v ≠ VStr s) → py_truth v = true → priority_block v = Raise AttributeError.
Proof.
  intros Hv Ht. unfold priority_block. rewrite Priority_call_not_str by done.
  simpl. rewrite Ht. destruct v; try done. by destruct (Hv s).
Qed.

Lemma priority_block_str_total s : ∃ p, priority_block (VStr s) = Ok p.
Proof.
  destruct (List.find (λ p, bool_decide (Priority_value p = s)) Priority_members)
    as [p|] eqn:Hfind.
  - apply List.find_some in Hfind as [_ Hp]. apply bool_decide_eq_true in Hp.
    subst s. eauto using priority_block_member.
  - rewrite priority_block_no_member; [eauto|].
    intros p Hp. eapply List.find_none in Hfind.
    + by rewrite bool_decide_eq_true_2 in Hfind.
    + destruct p; simpl; tauto.
Qed.

(** [parse_item] returns exactly when its priority block and the three
    reads of [content] do. *)
Lemma parse_item_Ok r item :
  parse_item r = Ok item ↔
  ∃ st p d,
    status_block (get (raw_status r) (VStr (lit "Backlog"))) = Ok st
    ∧ priority_block (get (raw_priority r) (VStr (lit "P2"))) = Ok p
    ∧ get (raw_content r) (VDict []) = VDict d
    ∧ item = {| id := get (raw_id r) (lit "");
                title := get (raw_title r) (VStr (lit ""));
                status := st;
                priority := p;
                assignees := get (raw_assignees r) [];
                estimate_hours := get (raw_estimate r) None;
                labels := get (raw_labels r) (VList []);
                url := default (VStr (lit "")) (assoc (lit "url") d);
                repository := default (VStr (lit "")) (assoc (lit "repository") d);
                issue_number := default VNone (assoc (lit "number") d) |}.
Proof.
  unfold parse_item. fold (status_block (get (raw_status r) (VStr (lit "Backlog")))).
  fold (priority_block (get (raw_priority r) (VStr (lit "P2")))).
  destruct (status_block_total (get (raw_status r) (VStr (lit "Backlog")))) as [st ->].
  simpl.
  destruct (priority_block _) as [p|e]; simpl.
  - destruct (get (raw_content r) (VDict [])) eqn:Hc; simpl; split;
      try discriminate; try (intros (?&?&?&?&?&?&?); discriminate).
    + intros [= <-]. by eexists _, _, _.
    + intros (st'&p'&d'&[= <-]&[= <-]&[= <-]&->). done.
  - split; [done|]. intros (?&?&?&?&?&?); discriminate.
Qed.

(** The priority of the items that [parse_item] returns: a ['priority']
    value equal to the value of a member yields that member; a string
    matching no member yields Fire when it is non-empty, starts with "P"
    and is longer than 2 characters, and P2 otherwise (so for the empty
    string); a missing key, [None] and every other value that is not a
    string yield P2.  And [parse_item] does return an item when
    ['priority'] is missing, [None] or a string and ['content'] is missing
    or an object. *)
Lemma parse_item_priority (r : RawItem F) :
  (∀ item, parse_item r = Ok item →
     (∀ p, raw_priority r = Some (VStr (Priority_value p)) → priority item = p)
     ∧ (∀ s, raw_priority r = Some (VStr s) → (∀ p, Priority_value p ≠ s) →
          priority item =
            if bool_decide (s ≠ []) && startswith s (lit "P") && (2 <? len s)
            then FIRE else P2)
     ∧ ((∀ s, raw_priority r ≠ Some (VStr s)) → priority item = P2))
  ∧ (priority_is_text r → content_is_object r → ∃ item, parse_item r = Ok item).
Proof.
  split.
  - intros item (st&p&d&_&Hp&_&->)%parse_item_Ok. simpl. repeat split.
    + intros q Hq. rewrite Hq in Hp. simpl in Hp.
      rewrite priority_block_member in Hp. congruence.
    + intros s Hs Hno. rewrite Hs in Hp. simpl in Hp.
      rewrite priority_block_no_member in Hp by done. congruence.
    + intros Hns. destruct (raw_priority r) as [v|] eqn:Hv; simpl in Hp.
      * eapply priority_block_not_str; [|done]. intros s ->. by destruct (Hns s).
      * change (priority_block (VStr (Priority_value P2)) = Ok p) in Hp.
        rewrite priority_block_member in Hp. congruence.
  - unfold priority_is_text, content_is_object. intros Hp Hc.
    destruct (status_block_total (get (raw_status r) (VStr (lit "Backlog")))) as [st Hst].
    assert (∃ p, priority_block (get (raw_priority r) (VStr (lit "P2"))) = Ok p)
      as [p Hpb].
    { destruct (raw_priority r) as [[]|]; simpl; try done;
        eauto using priority_block_str_total, priority_block_false. }
    assert (∃ d, get (raw_content r) (VDict []) = VDict d) as [d Hd].
    { destruct (raw_content r) as [[]|]; simpl; try done; eauto. }
    eexists. apply parse_item_Ok. by eexists st, p, d.
Qed.

(** The records on which [parse_item] returns an item: those whose
    ['priority'] is missing, a string or a false value, and whose
    ['content'] is missing or an object.  On every other record it raises
    [AttributeError]. *)
Lemma parse_item_returns_iff (r : RawItem F) :
  ((∃ item, parse_item r = Ok item)
   ↔ priority_is_text_or_false r ∧ content_is_object r)
  ∧ (¬ (priority_is_text_or_false r ∧ content_is_object r) →
       parse_item r = Raise AttributeError).
Proof.
  assert (Hdec : (priority_is_text_or_false r ∧ content_is_object r)
                 ∨ parse_item r = Raise AttributeError).
  { unfold priority_is_text_or_false, content_is_object, parse_item.
    fold (priority_block (get (raw_priority r) (VStr (lit "P2")))).
    destruct (status_block_total (get (raw_status r) (VStr (lit "Backlog"))))
      as [st Hst]. unfold status_block in Hst. rewrite Hst. simpl.
    destruct (raw_priority r) as [v|]; simpl.
    - destruct (py_truth v) eqn:Ht.
      + destruct v; try (right; by rewrite priority_block_true_not_str).
        destruct (priority_block_str_total s) as [p ->]. simpl.
        destruct (raw_content r) as [[]|]; simpl; auto.
      + destruct v; try (rewrite priority_block_false by done; simpl;
          destruct (raw_content r) as [[]|]; simpl; by auto).
        destruct (priority_block_str_total s) as [p ->]. simpl.
        destruct (raw_content r) as [[]|]; simpl; auto.
    - destruct (raw_content r) as [[]|]; simpl; auto. }
  split; [split|].
  - intros [item Hitem]. destruct Hdec as [[]|Hr]; [done|congruence].
  - intros [Hp Hc]. unfold priority_is_text_or_false, content_is_object in *.
    destruct (status_block_total (get (raw_status r) (VStr (lit "Backlog")))) as [st Hst].
    assert (∃ p, priority_block (get (raw_priority r) (VStr (lit "P2"))) = Ok p)
      as [p Hpb].
    { destruct (raw_priority r) as [v|]; simpl.
      - destruct v; try (exists P2; by apply priority_block_false).
        apply priority_block_str_total.
      - apply priority_block_str_total. }
    assert (∃ d, get (raw_content r) (VDict []) = VDict d) as [d Hd].
    { destruct (raw_content r) as [[]|]; simpl; try done; eauto. }
    eexists. apply parse_item_Ok. by eexists st, p, d.
  - intros Hn. by destruct Hdec.
Qed.

End ParserProperties.

(** ** Counting and grouping *)

Section Counting.
Context {A : Type}.

Lemma len_cons (x : A) l : len (x :: l) = len l + 1.
Proof. unfold len. simpl. lia. Qed.

Lemma len_app (l k : list A) : len (l ++ k) = len l + len k.
Proof. unfold len. rewrite length_app. lia. Qed.

Lemma len_nonneg (l : list A) : 0 ≤ len l.
Proof. unfold len. lia. Qed.

Lemma sum_ones_from (cond : A → bool) (items : list A) (n : Z) :
  foldl (λ acc item, if cond item then acc + 1 else acc) n items
  = n + len (filter (λ item, cond item = true) items).
Proof.
  revert n. induction items as [|x items IH]; intros n; simpl.
  - unfold len. simpl. lia.
  - rewrite IH, filter_cons. destruct (cond x) eqn:Hx.
    + rewrite decide_True by done. rewrite len_cons. lia.
    + rewrite decide_False by congruence. done.
Qed.

(** The generator sum counts the items that satisfy the condition. *)
Lemma sum_ones_filter (cond : A → bool) (items : list A) :
  sum_ones cond items = len (filter (λ item, cond item = true) items).
Proof. unfold sum_ones. rewrite sum_ones_from. lia. Qed.

Lemma sum_ones_bounds (cond : A → bool) (items : list A) :
  0 ≤ sum_ones cond items ≤ len items.
Proof.
  rewrite sum_ones_filter. unfold len.
  pose proof (length_filter (λ item, cond item = true) items). lia.
Qed.

Lemma sum_ones_ext (c1 c2 : A → bool) (items : list A) :
  (∀ x, c1 x = c2 x) → sum_ones c1 items = sum_ones c2 items.
Proof.
  intros Hc. unfold sum_ones. generalize 0.
  induction items as [|x items IH]; intros n; simpl; [done|].
  by rewrite Hc, IH.
Qed.

End Counting.

Section Grouping.
Context {I : Type}.
Implicit Types (grouped : gmap pystr (list I)) (k : pystr) (item : I).

Lemma append_to_insert grouped k item :
  append_to grouped k item = <[k := default [] (grouped !! k) ++ [item]]> grouped.
Proof.
  unfold append_to. apply map_eq. intros j.
  destruct (decide (j = k)) as [->|Hne].
  - rewrite lookup_alter_eq, lookup_insert_eq.
    destruct (grouped !! k) as [l|] eqn:Hk; simpl.
    + by rewrite Hk.
    + by rewrite lookup_insert_eq.
  - rewrite lookup_alter_ne, lookup_insert_ne by done.
    destruct (grouped !! k); [done|]. by rewrite lookup_insert_ne.
Qed.

Lemma group_sizes_empty : group_sizes (∅ : gmap pystr (list I)) = 0.
Proof. unfold group_sizes. by rewrite map_fold_empty. Qed.

Lemma group_sizes_insert_fresh grouped k l :
  grouped !! k = None → group_sizes (<[k := l]> grouped) = len l + group_sizes grouped.
Proof.
  intros Hk. unfold group_sizes. rewrite map_fold_insert_L; [done| |done].
  intros. lia.
Qed.

Lemma group_sizes_delete grouped k l :
  grouped !! k = Some l → group_sizes grouped = len l + group_sizes (delete k grouped).
Proof.
  intros Hk. unfold group_sizes. rewrite (map_fold_delete_L _ _ k l); [done| |done].
  intros. lia.
Qed.

(** Appending one item to one group adds one to the sum of the sizes. *)
Lemma group_sizes_append_to grouped k item :
  group_sizes (append_to grouped k item) = group_sizes grouped + 1.
Proof.
  rewrite append_to_insert. destruct (grouped !! k) as [l|] eqn:Hk; simpl.
  - rewrite <- insert_delete_eq.
    rewrite group_sizes_insert_fresh by apply lookup_delete_eq.
    rewrite (group_sizes_delete grouped k l) by done.
    rewrite len_app. unfold len. simpl. lia.
  - rewrite group_sizes_insert_fresh by done. unfold len. simpl. lia.
Qed.

Lemma group_sizes_single_valued (key : I → pystr) items grouped :
  group_sizes (foldl (λ grouped item, append_to grouped (key item) item) grouped items)
  = group_sizes grouped + len items.
Proof.
  revert grouped. induction items as [|x items IH]; intros grouped; simpl.
  - unfold len. simpl. lia.
  - rewrite IH, group_sizes_append_to, len_cons. lia.
Qed.

Lemma group_sizes_names (names : list pystr) item grouped :
  group_sizes (foldl (λ grouped name, append_to grouped name item) grouped names)
  = group_sizes grouped + len names.
Proof.
  revert grouped. induction names as [|x names IH]; intros grouped; simpl.
  - unfold len. simpl. lia.
  - rewrite IH, group_sizes_append_to, len_cons. lia.
Qed.

End Grouping.

(** ** Metrics engine *)

Section MetricsProperties.
Context {F : Type} `{PyFloat F}.
Import models processor.


Lemma group_by_assignee_sizes_from (items : list (ProjectItem F)) grouped :
  group_sizes
    (foldl (λ grouped item,
              match assignees item with
              | [] => append_to grouped (lit "Unassigned") item
              | _ => foldl (λ grouped assignee, append_to grouped assignee item)
                       grouped (assignees item)
              end) grouped items)
  = group_sizes grouped + foldr (λ item n, assignee_groups item + n) 0 items.
Proof.
  revert grouped. induction items as [|x items IH]; intros grouped; simpl; [lia|].
  rewrite IH. unfold assignee_groups at 2.
  destruct (assignees x) as [|a names] eqn:Hx.
  - rewrite group_sizes_append_to. lia.
  - rewrite group_sizes_names. lia.
Qed.

Lemma assignee_groups_total (items : list (ProjectItem F)) :
  len items ≤ foldr (λ item n, assignee_groups item + n) 0 items.
Proof.
  induction items as [|x items IH]; simpl; [done|].
  rewrite len_cons. unfold assignee_groups at 1.
  destruct (assignees x) as [|a names]; [lia|].
  rewrite len_cons. pose proof (len_nonneg names). lia.
Qed.

Lemma assignee_groups_single (items : list (ProjectItem F)) :
  Forall (λ item, (length (assignees item) ≤ 1)%nat) items →
  foldr (λ item n, assignee_groups item + n) 0 items = len items.
Proof.
  induction 1 as [|x items Hx _ IH]; simpl; [done|].
  rewrite len_cons, IH. unfold assignee_groups.
  destruct (assignees x) as [|a [|b names]]; simpl in *; try lia.
  unfold len. simpl. lia.
Qed.

(** C2.  For a non-empty list of items: the total is the number of items;
    planned and unplanned counts add up to the total, neither being
    negative; the sizes of the groups by status add up to the total, and so
    do those by priority; the sizes of the groups by assignee add up to at
    least the total, and to exactly the total when no item has more than
    one assignee. *)
Theorem calculate_metrics_sums (items : list (ProjectItem F)) :
  items ≠ [] →
  let m := calculate_metrics items in
  total_items m = len items
  ∧ planned_count m + unplanned_count m = total_items m
  ∧ 0 ≤ planned_count m ∧ 0 ≤ unplanned_count m
  ∧ group_sizes (items_by_status m) = total_items m
  ∧ group_sizes (items_by_priority m) = total_items m
  ∧ total_items m ≤ group_sizes (items_by_assignee m)
  ∧ (Forall (λ item, (length (assignees item) ≤ 1)%nat) items →
     group_sizes (items_by_assignee m) = total_items m).
Proof.
  intros Hne. destruct items as [|x items]; [done|].
  set (l := x :: items). unfold calculate_metrics. fold l.
  destruct (calculate_unplanned_done_stats l) as [pct n]. cbn zeta. simpl.
  pose proof (sum_ones_bounds (λ item, negb (is_planned item)) l) as Hb.
  repeat split.
  - lia.
  - lia.
  - lia.
  - unfold group_by_status.
    rewrite group_sizes_single_valued, group_sizes_empty. lia.
  - unfold group_by_priority.
    rewrite group_sizes_single_valued, group_sizes_empty. lia.
  - unfold group_by_assignee.
    rewrite group_by_assignee_sizes_from, group_sizes_empty.
    pose proof (assignee_groups_total l). lia.
  - intros Hone. unfold group_by_assignee.
    rewrite group_by_assignee_sizes_from, group_sizes_empty.
    rewrite assignee_groups_single by done. lia.
Qed.

(** C7.  On the empty list every count is 0, every percentage and the
    total of the estimates is 0.0, and the three groupings are empty. *)
Theorem calculate_metrics_empty :
  let m := calculate_metrics (F := F) [] in
  total_items m = 0
  ∧ total_estimate_hours m = NFloat f_lit0
  ∧ completion_percentage m = f_lit0
  ∧ planned_count m = 0
  ∧ unplanned_count m = 0
  ∧ unplanned_percentage m = f_lit0
  ∧ high_priority_not_started m = 0
  ∧ active_items m = 0
  ∧ active_completion_percentage m = f_lit0
  ∧ pending_items m = 0
  ∧ in_progress_items m = 0
  ∧ active_unplanned_percentage m = f_lit0
  ∧ active_unplanned_count m = 0
  ∧ todo_items m = 0
  ∧ done_active_items m = 0
  ∧ unplanned_done_percentage m = f_lit0
  ∧ unplanned_done_count m = 0
  ∧ items_by_status m = ∅
  ∧ items_by_priority m = ∅
  ∧ items_by_assignee m = ∅.
Proof. simpl. repeat split. Qed.

End MetricsProperties.

(** ** The two pipelines *)

Section Pipelines.
Context {F : Type} `{PyFloat F}.


Lemma Status_value_v1 s : models.Status_value (v1_status s) = models_v2.Status_value s.
Proof. by destruct s. Qed.

Lemma Priority_value_v1 p : models.Priority_value (v1_priority p) = models_v2.Priority_value p.
Proof. by destruct p. Qed.

Lemma Status_call_v1 (v : pyval F) :
  models.Status_call v = v1_status <$> models_v2.Status_call v.
Proof.
  destruct v; try done.
  unfold models.Status_call, models_v2.Status_call. simpl.
  repeat (case_bool_decide; [done|]). done.
Qed.

Lemma Priority_call_v1 (v : pyval F) :
  models.Priority_call v = v1_priority <$> models_v2.Priority_call v.
Proof.
  destruct v; try done.
  unfold models.Priority_call, models_v2.Priority_call. simpl.
  repeat (case_bool_decide; [done|]). done.
Qed.

Lemma try_except_ValueError_fmap {A B} (f : A → B) (c h : except A) :
  try_except_ValueError (f <$> c) (f <$> h) = f <$> try_except_ValueError c h.
Proof. by destruct c as [|[]]. Qed.

Lemma recover_v1 (cond : except bool) :
  (cond ≫= λ c : bool, if c then Ok models.FIRE else Ok models.P2)
  = v1_priority <$> (cond ≫= λ c : bool, if c then Ok models_v2.FIRE else Ok models_v2.P2).
Proof. by destruct cond as [[]|]. Qed.

Lemma parse_item_v1 (r : RawItem F) :
  processor.parse_item r = v1_item <$> processor_v2.parse_item_v2 r.
Proof.
  unfold processor.parse_item, processor_v2.parse_item_v2.
  rewrite Status_call_v1, Priority_call_v1, recover_v1.
  change (Ok models.BACKLOG) with (v1_status <$> Ok models_v2.BACKLOG).
  rewrite !try_except_ValueError_fmap.
  destruct (try_except_ValueError (models_v2.Status_call _) _) as [st|]; simpl; [|done].
  destruct (try_except_ValueError (models_v2.Priority_call _) _) as [p|]; simpl; [|done].
  by destruct (get (raw_content r) (VDict [])).
Qed.

Lemma parse_items_v1 (raws : list (RawItem F)) :
  processor.parse_items raws
  = fmap (M := except) (fmap (M := list) v1_item) (processor_v2.parse_items_v2 raws).
Proof.
  unfold processor.parse_items, processor_v2.parse_items_v2.
  induction raws as [|r raws IH]; simpl; [done|].
  rewrite parse_item_v1, IH.
  destruct (processor_v2.parse_item_v2 r); simpl; [|done].
  destruct (mapM processor_v2.parse_item_v2 raws); reflexivity.
Qed.

Lemma sum_ones_fmap {A B} (f : A → B) (cond : B → bool) (l : list A) :
  sum_ones cond (f <$> l) = sum_ones (λ x, cond (f x)) l.
Proof.
  unfold sum_ones. generalize 0.
  induction l as [|x l IH]; intros n; simpl; [done|]. by rewrite IH.
Qed.

Lemma filter_fmap_pred {A B} (f : A → B) (P : B → Prop) (Q : A → Prop)
    `{∀ y, Decision (P y)} `{∀ x, Decision (Q x)} (l : list A) :
  (∀ x, P (f x) ↔ Q x) → filter P (f <$> l) = f <$> filter Q l.
Proof.
  intros HPQ. induction l as [|x l IH]; [done|].
  rewrite fmap_cons, !filter_cons, IH.
  destruct (decide (P (f x))) as [HP|HP], (decide (Q x)) as [HQ|HQ];
    try done; by apply HPQ in HP || apply HPQ in HQ.
Qed.

Lemma append_to_fmap {A B} (f : A → B) (grouped : gmap pystr (list A)) k x :
  fmap (M := gmap pystr) (fmap f) (append_to grouped k x)
  = append_to (fmap (M := gmap pystr) (fmap f) grouped) k (f x).
Proof.
  rewrite !append_to_insert, fmap_insert, lookup_fmap.
  destruct (grouped !! k); simpl; [|done]. by rewrite fmap_app.
Qed.

(** The loop of [calculate_metrics_v2] builds the three dictionaries that
    three separate loops build. *)
Lemma group_step_split (items : list (models_v2.ProjectItemV2 F)) a b c :
  foldl processor_v2.group_step (a, b, c) items
  = (foldl (λ g item,
              append_to g (models_v2.Status_value (models_v2.status item)) item) a items,
     foldl (λ g item,
              append_to g (models_v2.Priority_value (models_v2.priority item)) item) b items,
     foldl (λ g item,
              match models_v2.assignees item with
              | [] => append_to g (lit "Unassigned") item
              | _ => foldl (λ g assignee, append_to g assignee item)
                       g (models_v2.assignees item)
              end) c items).
Proof.
  revert a b c. induction items as [|x items IH]; intros a b c; [done|].
  simpl. by rewrite IH.
Qed.

Lemma group_single_v1 (key1 : models.ProjectItem F → pystr)
    (key2 : models_v2.ProjectItemV2 F → pystr) items g :
  (∀ item, key1 (v1_item item) = key2 item) →
  foldl (λ g item, append_to g (key1 item) item)
    (fmap (M := gmap pystr) (fmap v1_item) g) (v1_item <$> items)
  = fmap (M := gmap pystr) (fmap v1_item)
      (foldl (λ g item, append_to g (key2 item) item) g items).
Proof.
  intros Hkey. revert g. induction items as [|x items IH]; intros g; [done|].
  simpl. by rewrite Hkey, <- append_to_fmap, IH.
Qed.

Lemma group_names_v1 (names : list pystr) (item : models_v2.ProjectItemV2 F) g :
  foldl (λ g assignee, append_to g assignee (v1_item item))
    (fmap (M := gmap pystr) (fmap v1_item) g) names
  = fmap (M := gmap pystr) (fmap v1_item)
      (foldl (λ g assignee, append_to g assignee item) g names).
Proof.
  revert g. induction names as [|a names IH]; intros g; [done|].
  simpl. by rewrite <- append_to_fmap, IH.
Qed.

Lemma group_assignee_v1 (items : list (models_v2.ProjectItemV2 F)) g :
  foldl (λ g item,
           match models.assignees item with
           | [] => append_to g (lit "Unassigned") item
           | _ => foldl (λ g assignee, append_to g assignee item)
                    g (models.assignees item)
           end) (fmap (M := gmap pystr) (fmap v1_item) g) (v1_item <$> items)
  = fmap (M := gmap pystr) (fmap v1_item)
      (foldl (λ g item,
                match models_v2.assignees item with
                | [] => append_to g (lit "Unassigned") item
                | _ => foldl (λ g assignee, append_to g assignee item)
                         g (models_v2.assignees item)
                end) g items).
Proof.
  revert g. induction items as [|x items IH]; intros g; [done|].
  rewrite fmap_cons. cbn [foldl].
  change (models.assignees (v1_item x)) with (models_v2.assignees x).
  destruct (models_v2.assignees x) as [|a names] eqn:Hx.
  - by rewrite <- append_to_fmap, IH.
  - by rewrite (group_names_v1 (a :: names)), IH.
Qed.

Lemma sum_ones_v1 (c1 : models.ProjectItem F → bool)
    (c2 : models_v2.ProjectItemV2 F → bool) items :
  (∀ item, c1 (v1_item item) = c2 item) →
  sum_ones c1 (v1_item <$> items) = sum_ones c2 items.
Proof. intros Hc. rewrite sum_ones_fmap. by apply sum_ones_ext. Qed.

Lemma len_v1 (items : list (models_v2.ProjectItemV2 F)) :
  len (v1_item <$> items) = len items.
Proof. unfold len. by rewrite length_fmap. Qed.

Lemma count_status_v1 st (items : list (models_v2.ProjectItemV2 F)) :
  sum_ones (λ item, bool_decide (models.status item = v1_status st)) (v1_item <$> items)
  = sum_ones (λ item, bool_decide (models_v2.status item = st)) items.
Proof.
  apply sum_ones_v1. intros item. simpl.
  by destruct (models_v2.status item), st.
Qed.

Lemma count_fire_v1 (items : list (models_v2.ProjectItemV2 F)) :
  sum_ones (λ item, bool_decide (models.priority item = models.FIRE)) (v1_item <$> items)
  = sum_ones (λ item, bool_decide (models_v2.priority item = models_v2.FIRE)) items.
Proof.
  apply sum_ones_v1. intros item. simpl. by destruct (models_v2.priority item).
Qed.

Lemma count_unplanned_v1 (items : list (models_v2.ProjectItemV2 F)) :
  sum_ones (λ item, negb (models.is_planned item)) (v1_item <$> items)
  = sum_ones (λ item, negb (models_v2.is_planned item)) items.
Proof.
  apply sum_ones_v1. intros item.
  unfold models.is_planned, models_v2.is_planned. simpl.
  by destruct (models_v2.priority item).
Qed.

Lemma count_high_priority_v1 (items : list (models_v2.ProjectItemV2 F)) :
  sum_ones (λ item,
              bool_decide (models.priority item ∈ [models.FIRE; models.P0])
              && bool_decide (models.status item ∈ [models.BACKLOG; models.TODO]))
    (v1_item <$> items)
  = sum_ones (λ item,
                bool_decide (models_v2.priority item ∈ [models_v2.FIRE; models_v2.P0])
                && bool_decide (models_v2.status item ∈ [models_v2.BACKLOG; models_v2.TODO]))
      items.
Proof.
  apply sum_ones_v1. intros item. simpl.
  by destruct (models_v2.priority item), (models_v2.status item).
Qed.

Lemma active_list_v1 (items : list (models_v2.ProjectItemV2 F)) :
  filter (λ item, models.status item ≠ models.BACKLOG) (v1_item <$> items)
  = v1_item <$> filter (λ item, models_v2.status item ≠ models_v2.BACKLOG) items.
Proof.
  apply filter_fmap_pred. intros item. simpl.
  by destruct (models_v2.status item).
Qed.

Lemma done_list_v1 (items : list (models_v2.ProjectItemV2 F)) :
  filter (λ item, models.status item = models.DONE) (v1_item <$> items)
  = v1_item <$> filter (λ item, models_v2.status item = models_v2.DONE) items.
Proof.
  apply filter_fmap_pred. intros item. simpl.
  by destruct (models_v2.status item).
Qed.

Lemma estimates_v1 (items : list (models_v2.ProjectItemV2 F)) :
  models.estimate_hours <$> (v1_item <$> items) = models_v2.estimate_hours <$> items.
Proof. by rewrite <- list_fmap_compose. Qed.

Lemma group_by_status_v1 (items : list (models_v2.ProjectItemV2 F)) :
  processor.group_by_status (v1_item <$> items)
  = fmap (M := gmap pystr) (fmap v1_item)
      (foldl (λ g item,
                append_to g (models_v2.Status_value (models_v2.status item)) item) ∅ items).
Proof.
  unfold processor.group_by_status.
  rewrite <- (group_single_v1 (λ item, models.Status_value (models.status item))).
  - by rewrite fmap_empty.
  - intros item. apply Status_value_v1.
Qed.

Lemma group_by_priority_v1 (items : list (models_v2.ProjectItemV2 F)) :
  processor.group_by_priority (v1_item <$> items)
  = fmap (M := gmap pystr) (fmap v1_item)
      (foldl (λ g item,
                append_to g (models_v2.Priority_value (models_v2.priority item)) item)
         ∅ items).
Proof.
  unfold processor.group_by_priority.
  rewrite <- (group_single_v1 (λ item, models.Priority_value (models.priority item))).
  - by rewrite fmap_empty.
  - intros item. apply Priority_value_v1.
Qed.

Lemma group_by_assignee_v1 (items : list (models_v2.ProjectItemV2 F)) :
  processor.group_by_assignee (v1_item <$> items)
  = fmap (M := gmap pystr) (fmap v1_item)
      (foldl (λ g item,
                match models_v2.assignees item with
                | [] => append_to g (lit "Unassigned") item
                | _ => foldl (λ g assignee, append_to g assignee item)
                         g (models_v2.assignees item)
                end) ∅ items).
Proof.
  unfold processor.group_by_assignee.
  by rewrite <- group_assignee_v1, fmap_empty.
Qed.

Lemma sum_ones_nil_filter {A} (cond : A → bool) (l : list A) :
  len l = 0 → sum_ones cond l = 0.
Proof. destruct l; [done|]. rewrite len_cons. pose proof (len_nonneg l). lia. Qed.

(** The two metrics engines agree on corresponding items. *)
Lemma calculate_metrics_v1 (items : list (models_v2.ProjectItemV2 F)) :
  let m1 := processor.calculate_metrics (v1_item <$> items) in
  let m2 := processor_v2.calculate_metrics_v2 items in
  same_scalars m1 m2
  ∧ same_groups (models.items_by_status m1) (models_v2.items_by_status m2)
  ∧ same_groups (models.items_by_priority m1) (models_v2.items_by_priority m2)
  ∧ same_groups (models.items_by_assignee m1) (models_v2.items_by_assignee m2).
Proof.
  destruct items as [|x items].
  { unfold same_scalars, same_groups. simpl. rewrite fmap_empty. repeat split. }
  unfold processor.calculate_metrics, processor_v2.calculate_metrics_v2.
  rewrite fmap_cons. cbv beta iota.
  change (v1_item x :: (v1_item <$> items)) with (v1_item <$> (x :: items)).
  set (l := x :: items).
  rewrite group_step_split.
  unfold processor.calculate_todo_count, processor.calculate_done_active_count,
    processor.calculate_unplanned_done_stats.
  rewrite done_list_v1, active_list_v1, estimates_v1, !len_v1.
  change models.DONE with (v1_status models_v2.DONE).
  change models.PENDING with (v1_status models_v2.PENDING).
  change models.IN_PROGRESS with (v1_status models_v2.IN_PROGRESS).
  change models.TODO with (v1_status models_v2.TODO).
  rewrite !count_status_v1, !count_unplanned_v1, !count_fire_v1, count_high_priority_v1.
  set (done_list := filter (λ item, models_v2.status item = models_v2.DONE) l).
  assert (Hdone : (if len done_list =? 0
                   then (f_lit0, 0)
                   else (percentage
                           (sum_ones (λ item, bool_decide (models_v2.priority item
                                                           = models_v2.FIRE)) done_list)
                           (len done_list),
                         sum_ones (λ item, bool_decide (models_v2.priority item
                                                        = models_v2.FIRE)) done_list))
                  = (if 0 <? len done_list
                     then percentage
                            (sum_ones (λ item, bool_decide (models_v2.priority item
                                                            = models_v2.FIRE)) done_list)
                            (len done_list)
                     else f_lit0,
                     sum_ones (λ item, bool_decide (models_v2.priority item
                                                    = models_v2.FIRE)) done_list)).
  { pose proof (len_nonneg done_list).
    destruct (Z.eqb_spec (len done_list) 0) as [Hz|Hz].
    - rewrite sum_ones_nil_filter by done. by rewrite Hz.
    - destruct (Z.ltb_spec 0 (len done_list)); [done|lia]. }
  rewrite Hdone, group_by_status_v1, group_by_priority_v1, group_by_assignee_v1.
  unfold same_scalars, same_groups. repeat split.
Qed.

(** C8.  On every sequence of raw records the two pipelines have the same
    outcome.  Either both parsers raise the same exception, or both return,
    the v1 items being the v1 fields of the v2 items; the two metrics
    aggregates are then equal in every scalar field, and each grouping has
    the same keys with, under each key, the corresponding items. *)
Theorem pipelines_agree (raws : list (RawItem F)) :
  match processor.parse_items raws, processor_v2.parse_items_v2 raws with
  | Ok items, Ok items_v2 =>
      items = v1_item <$> items_v2
      ∧ let m1 := processor.calculate_metrics items in
        let m2 := processor_v2.calculate_metrics_v2 items_v2 in
        same_scalars m1 m2
        ∧ same_groups (models.items_by_status m1) (models_v2.items_by_status m2)
        ∧ same_groups (models.items_by_priority m1) (models_v2.items_by_priority m2)
        ∧ same_groups (models.items_by_assignee m1) (models_v2.items_by_assignee m2)
  | Raise e1, Raise e2 => e1 = e2
  | _, _ => False
  end.
Proof.
  rewrite parse_items_v1.
  destruct (processor_v2.parse_items_v2 raws) as [items_v2|e]; simpl; [|done].
  split; [done|]. apply calculate_metrics_v1.
Qed.

End Pipelines.

(** ** Snapshot differencer *)

Section DifferencerProperties.
Context {F : Type}.
Import models snapshot.
Implicit Types (items current previous : list (ProjectItem F)) (k : pystr).

Lemma foldl_ext_in {A B} (f g : A → B → A) (l : list B) (a : A) :
  (∀ a x, x ∈ l → f a x = g a x) → foldl f a l = foldl g a l.
Proof.
  revert a. induction l as [|x l IH]; intros a Hfg; [done|]. simpl.
  rewrite Hfg by apply list_elem_of_here. apply IH.
  intros. apply Hfg. by apply list_elem_of_further.
Qed.

Lemma filter_ext_in {A} (P Q : A → Prop) `{∀ x, Decision (P x)} `{∀ x, Decision (Q x)}
    (l : list A) :
  (∀ x, x ∈ l → P x ↔ Q x) → filter P l = filter Q l.
Proof.
  induction l as [|x l IH]; intros HPQ; [done|].
  rewrite !filter_cons, IH by (intros; apply HPQ; by apply list_elem_of_further).
  destruct (decide (P x)) as [HP|HP], (decide (Q x)) as [HQ|HQ]; try done;
    apply HPQ in HP || apply HPQ in HQ; done || apply list_elem_of_here.
Qed.

Lemma omap_ext_in {A B} (f g : A → option B) (l : list A) :
  (∀ x, x ∈ l → f x = g x) → omap f l = omap g l.
Proof.
  induction l as [|x l IH]; intros Hfg; [done|]. csimpl.
  rewrite Hfg by apply list_elem_of_here.
  rewrite IH; [done|]. intros. apply Hfg. by apply list_elem_of_further.
Qed.

(** The dictionary comprehension keeps, for each identifier, the last item
    that carries it. *)
Lemma by_id_lookup_from items (d : gmap pystr (ProjectItem F)) k :
  foldl (λ d item, <[id item := item]> d) d items !! k
  = match lookup_id items k with
    | Some x => Some x
    | None => d !! k
    end.
Proof.
  unfold lookup_id. revert d. induction items as [|x items IH]; intros d; [done|].
  simpl. rewrite IH, filter_cons. destruct (decide (id x = k)) as [Hx|Hx].
  - rewrite last_cons. destruct (last _); [done|]. by rewrite Hx, lookup_insert_eq.
  - destruct (last _); [done|]. by rewrite lookup_insert_ne.
Qed.

Lemma by_id_lookup items k : by_id items !! k = lookup_id items k.
Proof.
  unfold by_id. rewrite by_id_lookup_from, lookup_empty. by destruct (lookup_id items k).
Qed.

Lemma lookup_id_Some items k x : lookup_id items k = Some x → x ∈ items ∧ id x = k.
Proof.
  unfold lookup_id. intros Hx%last_Some_elem_of.
  apply list_elem_of_filter in Hx. tauto.
Qed.

Lemma lookup_id_is_Some items k : is_Some (lookup_id items k) ↔ k ∈ ids items.
Proof.
  unfold lookup_id, ids. rewrite last_is_Some, elem_of_list_to_set, list_elem_of_fmap.
  split.
  - intros Hne. destruct (filter _ items) as [|x l] eqn:Hf; [done|].
    assert (Hx : x ∈ filter (λ item, id item = k) items) by (rewrite Hf; left).
    apply list_elem_of_filter in Hx as [Hk Hx]. eauto.
  - intros (x & -> & Hx) Hnil.
    eapply (filter_nil_not_elem_of _ _ x) in Hnil; done.
Qed.

(** When identifiers are distinct, each item is the one found under its own. *)
Lemma lookup_id_NoDup items x :
  NoDup (id <$> items) → x ∈ items → lookup_id items (id x) = Some x.
Proof.
  unfold lookup_id. induction items as [|y items IH]; intros Hnd Hx.
  - by apply elem_of_nil in Hx.
  - rewrite fmap_cons in Hnd. apply NoDup_cons in Hnd as [Hy Hnd].
    rewrite filter_cons. apply elem_of_cons in Hx as [->|Hx].
    + rewrite decide_True by done.
      assert (filter (λ item, id item = id y) items = []) as ->; [|done].
      destruct (filter _ items) as [|z l] eqn:Hf; [done|].
      assert (Hz : z ∈ filter (λ item, id item = id y) items) by (rewrite Hf; left).
      apply list_elem_of_filter in Hz as [Hk Hz].
      destruct Hy. rewrite <- Hk. by apply list_elem_of_fmap_2.
    + rewrite decide_False; [by apply IH|].
      intros Heq. destruct Hy. rewrite Heq. by apply list_elem_of_fmap_2.
Qed.

Lemma dom_by_id items : dom (by_id items) = ids items.
Proof.
  apply set_eq. intros k.
  by rewrite elem_of_dom, by_id_lookup, lookup_id_is_Some.
Qed.

Lemma status_changes_from current previous (acc : list (StatusChange F)) :
  foldl (λ status_changes item,
           match by_id previous !! id item with
           | Some prev_item =>
               if negb (bool_decide (status prev_item = status item))
               then status_changes ++
                      [ {| c_id := id item;
                           c_title := title item;
                           c_from_status := Status_value (status prev_item);
                           c_to_status := Status_value (status item) |} ]
               else status_changes
           | None => status_changes
           end) acc current
  = acc ++ omap (status_change previous) current.
Proof.
  revert acc. induction current as [|item current IH]; intros acc; csimpl.
  - by rewrite app_nil_r.
  - rewrite IH. unfold status_change at 2. rewrite by_id_lookup.
    destruct (lookup_id previous (id item)) as [p|]; [|done].
    destruct (bool_decide (status p = status item)); simpl; [done|].
    by rewrite <- app_assoc.
Qed.

(** The three results in closed form. *)
Lemma compare_snapshots_Some current previous :
  compare_snapshots current (Some previous)
  = {| items_completed := len (filter (λ item, completed previous item = true) current);
       items_added := Z.of_nat (size (ids current ∖ ids previous));
       status_changes := omap (status_change previous) current |}.
Proof.
  unfold compare_snapshots. f_equal.
  - rewrite <- sum_ones_filter. unfold sum_ones. apply foldl_ext_in.
    intros n item _. unfold completed. rewrite by_id_lookup.
    by destruct (lookup_id previous (id item)).
  - rewrite sum_ones_filter. unfold len. f_equal.
    rewrite <- (size_list_to_set (C := gset pystr))
      by (apply NoDup_filter, NoDup_fst_map_to_list).
    f_equal. apply set_eq. intros k.
    rewrite elem_of_list_to_set, list_elem_of_filter, elem_of_difference.
    rewrite negb_true_iff, bool_decide_eq_false.
    rewrite by_id_lookup, lookup_id_is_Some.
    rewrite <- (dom_by_id current), dom_alt, elem_of_list_to_set. tauto.
  - apply status_changes_from.
Qed.

Lemma NoDup_id_filter (P : ProjectItem F → Prop) `{∀ x, Decision (P x)} items :
  NoDup (id <$> items) → NoDup (id <$> filter P items).
Proof.
  intros Hnd. eapply sublist_NoDup; [done|].
  apply fmap_sublist, sublist_filter.
Qed.

(** With distinct identifiers in [current], the items selected by a
    condition on the previous and the current item carry exactly the
    identifiers selected by that condition, and are as many. *)
Lemma selected_ids_set (q : ProjectItem F → ProjectItem F → bool) current previous :
  NoDup (id <$> current) →
  list_to_set (id <$> filter (λ item, match lookup_id previous (id item) with
                                      | Some p => q p item
                                      | None => false
                                      end = true) current)
  =@{gset pystr}
  filter (λ k, match lookup_id previous k, lookup_id current k with
               | Some p, Some c => q p c
               | _, _ => false
               end = true) (ids current ∩ ids previous).
Proof.
  intros Hnd. apply set_eq. intros k.
  rewrite elem_of_list_to_set, list_elem_of_fmap, elem_of_filter, elem_of_intersection.
  split.
  - intros (c & -> & Hc). apply list_elem_of_filter in Hc as [Hq Hc].
    rewrite (lookup_id_NoDup current c) by done.
    destruct (lookup_id previous (id c)) as [p|] eqn:Hp; [|done].
    split; [done|]. split; apply lookup_id_is_Some; [|by rewrite Hp].
    by rewrite (lookup_id_NoDup current c).
  - intros (Hq & _ & _).
    destruct (lookup_id previous k) as [p|] eqn:Hp; [|done].
    destruct (lookup_id current k) as [c|] eqn:Hc; [|done].
    apply lookup_id_Some in Hc as [Hc <-]. exists c. split; [done|].
    apply list_elem_of_filter. by rewrite Hp.
Qed.

Lemma selected_ids_size (q : ProjectItem F → ProjectItem F → bool) current previous :
  NoDup (id <$> current) →
  length (filter (λ item, match lookup_id previous (id item) with
                          | Some p => q p item
                          | None => false
                          end = true) current)
  = size (filter (λ k, match lookup_id previous k, lookup_id current k with
                       | Some p, Some c => q p c
                       | _, _ => false
                       end = true) (ids current ∩ ids previous)).
Proof.
  intros Hnd. rewrite <- selected_ids_set by done.
  rewrite size_list_to_set by by apply NoDup_id_filter.
  by rewrite length_fmap.
Qed.

Lemma status_changes_length current previous :
  length (omap (status_change previous) current)
  = length (filter (λ item, match lookup_id previous (id item) with
                            | Some p => negb (bool_decide (status p = status item))
                            | None => false
                            end = true) current).
Proof.
  induction current as [|item current IH]; [done|]. csimpl.
  rewrite filter_cons. unfold status_change at 1.
  destruct (lookup_id previous (id item)) as [p|];
    [destruct (bool_decide (status p = status item))|]; csimpl; by rewrite ?IH.
Qed.

Lemma status_changes_ids current previous :
  c_id <$> omap (status_change previous) current
  = id <$> filter (λ item, match lookup_id previous (id item) with
                           | Some p => negb (bool_decide (status p = status item))
                           | None => false
                           end = true) current.
Proof.
  induction current as [|item current IH]; [done|]. csimpl.
  rewrite filter_cons. unfold status_change at 1.
  destruct (lookup_id previous (id item)) as [p|];
    [destruct (bool_decide (status p = status item))|]; csimpl; by rewrite ?IH.
Qed.

(** An item of [previous] whose identifier is not in [current] changes
    nothing. *)
Lemma lookup_id_removed (p1 p2 : list (ProjectItem F)) removed k :
  id removed ≠ k → lookup_id (p1 ++ removed :: p2) k = lookup_id (p1 ++ p2) k.
Proof.
  intros Hne. unfold lookup_id.
  by rewrite !filter_app, filter_cons_False.
Qed.

Lemma ids_cons item items : ids (item :: items) = {[ id item ]} ∪ ids items.
Proof. done. Qed.

Lemma ids_app items1 items2 : ids (items1 ++ items2) = ids items1 ∪ ids items2.
Proof. unfold ids. by rewrite fmap_app, list_to_set_app_L. Qed.

Lemma elem_of_ids item items : item ∈ items → id item ∈ ids items.
Proof. intros Hx. apply elem_of_list_to_set. by apply list_elem_of_fmap_2. Qed.

Lemma compare_snapshots_removed current (p1 p2 : list (ProjectItem F)) removed :
  id removed ∉ ids current →
  compare_snapshots current (Some (p1 ++ removed :: p2))
  = compare_snapshots current (Some (p1 ++ p2)).
Proof.
  intros Hrem. rewrite !compare_snapshots_Some.
  assert (Hl : ∀ item, item ∈ current →
            lookup_id (p1 ++ removed :: p2) (id item) = lookup_id (p1 ++ p2) (id item)).
  { intros item Hitem. apply lookup_id_removed.
    intros Heq. apply Hrem. rewrite Heq. by apply elem_of_ids. }
  f_equal.
  - f_equal. apply filter_ext_in. intros item Hitem.
    unfold completed. by rewrite Hl.
  - do 2 f_equal. rewrite !ids_app, ids_cons. set_solver.
  - apply omap_ext_in. intros item Hitem. unfold status_change. by rewrite Hl.
Qed.

(** C4.  With no previous snapshot every count is 0 and the list of status
    changes is empty, whatever [current] holds.  Otherwise: the completed
    count is the number of items of [current] whose identifier is also in
    [previous], there with a status other than Done, and whose status is
    Done; the added count is the number of identifiers in [current] that
    are not in [previous]; the status changes are, in the order of
    [current], one entry for each item whose identifier is in [previous]
    with another status.  When the identifiers of [current] are distinct
    these are the numbers of identifiers present on both sides with the
    stated statuses, one entry each.  An item of [previous] whose identifier
    is not in [current] changes no field. *)
Theorem compare_snapshots_contract current :
  compare_snapshots current None
  = {| items_completed := 0; items_added := 0; status_changes := [] |}
  ∧ ∀ previous,
      let r := compare_snapshots current (Some previous) in
      items_completed r = len (filter (λ item, completed previous item = true) current)
      ∧ items_added r = Z.of_nat (size (ids current ∖ ids previous))
      ∧ status_changes r = omap (status_change previous) current
      ∧ (NoDup (id <$> current) →
           items_completed r = Z.of_nat (size (completed_ids current previous))
           ∧ len (status_changes r) = Z.of_nat (size (changed_ids current previous))
           ∧ NoDup (c_id <$> status_changes r)
           ∧ list_to_set (c_id <$> status_changes r) = changed_ids current previous)
      ∧ (∀ p1 p2 removed,
           previous = p1 ++ removed :: p2 → id removed ∉ ids current →
           compare_snapshots current (Some (p1 ++ p2)) = r).
Proof.
  split; [done|]. intros previous r. subst r.
  rewrite compare_snapshots_Some. simpl. repeat split.
  - unfold len. f_equal.
    apply (selected_ids_size
             (λ p c, negb (bool_decide (status p = DONE)) && bool_decide (status c = DONE))).
    done.
  - unfold len. f_equal. rewrite status_changes_length.
    by apply (selected_ids_size (λ p c, negb (bool_decide (status p = status c)))).
  - rewrite status_changes_ids. by apply NoDup_id_filter.
  - rewrite status_changes_ids.
    by apply (selected_ids_set (λ p c, negb (bool_decide (status p = status c)))).
  - intros p1 p2 removed -> Hrem.
    rewrite <- compare_snapshots_Some. symmetry. by apply compare_snapshots_removed.
Qed.

Lemma new_items_size current previous :
  NoDup (id <$> current) →
  length (filter (λ item, id item ∉ ids previous) current)
  = size (ids current ∖ ids previous).
Proof.
  intros Hnd. rewrite <- (length_fmap id).
  rewrite <- (size_list_to_set (C := gset pystr)) by by apply NoDup_id_filter.
  f_equal. apply set_eq. intros k.
  rewrite elem_of_list_to_set, list_elem_of_fmap, elem_of_difference. split.
  - intros (c & -> & Hc). apply list_elem_of_filter in Hc as [Hq Hc].
    split; [by apply elem_of_ids|done].
  - intros [Hk Hn]. apply elem_of_list_to_set, list_elem_of_fmap in Hk as (c & -> & Hc).
    exists c. split; [done|]. by apply list_elem_of_filter.
Qed.

Lemma new_ids_le current previous :
  (size (ids current ∖ ids previous) ≤ length (filter (λ item, id item ∉ ids previous) current))%nat.
Proof.
  induction current as [|item current IH].
  { assert (ids [] ∖ ids previous = ∅) as -> by (unfold ids; set_solver).
    by rewrite size_empty. }
  rewrite ids_cons, filter_cons. destruct (decide (id item ∉ ids previous)) as [Hn|Hn].
  - simpl. etrans; [|apply le_n_S, IH].
    etrans; [apply (subseteq_size _ ({[id item]} ∪ (ids current ∖ ids previous)))|].
    + set_solver.
    + rewrite size_union_alt, size_singleton.
      assert (Hle : (size ((ids current ∖ ids previous) ∖ {[id item]})
                     ≤ size (ids current ∖ ids previous))%nat)
        by (apply subseteq_size; set_solver).
      lia.
  - etrans; [|apply IH]. apply subseteq_size.
    apply dec_stable in Hn. set_solver.
Qed.

Lemma filter_replicate_all {A} (P : A → Prop) `{∀ x, Decision (P x)} (x : A) n :
  P x → filter P (replicate n x) = replicate n x.
Proof.
  intros Hx. induction n as [|n IH]; [done|].
  simpl. by rewrite filter_cons_True, IH.
Qed.

Lemma ids_replicate (item : ProjectItem F) n :
  (0 < n)%nat → ids (replicate n item) = {[ id item ]}.
Proof.
  induction n as [|[|n] IH]; intros Hn; [lia| |].
  - unfold ids. simpl. set_solver.
  - change (replicate (S (S n)) item) with (item :: replicate (S n) item).
    rewrite ids_cons, IH by lia. set_solver.
Qed.

(** C10.  [items_completed] and [status_changes] take one contribution from
    each element of [current], so that an item listed [n] times that went
    to Done counts [n] times; [items_added] counts each new identifier
    once, however many elements carry it, so that a new item listed [n]
    times counts once.  When the identifiers of [current] are distinct,
    counting elements and counting identifiers give the same numbers. *)
Theorem compare_snapshots_duplicate_ids current previous :
  let r := compare_snapshots current (Some previous) in
  items_completed r = len (filter (λ item, completed previous item = true) current)
  ∧ len (status_changes r)
    = len (filter (λ item, is_Some (status_change previous item)) current)
  ∧ items_added r = Z.of_nat (size (ids current ∖ ids previous))
  ∧ items_added r ≤ len (filter (λ item, id item ∉ ids previous) current)
  ∧ (∀ item n,
       completed previous item = true →
       items_completed (compare_snapshots (replicate n item) (Some previous)) = Z.of_nat n)
  ∧ (∀ item n,
       id item ∉ ids previous → (0 < n)%nat →
       items_added (compare_snapshots (replicate n item) (Some previous)) = 1)
  ∧ (NoDup (id <$> current) →
       items_added r = len (filter (λ item, id item ∉ ids previous) current)
       ∧ items_completed r = Z.of_nat (size (completed_ids current previous))
       ∧ len (status_changes r) = Z.of_nat (size (changed_ids current previous))).
Proof.
  intros r. subst r. rewrite compare_snapshots_Some.
  cbn [items_completed items_added status_changes]. repeat split.
  - unfold len. f_equal. rewrite status_changes_length.
    f_equal. apply list_filter_iff. intros item. unfold status_change.
    destruct (lookup_id previous (id item)) as [p|];
      [destruct (bool_decide (status p = status item))|]; simpl;
      (split; [try done; eauto | try done; by intros [? [=]]]).
  - unfold len. pose proof (new_ids_le current previous). lia.
  - intros item n Hc. rewrite compare_snapshots_Some.
    cbn [items_completed items_added status_changes].
    rewrite filter_replicate_all by done. unfold len. by rewrite length_replicate.
  - intros item n Hnew Hn. rewrite compare_snapshots_Some.
    cbn [items_completed items_added status_changes].
    rewrite ids_replicate by done.
    replace ({[id item]} ∖ ids previous) with ({[id item]} : gset pystr) by set_solver.
    by rewrite size_singleton.
  - unfold len. f_equal. by rewrite new_items_size.
  - unfold len. f_equal.
    by apply (selected_ids_size
             (λ p c, negb (bool_decide (status p = DONE)) && bool_decide (status c = DONE))).
  - unfold len. f_equal. rewrite status_changes_length.
    by apply (selected_ids_size (λ p c, negb (bool_decide (status p = status c)))).
Qed.

End DifferencerProperties.

(** ** String order and file names *)

Lemma str_ltb_irrefl a : str_ltb a a = false.
Proof.
  induction a as [|c a IH]; [done|]. simpl.
  by rewrite N.ltb_irrefl, N.eqb_refl, IH.
Qed.

Lemma str_ltb_trans a b c : str_ltb a b = true → str_ltb b c = true → str_ltb a c = true.
Proof.
  revert b c. induction a as [|x a IH]; intros [|y b] [|z c]; simpl; try done.
  rewrite !orb_true_iff, !andb_true_iff, !N.ltb_lt, !N.eqb_eq.
  intros [Hxy|[-> Hab]] [Hyz|[-> Hbc]]; eauto with lia.
Qed.

Lemma str_ltb_trichotomy a b : str_ltb a b = true ∨ a = b ∨ str_ltb b a = true.
Proof.
  revert b. induction a as [|x a IH]; intros [|y b]; simpl; auto.
  rewrite !orb_true_iff, !andb_true_iff, !N.ltb_lt, !N.eqb_eq.
  destruct (N.lt_trichotomy x y) as [?|[->|?]]; auto.
  destruct (IH b) as [?|[->|?]]; auto.
Qed.

Lemma str_leb_refl a : str_leb a a = true.
Proof. unfold str_leb. by rewrite str_ltb_irrefl. Qed.

Lemma str_leb_antisym a b : str_leb a b = true → str_leb b a = true → a = b.
Proof.
  unfold str_leb. rewrite !negb_true_iff. intros Hba Hab.
  destruct (str_ltb_trichotomy a b) as [?|[?|?]]; congruence.
Qed.

Lemma str_leb_trans a b c : str_leb a b = true → str_leb b c = true → str_leb a c = true.
Proof.
  unfold str_leb. rewrite !negb_true_iff. intros Hba Hcb.
  destruct (str_ltb c a) eqn:Hca; [|done].
  destruct (str_ltb_trichotomy a b) as [Hab|[->|Hab]]; [|congruence..].
  by rewrite (str_ltb_trans c a b) in Hcb.
Qed.

Lemma str_ltb_leb a b : str_ltb a b = true → str_leb a b = true.
Proof.
  intros Hab. unfold str_leb. destruct (str_ltb b a) eqn:Hba; [|done].
  pose proof (str_ltb_trans a b a Hab Hba) as Haa.
  by rewrite str_ltb_irrefl in Haa.
Qed.

Lemma startswith_app p s : startswith (p ++ s) p = true.
Proof.
  induction p as [|c p IH]; [by destruct s|]. simpl.
  by rewrite bool_decide_eq_true_2, IH.
Qed.

Lemma endswith_app s p : endswith (s ++ p) p = true.
Proof. unfold endswith. rewrite reverse_app. apply startswith_app. Qed.

Lemma str_ltb_app_same p a b : str_ltb (p ++ a) (p ++ b) = str_ltb a b.
Proof.
  induction p as [|c p IH]; [done|]. simpl.
  by rewrite N.ltb_irrefl, N.eqb_refl, IH.
Qed.

Lemma str_ltb_app_lt a b x y :
  length a = length b → str_ltb a b = true → str_ltb (a ++ x) (b ++ y) = true.
Proof.
  revert b. induction a as [|c a IH]; intros [|d b]; simpl; try done.
  intros [= Hlen]. rewrite !orb_true_iff, !andb_true_iff.
  intros [?|[? ?]]; auto.
Qed.

Lemma length_zfill w n : length (zfill w n) = w.
Proof.
  revert n. induction w as [|w IH]; intros n; [done|].
  simpl. rewrite length_app, IH. simpl. lia.
Qed.

(** On numbers that fit the width, the order of the padded digits is the
    order of the numbers. *)
Lemma zfill_lt w a b :
  0 ≤ a → a < b → b < 10 ^ Z.of_nat w → str_ltb (zfill w a) (zfill w b) = true.
Proof.
  revert a b. induction w as [|w IH]; intros a b Ha Hab Hb.
  - simpl in Hb. lia.
  - simpl. rewrite Nat2Z.inj_succ, Z.pow_succ_r in Hb by lia.
    destruct (Z.lt_trichotomy (a / 10) (b / 10)) as [Hlt|[Heq|Hgt]].
    + apply str_ltb_app_lt; [by rewrite !length_zfill|].
      apply IH; [apply Z.div_pos; lia|done|].
      apply Z.div_lt_upper_bound; lia.
    + rewrite Heq, str_ltb_app_same. simpl.
      rewrite andb_false_r, orb_false_r. apply N.ltb_lt.
      assert (a mod 10 < b mod 10).
      { rewrite (Z.div_mod a 10), (Z.div_mod b 10) in Hab by lia. lia. }
      pose proof (Z.mod_pos_bound a 10). pose proof (Z.mod_pos_bound b 10). lia.
    + assert (b / 10 < a / 10) by lia.
      assert (b / 10 + 1 ≤ a / 10) by lia.
      rewrite (Z.div_mod a 10), (Z.div_mod b 10) in Hab by lia.
      pose proof (Z.mod_pos_bound a 10). pose proof (Z.mod_pos_bound b 10). lia.
Qed.

Lemma zfill_le w a b :
  0 ≤ a → a ≤ b → b < 10 ^ Z.of_nat w →
  a = b ∨ str_ltb (zfill w a) (zfill w b) = true.
Proof.
  intros Ha Hab Hb. destruct (decide (a = b)); [by left|].
  right. apply zfill_lt; lia.
Qed.

Lemma str_leb_app_same p x y : str_leb (p ++ x) (p ++ y) = str_leb x y.
Proof. unfold str_leb. by rewrite str_ltb_app_same. Qed.

Lemma str_leb_app a b x y :
  length a = length b →
  str_ltb a b = true ∨ (a = b ∧ str_leb x y = true) →
  str_leb (a ++ x) (b ++ y) = true.
Proof.
  intros Hlen [Hlt|[-> Hxy]].
  - by apply str_ltb_leb, str_ltb_app_lt.
  - by rewrite str_leb_app_same.
Qed.

(** One field of the two names: smaller, or equal and the rest decides. *)
Ltac compare_field w a b :=
  apply str_leb_app; [by rewrite !length_zfill|];
  destruct (zfill_le w a b) as [->|?]; [lia..|right; split; [done|]|by left].

(** In the ranges of the formats, the order of the file names is the order
    of the clock readings. *)
Lemma strftime_snapshot_mono t1 t2 :
  in_range t1 → in_range t2 → to_the_second t1 ≤ to_the_second t2 →
  str_leb (strftime_snapshot t1) (strftime_snapshot t2) = true.
Proof.
  unfold in_range, to_the_second, strftime_snapshot.
  generalize (lit "snapshot-") (lit "-") (lit ".json"). intros pre dash suf.
  destruct t1 as [y1 m1 d1 h1 mi1 s1 u1], t2 as [y2 m2 d2 h2 mi2 s2 u2].
  cbn [year month day hour minute second].
  intros (Hy1 & Hm1 & Hd1 & Hh1 & Hmi1 & Hs1) (Hy2 & Hm2 & Hd2 & Hh2 & Hmi2 & Hs2) Hle.
  rewrite str_leb_app_same.
  compare_field 4%nat y1 y2. compare_field 2%nat m1 m2. compare_field 2%nat d1 d2.
  rewrite str_leb_app_same.
  compare_field 2%nat h1 h2. compare_field 2%nat mi1 mi2. compare_field 2%nat s1 s2.
  apply str_leb_refl.
Qed.

(** Every name [save_snapshot] gives to a file matches the pattern
    [load_latest_snapshot] looks for. *)
Lemma glob_snapshot_strftime now : glob_snapshot (strftime_snapshot now) = true.
Proof.
  unfold glob_snapshot, strftime_snapshot.
  generalize (lit "snapshot-") (lit ".json"). intros pre suf.
  rewrite startswith_app.
  rewrite !(assoc_L (++)), endswith_app. cbn [andb].
  apply Z.leb_le. unfold len. rewrite !length_app. lia.
Qed.

Lemma calendar_in_range t : calendar t → in_range t.
Proof. unfold calendar, in_range. lia. Qed.

(** ** Snapshot store *)

Section StoreProperties.
Context {F : Type} `{PyFloat F}.
Import models snapshot.

Lemma max_by_name_spec {A} (first : pystr * A) rest :
  max_by_name first rest ∈ first :: rest
  ∧ ∀ p, p ∈ first :: rest → str_leb p.1 (max_by_name first rest).1 = true.
Proof.
  unfold max_by_name. revert first.
  induction rest as [|x rest IH]; intros first; simpl.
  - split; [left|]. intros p ->%list_elem_of_singleton. apply str_leb_refl.
  - destruct (IH (if str_ltb first.1 x.1 then x else first)) as [Hin Hmax].
    split.
    + apply elem_of_cons in Hin as [->|Hin]; [|by do 2 right].
      destruct (str_ltb first.1 x.1); [right|]; left.
    + intros p Hp.
      assert (Hb : ∀ q, q = first ∨ q = x →
                str_leb q.1 (if str_ltb first.1 x.1 then x else first).1 = true).
      { intros q [->| ->]; destruct (str_ltb first.1 x.1) eqn:Hlt;
          auto using str_leb_refl, str_ltb_leb.
        unfold str_leb. by rewrite Hlt. }
      apply elem_of_cons in Hp as [->|Hp];
        [eapply str_leb_trans; [apply Hb; auto|apply Hmax; left]|].
      apply elem_of_cons in Hp as [->|Hp];
        [eapply str_leb_trans; [apply Hb; auto|apply Hmax; left]|].
      apply Hmax. by right.
Qed.

Lemma Status_call_cases (v : pyval F) :
  (∃ st, v = VStr (Status_value st) ∧ Status_call v = Ok st)
  ∨ ((∀ st, v ≠ VStr (Status_value st)) ∧ Status_call v = Raise ValueError).
Proof.
  destruct v; try (right; by split).
  unfold Status_call.
  destruct (List.find _ _) as [st|] eqn:Hfind.
  - left. exists st. apply List.find_some in Hfind as [_ Hs].
    apply bool_decide_eq_true in Hs. by subst.
  - right. split; [|done]. intros st [= ->].
    assert (Hin : In st Status_members) by (destruct st; simpl; tauto).
    apply (List.find_none _ _ Hfind) in Hin. cbv beta in Hin.
    by rewrite bool_decide_eq_true_2 in Hin.
Qed.

Lemma Priority_call_cases (v : pyval F) :
  (∃ p, v = VStr (Priority_value p) ∧ Priority_call v = Ok p)
  ∨ ((∀ p, v ≠ VStr (Priority_value p)) ∧ Priority_call v = Raise ValueError).
Proof.
  destruct v; try (right; by split).
  unfold Priority_call.
  destruct (List.find _ _) as [p|] eqn:Hfind.
  - left. exists p. apply List.find_some in Hfind as [_ Hs].
    apply bool_decide_eq_true in Hs. by subst.
  - right. split; [|done]. intros p [= ->].
    assert (Hin : In p Priority_members) by (destruct p; simpl; tauto).
    apply (List.find_none _ _ Hfind) in Hin. cbv beta in Hin.
    by rewrite bool_decide_eq_true_2 in Hin.
Qed.

(** Deserialization returns on legal data and raises [ValueError] on any
    other. *)
Lemma _deserialize_item_cases (data : ItemData F) :
  (legal_item data ∧ ∃ item, _deserialize_item data = Ok item)
  ∨ (¬ legal_item data ∧ _deserialize_item data = Raise ValueError).
Proof.
  unfold _deserialize_item, legal_item.
  destruct (Status_call_cases (d_status data)) as [(st & Hst & ->)|[Hst ->]]; simpl.
  - destruct (Priority_call_cases (d_priority data)) as [(p & Hp & ->)|[Hp ->]]; simpl.
    + left. split; [split; eauto|eauto].
    + right. split; [|done]. intros [_ [p Hp']]. by destruct (Hp p).
  - right. split; [|done]. intros [[st Hst'] _]. by destruct (Hst st).
Qed.

Lemma _deserialize_serialize (item : ProjectItem F) :
  _deserialize_item (_serialize_item item) = Ok item.
Proof. destruct item as [? ? [] [] ? ? ? ? ? ?]; reflexivity. Qed.

Lemma mapM_deserialize_serialize (items : list (ProjectItem F)) :
  mapM _deserialize_item (_serialize_item <$> items) = Ok items.
Proof.
  induction items as [|item items IH]; [done|].
  rewrite fmap_cons. simpl. rewrite _deserialize_serialize. simpl.
  rewrite IH. done.
Qed.

Lemma mapM_deserialize_cases (datas : list (ItemData F)) :
  (Forall legal_item datas ∧ ∃ loaded, mapM _deserialize_item datas = Ok loaded)
  ∨ (¬ Forall legal_item datas ∧ mapM _deserialize_item datas = Raise ValueError).
Proof.
  induction datas as [|data datas IH]; simpl.
  - left. split; [done|]. by eexists.
  - destruct (_deserialize_item_cases data) as [[Hl [item ->]]|[Hn ->]]; simpl.
    + destruct IH as [[Hls [loaded ->]]|[Hns ->]]; simpl.
      * left. split; [by constructor|]. by eexists.
      * right. split; [|done]. by intros [_ ?]%Forall_cons.
    + right. split; [|done]. by intros [? _]%Forall_cons.
Qed.

Lemma load_latest_snapshot_no_files (files : gmap pystr (SnapshotData F)) :
  (∀ name, is_Some (files !! name) → glob_snapshot name = false) →
  load_latest_snapshot (Some files) = Ok None.
Proof.
  intros Hno. unfold load_latest_snapshot.
  destruct (filter _ (map_to_list files)) as [|[name data] rest] eqn:Hf; [done|].
  assert (Hin : (name, data) ∈ filter (λ p, glob_snapshot p.1 = true) (map_to_list files))
    by (rewrite Hf; left).
  apply list_elem_of_filter in Hin as [Hglob Hin]. simpl in Hglob.
  apply elem_of_map_to_list in Hin.
  rewrite Hno in Hglob; [done|by eexists].
Qed.

Lemma load_latest_snapshot_latest (files : gmap pystr (SnapshotData F)) :
  (∃ name, is_Some (files !! name) ∧ glob_snapshot name = true) →
  ∃ latest data,
    files !! latest = Some data
    ∧ glob_snapshot latest = true
    ∧ (∀ name, is_Some (files !! name) → glob_snapshot name = true →
         str_leb name latest = true)
    ∧ load_latest_snapshot (Some files) = Some <$> mapM _deserialize_item (items data).
Proof.
  intros (name & [data Hname] & Hglob). unfold load_latest_snapshot.
  set (snapshot_files := filter (λ p, glob_snapshot p.1 = true) (map_to_list files)).
  assert (Hmem : ∀ n d, (n, d) ∈ snapshot_files
                        ↔ files !! n = Some d ∧ glob_snapshot n = true).
  { intros n d. unfold snapshot_files.
    rewrite list_elem_of_filter, elem_of_map_to_list. simpl. tauto. }
  destruct snapshot_files as [|first rest] eqn:Hf.
  { assert (Hin : (name, data) ∈ @nil (pystr * SnapshotData F)) by by apply Hmem.
    by apply elem_of_nil in Hin. }
  destruct (max_by_name_spec first rest) as [Hin Hmax].
  destruct (max_by_name first rest) as [latest ldata].
  apply Hmem in Hin as [Hl Hg].
  exists latest, ldata. repeat split; try done.
  intros n [d Hn] Hng. apply (Hmax (n, d)). by apply Hmem.
Qed.

(** What [_deserialize_item] returns is the item that the data stores. *)
Lemma _deserialize_item_stored (data : ItemData F) (item : ProjectItem F) :
  _deserialize_item data = Ok item ↔ stored_as data item.
Proof.
  unfold _deserialize_item, stored_as. split.
  - destruct (Status_call_cases (d_status data)) as [(st & Hst & ->)|[_ ->]]; [|done].
    destruct (Priority_call_cases (d_priority data)) as [(p & Hp & ->)|[_ ->]]; [|done].
    simpl. intros [= <-]. simpl. by repeat split.
  - intros (Hid & Ht & Hst & Hp & Ha & He & Hl & Hu & Hr & Hn).
    rewrite Hst, Hp.
    assert (Status_call (F := F) (VStr (Status_value (status item))) = Ok (status item))
      as -> by by destruct (status item).
    assert (Priority_call (F := F) (VStr (Priority_value (priority item)))
            = Ok (priority item)) as -> by by destruct (priority item).
    simpl. rewrite Hid, Ht, Ha, He, Hl, Hu, Hr, Hn. by destruct item.
Qed.

Lemma mapM_deserialize_stored (datas : list (ItemData F)) (loaded : list (ProjectItem F)) :
  mapM _deserialize_item datas = Ok loaded ↔ Forall2 stored_as datas loaded.
Proof.
  revert loaded. induction datas as [|data datas IH]; intros loaded; simpl.
  - split; [intros [= <-]; constructor|by intros ->%Forall2_nil_inv_l].
  - destruct (_deserialize_item data) as [item|e] eqn:Hitem; simpl.
    + destruct (mapM _deserialize_item datas) as [rest|e] eqn:Hrest; simpl.
      * split.
        -- intros [= <-]. constructor; [by apply _deserialize_item_stored|by apply IH].
        -- intros (item' & rest' & Hs & Hrs & ->)%Forall2_cons_inv_l.
           apply _deserialize_item_stored in Hs. apply IH in Hrs.
           change (Ok (item :: rest) = Ok (item' :: rest')). congruence.
      * split; [done|].
        intros (item' & rest' & _ & Hrs & ->)%Forall2_cons_inv_l.
        by apply IH in Hrs.
    + split; [done|].
      intros (item' & rest' & Hs & _ & ->)%Forall2_cons_inv_l.
      apply _deserialize_item_stored in Hs. congruence.
Qed.

(** The items stored by the serializations of a list are those of the
    list. *)
Lemma stored_as_serialized (items loaded : list (ProjectItem F)) :
  Forall2 stored_as (_serialize_item <$> items) loaded ↔ loaded = items.
Proof.
  rewrite <- mapM_deserialize_stored, mapM_deserialize_serialize.
  split; congruence.
Qed.

(** C6.  [load_latest_snapshot] returns [None], and raises nothing, when
    the directory is absent or holds no file named like a snapshot.
    Otherwise the file it reads is the one whose name is the greatest
    among those named like a snapshot.  When all the items stored in that
    file carry a status and a priority that are values of members, the
    list returned holds, in the order of the file, the items that are
    stored: each with the stored identifier, title, assignees, estimate,
    labels, URL, repository and issue number, and with the status and the
    priority whose values are stored.  Deserializing an item whose stored
    status or priority is no value of a member raises [ValueError], and so
    does loading when the latest file holds such an item. *)
Theorem load_latest_snapshot_contract :
  load_latest_snapshot (F := F) None = Ok None
  ∧ (∀ files : gmap pystr (SnapshotData F),
       (∀ name, is_Some (files !! name) → glob_snapshot name = false) →
       load_latest_snapshot (Some files) = Ok None)
  ∧ (∀ files : gmap pystr (SnapshotData F),
       (∃ name, is_Some (files !! name) ∧ glob_snapshot name = true) →
       ∃ latest data,
         files !! latest = Some data
         ∧ glob_snapshot latest = true
         ∧ (∀ name, is_Some (files !! name) → glob_snapshot name = true →
              str_leb name latest = true)
         ∧ (Forall legal_item (items data) →
              ∃ loaded, load_latest_snapshot (Some files) = Ok (Some loaded)
                        ∧ Forall2 stored_as (items data) loaded)
         ∧ (¬ Forall legal_item (items data) →
              load_latest_snapshot (Some files) = Raise ValueError))
  ∧ (∀ data : ItemData F,
       ¬ legal_item data → _deserialize_item data = Raise ValueError)
  ∧ (∀ (data : ItemData F) (item : ProjectItem F),
       _deserialize_item data = Ok item ↔ stored_as data item).
Proof.
  split; [done|]. split; [apply load_latest_snapshot_no_files|]. split; [|split].
  - intros files Hsome.
    destruct (load_latest_snapshot_latest files Hsome)
      as (latest & data & Hl & Hg & Hmax & Hload).
    exists latest, data. repeat split; try done.
    + intros Hlegal. rewrite Hload.
      destruct (mapM_deserialize_cases (items data)) as [[_ [loaded Hm]]|[Hn _]];
        [|done].
      exists loaded. rewrite Hm. split; [done|]. by apply mapM_deserialize_stored.
    + intros Hillegal. rewrite Hload.
      by destruct (mapM_deserialize_cases (items data)) as [[? _]|[_ ->]].
  - intros data Hillegal.
    by destruct (_deserialize_item_cases data) as [[? _]|[_ ->]].
  - apply _deserialize_item_stored.
Qed.

(** *** Writing a snapshot *)

Lemma utf8_app (a b : pystr) : utf8 (a ++ b) = utf8 a && utf8 b.
Proof. apply forallb_app. Qed.

Lemma utf8_zfill (width : nat) (n : Z) : utf8 (zfill width n) = true.
Proof.
  revert n. induction width as [|w IH]; intros n; [done|].
  simpl. rewrite utf8_app, IH. simpl. rewrite andb_true_r.
  pose proof (Z.mod_pos_bound n 10). unfold surrogate.
  apply negb_true_iff, andb_false_iff. left. apply N.leb_gt. lia.
Qed.

Lemma utf8_isoformat (t : datetime) : utf8 (isoformat t ++ lit "Z") = true.
Proof.
  unfold isoformat. rewrite !utf8_app, !utf8_zfill.
  destruct (microsecond t =? 0); [done|].
  by rewrite utf8_app, utf8_zfill.
Qed.

Lemma item_utf8_serialize (item : ProjectItem F) :
  item_utf8 (_serialize_item item) = encodable item.
Proof.
  unfold item_utf8, encodable. cbn [_serialize_item d_id d_title d_status d_priority
    d_assignees d_estimate_hours d_labels d_url d_repository d_issue_number d_others].
  assert (py_utf8 (F := F) (VStr (Status_value (status item))) = true) as ->
    by by destruct (status item).
  assert (py_utf8 (F := F) (VStr (Priority_value (priority item))) = true) as ->
    by by destruct (priority item).
  cbn [py_utf8 forallb]. by rewrite !andb_true_r.
Qed.

(** The write succeeds exactly when every item is encodable. *)
Lemma json_dump_serialize (now : datetime) (items : list (ProjectItem F)) :
  json_dump {| timestamp := isoformat now ++ lit "Z";
               snapshot.items := _serialize_item <$> items |}
  = if all_encodable items then Ok () else Raise UnicodeEncodeError.
Proof.
  unfold json_dump, all_encodable. cbn [timestamp snapshot.items].
  rewrite utf8_isoformat. cbn [andb].
  assert (forallb item_utf8 (_serialize_item <$> items) = forallb encodable items) as ->;
    [|done].
  induction items as [|item items IH]; [done|].
  rewrite fmap_cons. cbn [forallb]. by rewrite item_utf8_serialize, IH.
Qed.

Lemma save_snapshot_returns (now : datetime) (items : list (ProjectItem F))
    (snapshot_dir : directory F) :
  all_encodable items = true →
  save_snapshot now items snapshot_dir
  = Ok (strftime_snapshot now,
        Some (<[strftime_snapshot now :=
                  {| timestamp := isoformat now ++ lit "Z";
                     snapshot.items := _serialize_item <$> items |}]>
                (default ∅ snapshot_dir))).
Proof.
  intros Henc. unfold save_snapshot. cbv zeta.
  by rewrite json_dump_serialize, Henc.
Qed.

Lemma save_snapshot_raises (now : datetime) (items : list (ProjectItem F))
    (snapshot_dir : directory F) :
  all_encodable items = false →
  save_snapshot now items snapshot_dir = Raise UnicodeEncodeError.
Proof.
  intros Henc. unfold save_snapshot. cbv zeta.
  by rewrite json_dump_serialize, Henc.
Qed.

Lemma save_snapshot_Ok (now : datetime) (items : list (ProjectItem F))
    (snapshot_dir : directory F) (r : pystr * directory F) :
  save_snapshot now items snapshot_dir = Ok r →
  all_encodable items = true
  ∧ r.1 = strftime_snapshot now
  ∧ r.2 = Some (<[strftime_snapshot now :=
                    {| timestamp := isoformat now ++ lit "Z";
                       snapshot.items := _serialize_item <$> items |}]>
                  (default ∅ snapshot_dir)).
Proof.
  intros Hsave. destruct (all_encodable items) eqn:Henc.
  - rewrite save_snapshot_returns in Hsave by done. by injection Hsave as <-.
  - by rewrite save_snapshot_raises in Hsave.
Qed.

Lemma load_after_save_greatest (now : datetime) (items : list (ProjectItem F))
    (snapshot_dir : directory F) :
  all_encodable items = true →
  (∀ files name,
     snapshot_dir = Some files → is_Some (files !! name) → glob_snapshot name = true →
     str_leb name (strftime_snapshot now) = true) →
  ∃ saved,
    save_snapshot now items snapshot_dir = Ok (strftime_snapshot now, saved)
    ∧ load_latest_snapshot saved = Ok (Some items).
Proof.
  intros Henc Hlatest. rewrite save_snapshot_returns by done.
  eexists. split; [done|].
  set (filename := strftime_snapshot now).
  set (data := {| timestamp := isoformat now ++ lit "Z";
                  items := _serialize_item <$> items |}).
  set (files := default ∅ snapshot_dir).
  destruct (load_latest_snapshot_latest (<[filename := data]> files))
    as (latest & ldata & Hl & Hg & Hmax & ->).
  { exists filename. rewrite lookup_insert_eq. split; [by eexists|].
    apply glob_snapshot_strftime. }
  assert (latest = filename) as ->.
  { apply str_leb_antisym.
    - destruct (decide (latest = filename)) as [->|Hne]; [apply str_leb_refl|].
      rewrite lookup_insert_ne in Hl by done. unfold files in Hl.
      destruct snapshot_dir as [files0|]; simpl in Hl; [|by rewrite lookup_empty in Hl].
      apply (Hlatest files0); [done|by eexists|done].
    - apply Hmax; [|apply glob_snapshot_strftime].
      rewrite lookup_insert_eq. by eexists. }
  rewrite lookup_insert_eq in Hl. injection Hl as <-. simpl.
  by rewrite mapM_deserialize_serialize.
Qed.

Lemma after_saves_cons (save : datetime * list (ProjectItem F))
    (saves : list (datetime * list (ProjectItem F))) (snapshot_dir : directory F) :
  after_saves (save :: saves) snapshot_dir
  = save_snapshot save.1 save.2 snapshot_dir ≫= λ r, after_saves saves r.2.
Proof.
  unfold after_saves. cbn [foldl mbind except_bind].
  destruct (save_snapshot save.1 save.2 snapshot_dir) as [r|e]; [done|].
  cbn [fmap except_fmap]. induction saves as [|s saves IH]; [done|]. apply IH.
Qed.

(** Saves of encodable items all return. *)
Lemma after_saves_returns (saves : list (datetime * list (ProjectItem F)))
    (snapshot_dir : directory F) :
  Forall (λ save, all_encodable save.2 = true) saves →
  ∃ files, after_saves saves snapshot_dir = Ok (Some files) ∨
           (saves = [] ∧ after_saves saves snapshot_dir = Ok snapshot_dir).
Proof.
  revert snapshot_dir. induction saves as [|save saves IH]; intros snapshot_dir Hsaves.
  - exists ∅. by right.
  - apply Forall_cons in Hsaves as [Hsave Hsaves].
    rewrite after_saves_cons, save_snapshot_returns by done. cbn [mbind except_bind snd].
    destruct (IH (Some (<[strftime_snapshot save.1 :=
                            {| timestamp := isoformat save.1 ++ lit "Z";
                               snapshot.items := _serialize_item <$> save.2 |}]>
                          (default ∅ snapshot_dir))) Hsaves)
      as [files [Hf|[-> Hf]]]; eauto.
Qed.

(** The files of a directory written by a sequence of saves carry the
    names of those saves. *)
Lemma after_saves_names (saves : list (datetime * list (ProjectItem F)))
    (snapshot_dir : directory F) files name :
  after_saves saves snapshot_dir = Ok (Some files) → is_Some (files !! name) →
  (∃ files0, snapshot_dir = Some files0 ∧ is_Some (files0 !! name))
  ∨ ∃ save, save ∈ saves ∧ name = strftime_snapshot save.1.
Proof.
  revert snapshot_dir.
  induction saves as [|save saves IH]; intros snapshot_dir Hdir Hname.
  - injection Hdir as ->. left. eauto.
  - rewrite after_saves_cons in Hdir.
    destruct (save_snapshot save.1 save.2 snapshot_dir) as [[path saved]|e] eqn:Hsave;
      [|done].
    cbn [mbind except_bind snd] in Hdir.
    destruct (IH _ Hdir Hname) as [(files0 & Hfiles0 & Hn)|(save' & Hin & ->)].
    + apply save_snapshot_Ok in Hsave as (_ & _ & Hsaved). cbn [snd] in Hsaved.
      rewrite Hsaved in Hfiles0. apply (inj Some) in Hfiles0. subst files0.
      destruct (decide (name = strftime_snapshot save.1)) as [->|Hne].
      * right. exists save. split; [left|done].
      * left. rewrite lookup_insert_ne in Hn by done.
        destruct snapshot_dir as [files1|]; simpl in Hn; [eauto|].
        rewrite lookup_empty in Hn. by destruct Hn.
    + right. exists save'. split; [by right|done].
Qed.

(** C5, as the code has it.  The clock shows a year of four digits, and
    no string of the items holds a surrogate, so that the snapshot can be
    written as UTF-8.  When no file named like a snapshot in the directory
    has a name greater than the name of the file being written, saving the
    list of items returns, and loading the latest snapshot then returns
    that list: the same items, field for field, in the same order.  This is
    so, in particular, in a directory written only by earlier saves of such
    items when the clock, read to the second, has not gone back since. *)
Theorem save_then_load_latest (now : datetime) (items : list (ProjectItem F)) :
  calendar now →
  all_encodable items = true →
  (∀ snapshot_dir : directory F,
     (∀ files name,
        snapshot_dir = Some files → is_Some (files !! name) → glob_snapshot name = true →
        str_leb name (strftime_snapshot now) = true) →
     ∃ saved,
       save_snapshot now items snapshot_dir = Ok (strftime_snapshot now, saved)
       ∧ load_latest_snapshot saved = Ok (Some items))
  ∧ (∀ saves : list (datetime * list (ProjectItem F)),
       Forall (λ save, calendar save.1 ∧ all_encodable save.2 = true
                       ∧ to_the_second save.1 ≤ to_the_second now) saves →
       ∃ before saved,
         after_saves saves None = Ok before
         ∧ save_snapshot now items before = Ok (strftime_snapshot now, saved)
         ∧ load_latest_snapshot saved = Ok (Some items)).
Proof.
  intros Hnow Henc. split; [intros snapshot_dir; by apply load_after_save_greatest|].
  intros saves Hsaves.
  assert (∃ before, after_saves saves None = Ok before) as [before Hbefore].
  { destruct (after_saves_returns saves None) as [files [Hf|[_ Hf]]]; eauto.
    eapply Forall_impl; [exact Hsaves|]. by intros save (_ & ? & _). }
  destruct (load_after_save_greatest now items before Henc) as (saved & Hsave & Hload).
  - intros files name -> Hname _.
    destruct (after_saves_names saves None files name Hbefore Hname)
      as [(files0 & [=] & _)|(save & Hin & ->)].
    rewrite Forall_forall in Hsaves. destruct (Hsaves save Hin) as (Hr & _ & Hle).
    apply strftime_snapshot_mono; [by apply calendar_in_range..|done].
  - by exists before, saved.
Qed.

End StoreProperties.

(** ** The properties on the sample data *)

Section Samples.
Import models processor snapshot samples.

(** The garbled Fire value reads as Fire. *)
Lemma parse_item_priority_witness :
  ∃ item, parse_item raw_corrupted = Ok item ∧ priority item = FIRE.
Proof.
  destruct (parse_item_priority raw_corrupted) as [Hval Htot].
  destruct Htot as [item Hitem]; [exact I|exact I|].
  exists item. split; [exact Hitem|].
  destruct (Hval item Hitem) as (_ & Hrec & _).
  rewrite (Hrec corrupted_fire eq_refl); [reflexivity|].
  intros []; vm_compute; discriminate.
Defined.

(** Lengths are counted in code points: "P" followed by U+00E9 has length
    2 and reads as P2; "InvalidPriority" does not start with "P". *)
Example parse_item_short_and_invalid :
  priority <$> parse_item (raw (Some (VStr [80; 233]%N)) None) = Ok P2
  ∧ priority <$> parse_item (raw (Some (VStr (lit "InvalidPriority"))) None) = Ok P2
  ∧ priority <$> parse_item (raw (Some (VStr (lit "P-URGENT"))) None) = Ok FIRE
  ∧ priority <$> parse_item (raw (Some VNone) None) = Ok P2
  ∧ priority <$> parse_item (raw None None) = Ok P2.
Proof. repeat split. Qed.

(** C1, at a record the code gets wrong.  The priority of
    [raw_numeric_priority] is the number 5: it is the value of no member
    of the enumeration, and it is no string that starts with "P" and has
    more than two characters, so that the rule of the recovery gives P2,
    the default for an invalid priority.  [parse_item] gives no item: it
    raises [AttributeError] where it asks the number for [startswith].
    The values that are false do get P2, the number 0 and [None] among
    them, as does a string that names no member; and the status, which is
    read in the same way, falls back to Backlog on the number 5. *)
Theorem parse_item_priority_number :
  raw_priority raw_numeric_priority = Some (VInt 5)
  ∧ parse_item raw_numeric_priority = Raise AttributeError
  ∧ priority <$> parse_item (raw (Some (VInt 0)) None) = Ok P2
  ∧ priority <$> parse_item (raw (Some VNone) None) = Ok P2
  ∧ priority <$> parse_item (raw (Some (VStr (lit "5"))) None) = Ok P2
  ∧ status <$> parse_item raw_numeric_status = Ok BACKLOG.
Proof. repeat split. Qed.

(** C3, at records the code gets wrong.  At a record whose priority is the
    number 5 [parse_item] raises [AttributeError] and returns no item, and
    so it does at a record whose content is [null]: it does not return an
    item for every record. *)
Theorem parse_item_raises :
  parse_item raw_numeric_priority = Raise AttributeError
  ∧ parse_item raw_null_content = Raise AttributeError
  ∧ ¬ (∀ r : RawItem float, ∃ item, parse_item r = Ok item).
Proof.
  split; [reflexivity|]. split; [reflexivity|].
  intros Hall. destruct (Hall raw_numeric_priority) as [item Hitem]. discriminate Hitem.
Qed.

(** A record that is parsed and one that is not. *)
Lemma parse_item_returns_iff_witness :
  (∃ item, parse_item raw_corrupted = Ok item)
  ∧ parse_item raw_numeric_priority = Raise AttributeError.
Proof.
  destruct (parse_item_returns_iff raw_corrupted) as ([_ Hto] & _).
  destruct (parse_item_returns_iff raw_numeric_priority) as (_ & Hraise).
  split.
  - apply Hto. split; exact I.
  - apply Hraise. intros [Hp _]. vm_compute in Hp. discriminate Hp.
Defined.

(** The sums on three items, one of them with two assignees. *)
Lemma calculate_metrics_sums_witness :
  let m := calculate_metrics three_items in
  total_items m = 3
  ∧ planned_count m + unplanned_count m = total_items m
  ∧ group_sizes (items_by_status m) = total_items m
  ∧ group_sizes (items_by_priority m) = total_items m
  ∧ total_items m ≤ group_sizes (items_by_assignee m).
Proof.
  destruct (calculate_metrics_sums three_items) as (Ht & Hp & _ & _ & Hs & Hpr & Ha & _).
  - discriminate.
  - repeat split; assumption.
Defined.

(** The example of the specification: 3 items, 1 unplanned, 33.3 % each. *)
Example calculate_metrics_three_items :
  let m := calculate_metrics three_items in
  total_items m = 3
  ∧ unplanned_count m = 1
  ∧ unplanned_percentage m = 33.3%float
  ∧ completion_percentage m = 33.3%float.
Proof. vm_compute. repeat split. Qed.

(** The example of the specification: two items went to Done, none was
    added, two statuses changed; an item only in the previous snapshot
    changes nothing. *)
Lemma compare_snapshots_contract_witness :
  let r := compare_snapshots current_two (Some previous_two) in
  items_completed r = 2
  ∧ items_added r = 0
  ∧ len (status_changes r) = 2
  ∧ items_completed r = Z.of_nat (size (completed_ids current_two previous_two))
  ∧ compare_snapshots current_two (Some [item "1" IN_PROGRESS P1 []; item "2" TODO P1 []])
    = compare_snapshots current_two
        (Some [item "1" IN_PROGRESS P1 []; item "7" DONE P0 []; item "2" TODO P1 []]).
Proof.
  destruct (compare_snapshots_contract current_two) as [_ Hsome].
  destruct (Hsome previous_two) as (Hc & Ha & Hs & Hids & _).
  destruct (Hsome [item "1" IN_PROGRESS P1 []; item "7" DONE P0 []; item "2" TODO P1 []])
    as (_ & _ & _ & _ & Hrem).
  destruct Hids as (Hcid & _).
  { apply (bool_decide_unpack _). vm_compute. exact I. }
  split; [rewrite Hc; reflexivity|].
  split; [rewrite Ha; vm_compute; reflexivity|].
  split; [rewrite Hs; reflexivity|].
  split; [exact Hcid|].
  apply (Hrem [item "1" IN_PROGRESS P1 []] [item "2" TODO P1 []] (item "7" DONE P0 []));
    [reflexivity|].
  apply (bool_decide_unpack _). vm_compute. exact I.
Defined.

(** Item "1", listed twice, is completed twice; item "9", new and listed
    twice, is added once. *)
Lemma compare_snapshots_duplicate_ids_witness :
  let r := compare_snapshots current_duplicated (Some previous_two) in
  items_completed r = 2
  ∧ items_added r = 1
  ∧ items_completed (compare_snapshots current_two (Some previous_two))
    = Z.of_nat (size (completed_ids current_two previous_two)).
Proof.
  destruct (compare_snapshots_duplicate_ids current_duplicated previous_two)
    as (Hc & _ & Ha & _).
  destruct (compare_snapshots_duplicate_ids current_two previous_two)
    as (_ & _ & _ & _ & _ & _ & Hnd).
  destruct Hnd as (_ & Hcid & _).
  { apply (bool_decide_unpack _). vm_compute. exact I. }
  split; [rewrite Hc; reflexivity|].
  split; [rewrite Ha; vm_compute; reflexivity|].
  exact Hcid.
Defined.

(** No directory, and a directory with one snapshot, which holds the two
    items that are returned. *)
Lemma load_latest_snapshot_contract_witness :
  load_latest_snapshot (F := float) None = Ok None
  ∧ load_latest_snapshot (Some files_0130) = Ok (Some current_two).
Proof.
  destruct (load_latest_snapshot_contract (F := float)) as (Hnone & _ & Hsome & _).
  split; [exact Hnone|].
  destruct (Hsome files_0130) as (latest & data & Hl & _ & _ & Hlegal & _).
  - exists (strftime_snapshot at_0130). split; [|reflexivity].
    eexists. vm_compute. reflexivity.
  - assert (Hfiles : files_0130
                     = {[ strftime_snapshot at_0130 :=
                            {| timestamp := isoformat at_0130 ++ lit "Z";
                               items := _serialize_item <$> current_two |} ]})
      by (vm_compute; reflexivity).
    rewrite Hfiles in Hl. apply lookup_singleton_Some in Hl as [_ <-].
    destruct Hlegal as (loaded & Hload & Hstored).
    + repeat constructor; by eexists DONE || by eexists P1.
    + rewrite Hload. apply stored_as_serialized in Hstored. by rewrite Hstored.
Defined.

(** The heuristic of the parser is not applied to stored data: the garbled
    Fire value that [parse_item] reads as Fire is rejected by
    [_deserialize_item]. *)
Example _deserialize_item_garbled :
  _deserialize_item
    {| d_id := lit "1"; d_title := VStr (lit "Task");
       d_status := VStr (lit "Todo"); d_priority := VStr corrupted_fire;
       d_assignees := []; d_estimate_hours := None; d_labels := VList [];
       d_url := VStr (lit ""); d_repository := VStr (lit "");
       d_issue_number := VNone; d_others := [] |}
  = Raise (A := ProjectItem float) ValueError.
Proof. reflexivity. Qed.

(** Two earlier saves, then a save at a later clock reading. *)
Lemma save_then_load_latest_witness :
  ∃ before saved,
    after_saves [(at_0050, current_two); (at_0110, previous_two)] None = Ok before
    ∧ save_snapshot at_0130 three_items before = Ok (strftime_snapshot at_0130, saved)
    ∧ load_latest_snapshot saved = Ok (Some three_items).
Proof.
  refine (proj2 (save_then_load_latest at_0130 three_items _ _) _ _).
  - vm_compute. repeat split; discriminate.
  - reflexivity.
  - repeat constructor; vm_compute; discriminate.
Defined.

(** Against C5 as stated.  In a directory that holds a snapshot named for
    01:30:00, with the clock reading 01:10:00 of the same day, the save
    returns and what is loaded afterwards is the older list.  And a list
    with an item whose title holds a lone surrogate is not saved at all:
    the write raises [UnicodeEncodeError]. *)
Lemma save_then_load_latest_older :
  (∃ saved,
     save_snapshot at_0110 three_items (dir_with at_0130 current_two)
     = Ok (strftime_snapshot at_0110, saved)
     ∧ load_latest_snapshot saved = Ok (Some current_two)
     ∧ load_latest_snapshot saved ≠ Ok (Some three_items))
  ∧ save_snapshot at_0110 [lone_surrogate] None = Raise UnicodeEncodeError.
Proof.
  split; [|reflexivity].
  eexists. split; [vm_compute; reflexivity|].
  assert (Hload : ∀ saved : directory float,
            load_latest_snapshot saved = Ok (Some current_two) →
            load_latest_snapshot saved = Ok (Some current_two)
            ∧ load_latest_snapshot saved ≠ Ok (Some three_items)).
  { intros saved Hs. split; [exact Hs|]. rewrite Hs. discriminate. }
  apply Hload. vm_compute. reflexivity.
Qed.

End Samples.

(** * Further properties *)

(** ** Item parser: the status, and lists of records *)

Section ParserMore.
Context {F : Type} `{PyFloat F}.
Import models processor.

Lemma status_block_member st : status_block (F := F) (VStr (Status_value st)) = Ok st.
Proof. by destruct st. Qed.

Lemma status_block_no_member (v : pyval F) :
  (∀ st, v ≠ VStr (Status_value st)) → status_block v = Ok BACKLOG.
Proof.
  intros Hno. unfold status_block.
  destruct (Status_call_cases v) as [(st & -> & _)|[_ ->]]; [by destruct (Hno st)|done].
Qed.

(** X1.  Whenever [parse_item] returns an item, its status is the member
    whose value the ['status'] entry holds, and Backlog in every other
    case: the key is missing, or holds a string that is the value of no
    member, or holds something that is not a string. *)
Theorem parse_item_status (r : RawItem F) (item : ProjectItem F) :
  parse_item r = Ok item →
  (∀ st, raw_status r = Some (VStr (Status_value st)) → status item = st)
  ∧ ((∀ st, raw_status r ≠ Some (VStr (Status_value st))) → status item = BACKLOG).
Proof.
  intros (st & p & d & Hst & _ & _ & ->)%parse_item_Ok. simpl. split.
  - intros st' Hr. rewrite Hr in Hst. simpl in Hst.
    rewrite status_block_member in Hst. congruence.
  - intros Hno. destruct (raw_status r) as [v|] eqn:Hv; simpl in Hst.
    + rewrite status_block_no_member in Hst; [congruence|].
      intros st' ->. by destruct (Hno st').
    + change (status_block (F := F) (VStr (Status_value BACKLOG)) = Ok st) in Hst.
      rewrite status_block_member in Hst. congruence.
Qed.

(** [parse_item] returns on a record of the right shape, and raises
    [AttributeError] on every other. *)
Lemma parse_item_cases (r : RawItem F) :
  (priority_is_text_or_false r ∧ content_is_object r ∧ ∃ item, parse_item r = Ok item)
  ∨ (¬ (priority_is_text_or_false r ∧ content_is_object r)
     ∧ parse_item r = Raise AttributeError).
Proof.
  unfold priority_is_text_or_false, content_is_object, parse_item.
  fold (priority_block (get (raw_priority r) (VStr (lit "P2")))).
  destruct (status_block_total (get (raw_status r) (VStr (lit "Backlog"))))
    as [st Hst]. unfold status_block in Hst. rewrite Hst. simpl.
  destruct (raw_priority r) as [v|]; simpl.
  - destruct (py_truth v) eqn:Ht.
    + destruct v;
        try (right; rewrite priority_block_true_not_str by done; split; [|done];
             by intros [[=] _]).
      destruct (priority_block_str_total s) as [p ->]. simpl.
      destruct (raw_content r) as [[]|]; simpl; try (right; split; [by intros [_ []]|done]);
        left; eauto.
    + destruct v;
        try (rewrite priority_block_false by done; simpl;
             destruct (raw_content r) as [[]|]; simpl;
             try (right; split; [by intros [_ []]|done]); left; by eauto).
      destruct (priority_block_str_total s) as [p ->]. simpl.
      destruct (raw_content r) as [[]|]; simpl; try (right; split; [by intros [_ []]|done]);
        left; eauto.
  - destruct (raw_content r) as [[]|]; simpl; try (right; split; [by intros [_ []]|done]);
      left; eauto.
Qed.

(** X2.  [parse_items] returns exactly when [parse_item] returns on every
    record, with one item per record, in the order of the records; one
    record on which [parse_item] raises makes [parse_items] raise, and no
    item of the other records is returned. *)
Theorem parse_items_all_or_nothing (raws : list (RawItem F)) :
  (Forall (λ r, priority_is_text_or_false r ∧ content_is_object r) raws →
     ∃ items, parse_items raws = Ok items
              ∧ Forall2 (λ r item, parse_item r = Ok item) raws items)
  ∧ (¬ Forall (λ r, priority_is_text_or_false r ∧ content_is_object r) raws →
       parse_items raws = Raise AttributeError).
Proof.
  unfold parse_items. induction raws as [|r raws [IHok IHno]].
  - split; [|intros []; constructor]. intros _. exists []. by split.
  - split.
    + intros [Hr Hraws]%Forall_cons.
      destruct (parse_item_cases r) as [(_ & _ & [item Hitem])|[Hn _]]; [|done].
      destruct (IHok Hraws) as (items & Hitems & Hall).
      exists (item :: items). simpl. rewrite Hitem. simpl. rewrite Hitems. simpl.
      split; [done|]. by constructor.
    + intros Hno. simpl.
      destruct (parse_item_cases r) as [(Hp & Hc & [item ->])|[_ ->]]; [|done].
      simpl. rewrite IHno; [done|]. intros Hraws. apply Hno. by constructor.
Qed.

End ParserMore.

(** ** Groups and counters *)

Section GroupingMore.
Context {I : Type}.
Implicit Types (grouped : gmap pystr (list I)) (k : pystr) (item : I).

Lemma extend_nil (g : option (list I)) : extend g [] = g.
Proof. destruct g; simpl; [by rewrite app_nil_r|done]. Qed.

Lemma extend_extend (g : option (list I)) l1 l2 :
  extend (extend g l1) l2 = extend g (l1 ++ l2).
Proof.
  destruct g as [l|], l1, l2; simpl; rewrite ?app_nil_r, <- ?app_assoc; done.
Qed.

Lemma extend_None (l : list I) : extend None l = group_of l.
Proof. by destruct l. Qed.

Lemma append_to_lookup grouped k' item k :
  append_to grouped k' item !! k
  = extend (grouped !! k) (if decide (k' = k) then [item] else []).
Proof.
  rewrite append_to_insert. destruct (decide (k' = k)) as [->|Hne].
  - rewrite lookup_insert_eq. by destruct (grouped !! k).
  - rewrite lookup_insert_ne by done. by rewrite extend_nil.
Qed.

Lemma group_single_lookup (key : I → pystr) items grouped k :
  foldl (λ grouped item, append_to grouped (key item) item) grouped items !! k
  = extend (grouped !! k) (filter (λ item, key item = k) items).
Proof.
  revert grouped. induction items as [|x items IH]; intros grouped; simpl.
  - by rewrite extend_nil.
  - rewrite IH, append_to_lookup, extend_extend, filter_cons.
    by destruct (decide (key x = k)).
Qed.

Lemma group_names_lookup (names : list pystr) item grouped k :
  foldl (λ grouped name, append_to grouped name item) grouped names !! k
  = extend (grouped !! k) ((λ _, item) <$> filter (λ name, name = k) names).
Proof.
  revert grouped. induction names as [|x names IH]; intros grouped; simpl.
  - by rewrite extend_nil.
  - rewrite IH, append_to_lookup, extend_extend, filter_cons.
    by destruct (decide (x = k)).
Qed.

End GroupingMore.

Section MetricsMore.
Context {F : Type} `{PyFloat F}.
Import models processor.
Implicit Types (items : list (ProjectItem F)) (k : pystr).

Lemma group_by_status_groups items k :
  group_by_status items !! k
  = group_of (filter (λ item, Status_value (status item) = k) items).
Proof.
  unfold group_by_status. by rewrite group_single_lookup, lookup_empty, extend_None.
Qed.

Lemma group_by_priority_groups items k :
  group_by_priority items !! k
  = group_of (filter (λ item, Priority_value (priority item) = k) items).
Proof.
  unfold group_by_priority. by rewrite group_single_lookup, lookup_empty, extend_None.
Qed.

(** X3.  [group_by_status] files every item under the value of its status
    and [group_by_priority] under the value of its priority: the group of
    a key holds exactly the items with that value, in the order of the
    input, and a value that no item has is not a key. *)
Theorem group_by_status_priority_lookup items k :
  group_by_status items !! k
  = group_of (filter (λ item, Status_value (status item) = k) items)
  ∧ group_by_priority items !! k
    = group_of (filter (λ item, Priority_value (priority item) = k) items).
Proof. split; [apply group_by_status_groups|apply group_by_priority_groups]. Qed.

Lemma group_by_assignee_lookup_from items grouped k :
  foldl (λ grouped item,
           match assignees item with
           | [] => append_to grouped (lit "Unassigned") item
           | _ => foldl (λ grouped assignee, append_to grouped assignee item)
                    grouped (assignees item)
           end) grouped items !! k
  = extend (grouped !! k) (items ≫= filed_under k).
Proof.
  revert grouped. induction items as [|x items IH]; intros grouped; simpl.
  - by rewrite extend_nil.
  - rewrite IH. unfold filed_under at 2. destruct (assignees x) as [|a names] eqn:Hx.
    + rewrite append_to_lookup, extend_extend.
      destruct (decide (lit "Unassigned" = k)) as [<-|Hne].
      * by rewrite decide_True.
      * by rewrite decide_False.
    + by rewrite group_names_lookup, extend_extend.
Qed.

Lemma group_by_assignee_groups items k :
  group_by_assignee items !! k = group_of (items ≫= filed_under k).
Proof.
  unfold group_by_assignee.
  by rewrite group_by_assignee_lookup_from, lookup_empty, extend_None.
Qed.

(** X4.  [group_by_assignee] files an item without assignees once under
    "Unassigned", and an item with assignees once under each of them, as
    many times as the name occurs in its list.  The group of a key holds
    these entries in the order of the input; a name with no entry is not
    a key. *)
Theorem group_by_assignee_lookup items k :
  group_by_assignee items !! k = group_of (items ≫= filed_under k).
Proof. apply group_by_assignee_groups. Qed.

Lemma count_cond_status (st : Status) items :
  sum_ones (λ item, bool_decide (status item = st)) items = count_status st items.
Proof.
  rewrite sum_ones_filter. unfold count_status. f_equal.
  apply list_filter_iff. intros item. apply bool_decide_eq_true.
Qed.

(** Every item has one of the six statuses. *)
Lemma count_status_total items :
  len items
  = count_status BACKLOG items + count_status TODO items + count_status PENDING items
    + count_status IN_PROGRESS items + count_status IN_REVIEW items
    + count_status DONE items.
Proof.
  unfold count_status. induction items as [|x items IH]; [done|].
  rewrite !filter_cons, len_cons, IH.
  destruct (status x); simpl; rewrite ?len_cons; lia.
Qed.

Lemma count_active items :
  len (filter (λ item, status item ≠ BACKLOG) items) = len items - count_status BACKLOG items.
Proof.
  unfold count_status. induction items as [|x items IH]; [done|].
  rewrite !filter_cons, len_cons.
  destruct (status x); simpl; rewrite ?len_cons; lia.
Qed.

Lemma len_filter_filter_le {A} (P Q : A → Prop) `{∀ x, Decision (P x)}
    `{∀ x, Decision (Q x)} (l : list A) :
  len (filter P (filter Q l)) ≤ len (filter P l).
Proof.
  induction l as [|x l IH]; [done|]. rewrite !filter_cons.
  destruct (decide (Q x)), (decide (P x)); rewrite ?filter_cons;
    repeat case_decide; rewrite ?len_cons; try done; lia.
Qed.

Lemma len_filter_le {A} (P : A → Prop) `{∀ x, Decision (P x)} (l : list A) :
  0 ≤ len (filter P l) ≤ len l.
Proof. unfold len. pose proof (length_filter P l). lia. Qed.

(** X5.  The counters of [calculate_metrics] count statuses: Todo, Pending,
    In Progress and Done items are counted by the fields named for them;
    the active items are all but those in Backlog, that is the four
    counters and the items In Review together.  The Fire items among the
    Done ones are no more than the Done ones, the Fire items among the
    active ones no more than the Fire items or the active items, and the
    high-priority items not started no more than the items in Backlog or
    Todo. *)
Theorem calculate_metrics_status_counts items :
  let m := calculate_metrics items in
  todo_items m = count_status TODO items
  ∧ pending_items m = count_status PENDING items
  ∧ in_progress_items m = count_status IN_PROGRESS items
  ∧ done_active_items m = count_status DONE items
  ∧ active_items m = total_items m - count_status BACKLOG items
  ∧ active_items m
    = todo_items m + pending_items m + in_progress_items m
      + count_status IN_REVIEW items + done_active_items m
  ∧ 0 ≤ unplanned_done_count m ≤ done_active_items m
  ∧ 0 ≤ active_unplanned_count m ≤ unplanned_count m
  ∧ active_unplanned_count m ≤ active_items m ≤ total_items m
  ∧ 0 ≤ high_priority_not_started m
      ≤ count_status BACKLOG items + count_status TODO items.
Proof.
  destruct items as [|x items].
  { simpl. unfold count_status, len. simpl. lia. }
  set (l := x :: items). unfold calculate_metrics. fold l.
  unfold calculate_todo_count, calculate_done_active_count, calculate_unplanned_done_stats.
  set (done_list := filter (λ item, status item = DONE) l).
  set (active_list := filter (λ item, status item ≠ BACKLOG) l).
  assert (Hdone : len done_list = count_status DONE l) by done.
  assert (Hactive : len active_list = len l - count_status BACKLOG l) by apply count_active.
  pose proof (count_status_total l) as Htotal.
  pose proof (sum_ones_bounds (λ item, bool_decide (priority item = FIRE)) done_list) as Hb1.
  pose proof (sum_ones_bounds (λ item, negb (is_planned item)) active_list) as Hb2.
  pose proof (len_filter_filter_le (λ item, negb (is_planned item) = true)
                (λ item, status item ≠ BACKLOG) l) as Hb3.
  rewrite <- !sum_ones_filter in Hb3. fold active_list in Hb3.
  pose proof (len_filter_le (λ item, status item ≠ BACKLOG) l) as Hb4. fold active_list in Hb4.
  assert (Hhigh : 0 ≤ sum_ones (λ item, bool_decide (priority item ∈ [FIRE; P0])
                                        && bool_decide (status item ∈ [BACKLOG; TODO])) l
                  ≤ count_status BACKLOG l + count_status TODO l).
  { rewrite sum_ones_filter. unfold count_status. clear.
    induction l as [|y l IH]; [done|]. rewrite !filter_cons.
    destruct (status y) eqn:Hy; simpl;
      repeat case_decide; rewrite ?len_cons; try lia;
      match goal with
      | Hc : _ && _ = true |- _ =>
          apply andb_true_iff in Hc as [_ Hc]; apply bool_decide_eq_true in Hc;
          rewrite Hy in Hc; set_solver
      end. }
  destruct (len done_list =? 0) eqn:Hz; cbn zeta; simpl;
    rewrite !count_cond_status; repeat split; lia.
Qed.

Lemma Status_value_inj st1 st2 : Status_value st1 = Status_value st2 → st1 = st2.
Proof. destruct st1, st2; try done; vm_compute; discriminate. Qed.

Lemma Priority_value_inj p1 p2 : Priority_value p1 = Priority_value p2 → p1 = p2.
Proof. destruct p1, p2; try done; vm_compute; discriminate. Qed.

Lemma group_of_is_Some {I} (l : list I) (x : I) : x ∈ l → group_of l = Some l.
Proof. destruct l; [by intros ?%elem_of_nil|done]. Qed.

Lemma len_group_of {I} (l : list I) : len (default [] (group_of l)) = len l.
Proof. by destruct l. Qed.

Lemma calculate_metrics_counters items :
  let m := calculate_metrics items in
  todo_items m = count_status TODO items
  ∧ pending_items m = count_status PENDING items
  ∧ in_progress_items m = count_status IN_PROGRESS items
  ∧ done_active_items m = count_status DONE items
  ∧ unplanned_count m = len (filter (λ item, priority item = FIRE) items).
Proof.
  destruct items as [|x items]; [done|].
  set (l := x :: items). unfold calculate_metrics. fold l.
  unfold calculate_todo_count, calculate_done_active_count.
  destruct (calculate_unplanned_done_stats l). simpl.
  rewrite !count_cond_status. repeat split.
  rewrite sum_ones_filter. f_equal.
  apply list_filter_iff. intros item. unfold is_planned.
  rewrite negb_true_iff, negb_false_iff. apply bool_decide_eq_true.
Qed.

(** X6.  The groupings of [calculate_metrics] agree with its counters.  The
    group under the value of a status holds the items with that status,
    and the group under the value of a priority the items with that
    priority; no other key occurs.  So the groups "Todo", "Pending",
    "In Progress" and "Done" have the sizes [todo_items], [pending_items],
    [in_progress_items] and [done_active_items], and the group of Fire has
    the size [unplanned_count]. *)
Theorem calculate_metrics_groups_counters items :
  let m := calculate_metrics items in
  (∀ st, items_by_status m !! Status_value st
         = group_of (filter (λ item, status item = st) items))
  ∧ (∀ p, items_by_priority m !! Priority_value p
          = group_of (filter (λ item, priority item = p) items))
  ∧ (∀ k, is_Some (items_by_status m !! k) → ∃ st, k = Status_value st)
  ∧ (∀ k, is_Some (items_by_priority m !! k) → ∃ p, k = Priority_value p)
  ∧ len (default [] (items_by_status m !! lit "Todo")) = todo_items m
  ∧ len (default [] (items_by_status m !! lit "Pending")) = pending_items m
  ∧ len (default [] (items_by_status m !! lit "In Progress")) = in_progress_items m
  ∧ len (default [] (items_by_status m !! lit "Done")) = done_active_items m
  ∧ len (default [] (items_by_priority m !! Priority_value FIRE)) = unplanned_count m.
Proof.
  intros m.
  assert (Hst : items_by_status m = group_by_status items).
  { subst m. destruct items; [done|]. unfold calculate_metrics.
    by destruct (calculate_unplanned_done_stats _). }
  assert (Hpr : items_by_priority m = group_by_priority items).
  { subst m. destruct items; [done|]. unfold calculate_metrics.
    by destruct (calculate_unplanned_done_stats _). }
  assert (Hbs : ∀ st, items_by_status m !! Status_value st
                      = group_of (filter (λ item, status item = st) items)).
  { intros st. rewrite Hst.
    rewrite (group_by_status_groups items _). f_equal.
    apply list_filter_iff. intros item. split; [apply Status_value_inj|by intros ->]. }
  assert (Hbp : ∀ p, items_by_priority m !! Priority_value p
                     = group_of (filter (λ item, priority item = p) items)).
  { intros p. rewrite Hpr.
    rewrite (group_by_priority_groups items _). f_equal.
    apply list_filter_iff. intros item. split; [apply Priority_value_inj|by intros ->]. }
  destruct (calculate_metrics_counters items) as (Ht & Hp & Hi & Hd & Hu).
  fold m in Ht, Hp, Hi, Hd, Hu.
  split; [done|]. split; [done|]. split; [|split].
  - intros k. rewrite Hst, (group_by_status_groups items _).
    destruct (filter (λ item, Status_value (status item) = k) items) as [|x l] eqn:Hf;
      [by intros [? [=]]|]. intros _.
    assert (Hx : x ∈ filter (λ item, Status_value (status item) = k) items)
      by (rewrite Hf; left).
    apply list_elem_of_filter in Hx as [<- _]. eauto.
  - intros k. rewrite Hpr, (group_by_priority_groups items _).
    destruct (filter (λ item, Priority_value (priority item) = k) items) as [|x l] eqn:Hf;
      [by intros [? [=]]|]. intros _.
    assert (Hx : x ∈ filter (λ item, Priority_value (priority item) = k) items)
      by (rewrite Hf; left).
    apply list_elem_of_filter in Hx as [<- _]. eauto.
  - change (lit "Todo") with (Status_value TODO).
    change (lit "Pending") with (Status_value PENDING).
    change (lit "In Progress") with (Status_value IN_PROGRESS).
    change (lit "Done") with (Status_value DONE).
    rewrite !Hbs, Hbp, !len_group_of, Ht, Hp, Hi, Hd, Hu. repeat split.
Qed.

Lemma sum_ones_Permutation {A} (cond : A → bool) (l l' : list A) :
  l ≡ₚ l' → sum_ones cond l = sum_ones cond l'.
Proof. intros Hp. rewrite !sum_ones_filter. unfold len. by rewrite Hp. Qed.

Lemma len_Permutation {A} (l l' : list A) : l ≡ₚ l' → len l = len l'.
Proof. intros Hp. unfold len. by rewrite Hp. Qed.

Lemma group_of_Permutation {I} (l l' : list I) :
  l ≡ₚ l' → option_Forall2 (≡ₚ) (group_of l) (group_of l').
Proof.
  intros Hp. destruct l as [|x l], l' as [|y l']; try by constructor.
  - by apply Permutation_nil_cons in Hp.
  - symmetry in Hp. by apply Permutation_nil_cons in Hp.
Qed.

(** X7.  The order of the items does not matter to the numbers: on two
    lists that hold the same items in different orders, [calculate_metrics]
    gives the same counts and the same percentages, and groupings with
    the same keys and, under each key, the same items up to their order.
    (The total of the estimates is a sum of floats taken in the order of
    the list.) *)
Theorem calculate_metrics_permutation items items' :
  items ≡ₚ items' →
  let m := calculate_metrics items in
  let m' := calculate_metrics items' in
  same_numbers m m'
  ∧ same_groups_up_to_order (items_by_status m) (items_by_status m')
  ∧ same_groups_up_to_order (items_by_priority m) (items_by_priority m')
  ∧ same_groups_up_to_order (items_by_assignee m) (items_by_assignee m').
Proof.
  intros Hp.
  destruct items as [|x items], items' as [|y items'].
  - simpl. unfold same_numbers, same_groups_up_to_order. simpl.
    repeat split; intros; rewrite lookup_empty; constructor.
  - by apply Permutation_nil_cons in Hp.
  - symmetry in Hp. by apply Permutation_nil_cons in Hp.
  - set (l := x :: items) in *. set (l' := y :: items') in *.
    unfold calculate_metrics. fold l l'.
    unfold calculate_todo_count, calculate_done_active_count,
      calculate_unplanned_done_stats.
    assert (Hf : ∀ (P : ProjectItem F → Prop) `{∀ i, Decision (P i)},
              filter P l ≡ₚ filter P l') by (intros; by rewrite Hp).
    rewrite !(len_Permutation _ _ (Hf _ _)).
    rewrite !(sum_ones_Permutation _ _ _ (Hf _ _)).
    rewrite !(sum_ones_Permutation _ _ _ Hp), (len_Permutation _ _ Hp).
    destruct (len (filter _ l') =? 0); cbn zeta; unfold same_numbers; simpl;
      (split; [repeat split|]);
      (split; [|split]); intros k.
    all: try (rewrite !(group_by_status_groups _ _);
              apply group_of_Permutation, Hf).
    all: try (rewrite !(group_by_priority_groups _ _);
              apply group_of_Permutation, Hf).
    all: rewrite !group_by_assignee_groups; apply group_of_Permutation; by rewrite Hp.
Qed.

(** X8.  The colour of the high-priority figure, computed from the metrics
    of a list of items: green exactly when no Fire or P0 item is in Backlog
    or Todo, red exactly when more than five are, yellow in between. *)
Theorem get_high_priority_color_metrics items :
  let c := get_high_priority_color (high_priority_not_started (calculate_metrics items)) in
  (c = green ↔ Forall (λ item, ¬ waiting item) items)
  ∧ (c = red ↔ 5 < len (filter waiting items))
  ∧ (c = yellow ↔ 1 ≤ len (filter waiting items) ≤ 5).
Proof.
  assert (Hn : high_priority_not_started (calculate_metrics items)
               = len (filter waiting items)).
  { destruct items as [|x items]; [done|].
    unfold calculate_metrics. destruct (calculate_unplanned_done_stats _).
    cbn [high_priority_not_started]. rewrite sum_ones_filter. f_equal.
    apply list_filter_iff. intros item. unfold waiting.
    rewrite andb_true_iff, !bool_decide_eq_true. set_solver. }
  intros c. subst c. rewrite Hn. unfold get_high_priority_color.
  pose proof (len_nonneg (filter waiting items)) as Hpos.
  assert (Hz : len (filter waiting items) = 0 ↔ Forall (λ item, ¬ waiting item) items).
  { unfold len. rewrite Nat2Z.inj_iff with (m := O), length_zero_iff_nil.
    rewrite Forall_forall. split.
    - intros Hnil item Hin Hw.
      exact (filter_nil_not_elem_of _ _ item Hnil Hw Hin).
    - intros Hall. destruct (filter waiting items) as [|y l] eqn:Hf; [done|].
      assert (Hy : y ∈ filter waiting items) by (rewrite Hf; left).
      apply list_elem_of_filter in Hy as [Hw Hy]. by destruct (Hall y Hy). }
  rewrite <- Hz.
  destruct (Z.ltb_spec 5 (len (filter waiting items))),
    (Z.ltb_spec 0 (len (filter waiting items)));
    repeat split; intros; (discriminate || lia || reflexivity).
Qed.

End MetricsMore.

(** ** Enumerations *)

Section Enumerations.
Context {F : Type}.
Import models.

(** X9.  Calling an enumeration with the value of a member gives that
    member back, and with anything else raises [ValueError]: [Status(v)]
    is a member exactly when [v] is the string that is its value, and so
    is [Priority(v)].  No two members share a value. *)
Theorem Status_Priority_call_value (v : pyval F) :
  (∀ st, Status_call v = Ok st ↔ v = VStr (Status_value st))
  ∧ ((∀ st, v ≠ VStr (Status_value st)) → Status_call v = Raise ValueError)
  ∧ (∀ p, Priority_call v = Ok p ↔ v = VStr (Priority_value p))
  ∧ ((∀ p, v ≠ VStr (Priority_value p)) → Priority_call v = Raise ValueError).
Proof.
  split; [|split; [|split]].
  - intros st. destruct (Status_call_cases v) as [(st' & -> & Hst)|[Hno Hst]];
      rewrite Hst.
    + split; [by intros [= ->]|]. by intros [= ->%Status_value_inj].
    + split; [done|]. intros ->. by destruct (Hno st).
  - intros Hno. destruct (Status_call_cases v) as [(st & -> & _)|[_ Hst]]; [|done].
    by destruct (Hno st).
  - intros q. destruct (Priority_call_cases v) as [(q' & -> & Hq)|[Hno Hq]];
      rewrite Hq.
    + split; [by intros [= ->]|]. by intros [= ->%Priority_value_inj].
    + split; [done|]. intros ->. by destruct (Hno q).
  - intros Hno. destruct (Priority_call_cases v) as [(q & -> & _)|[_ Hq]]; [|done].
    by destruct (Hno q).
Qed.

End Enumerations.


(** ** File names and the snapshot store *)

Lemma zfill_inj w a b :
  0 ≤ a < 10 ^ Z.of_nat w → 0 ≤ b < 10 ^ Z.of_nat w → zfill w a = zfill w b → a = b.
Proof.
  intros Ha Hb Heq. destruct (Z.lt_trichotomy a b) as [Hlt|[?|Hlt]]; [|done|].
  - pose proof (zfill_lt w a b) as Hz. rewrite Heq, str_ltb_irrefl in Hz.
    discriminate Hz; lia.
  - pose proof (zfill_lt w b a) as Hz. rewrite Heq, str_ltb_irrefl in Hz.
    discriminate Hz; lia.
Qed.

Lemma strftime_snapshot_inj t1 t2 :
  in_range t1 → in_range t2 →
  strftime_snapshot t1 = strftime_snapshot t2 → shown t1 = shown t2.
Proof.
  unfold in_range, strftime_snapshot, shown.
  generalize (lit "snapshot-") (lit "-") (lit ".json"). intros pre dash suf.
  destruct t1 as [y1 m1 d1 h1 mi1 s1 u1], t2 as [y2 m2 d2 h2 mi2 s2 u2].
  cbn [year month day hour minute second].
  intros (Hy1 & Hm1 & Hd1 & Hh1 & Hmi1 & Hs1) (Hy2 & Hm2 & Hd2 & Hh2 & Hmi2 & Hs2) Heq.
  apply app_inv_head in Heq.
  apply app_inj_1 in Heq as [Hy Heq]; [|by rewrite !length_zfill].
  apply app_inj_1 in Heq as [Hm Heq]; [|by rewrite !length_zfill].
  apply app_inj_1 in Heq as [Hd Heq]; [|by rewrite !length_zfill].
  apply app_inv_head in Heq.
  apply app_inj_1 in Heq as [Hh Heq]; [|by rewrite !length_zfill].
  apply app_inj_1 in Heq as [Hmi Heq]; [|by rewrite !length_zfill].
  apply app_inj_1 in Heq as [Hs Heq]; [|by rewrite !length_zfill].
  apply zfill_inj in Hy, Hm, Hd, Hh, Hmi, Hs; simpl; try lia.
  by subst.
Qed.

Lemma shown_to_the_second t1 t2 :
  in_range t1 → in_range t2 →
  shown t1 = shown t2 ↔ to_the_second t1 = to_the_second t2.
Proof.
  unfold in_range, shown, to_the_second. intros H1 H2. split.
  - intros [= -> -> -> -> -> ->]. done.
  - intros Heq. assert (year t1 = year t2 ∧ month t1 = month t2 ∧ day t1 = day t2
      ∧ hour t1 = hour t2 ∧ minute t1 = minute t2 ∧ second t1 = second t2)
      as (-> & -> & -> & -> & -> & ->) by lia. done.
Qed.

Lemma strftime_snapshot_eq_iff t1 t2 :
  in_range t1 → in_range t2 →
  strftime_snapshot t1 = strftime_snapshot t2 ↔ shown t1 = shown t2.
Proof.
  intros H1 H2. split; [by apply strftime_snapshot_inj|].
  unfold shown, strftime_snapshot. by intros [= -> -> -> -> -> ->].
Qed.

(** X10.  The order of the file names is the order of the clock readings.
    For two readings with years of four digits: the name given at one is
    smaller than the name given at the other exactly when the first reading
    is earlier, to the second; the names are equal exactly when the
    readings agree in year, month, day, hour, minute and second; and a
    name has 29 characters. *)
Theorem strftime_snapshot_order (t1 t2 : datetime) :
  calendar t1 → calendar t2 →
  (str_ltb (strftime_snapshot t1) (strftime_snapshot t2) = true
   ↔ to_the_second t1 < to_the_second t2)
  ∧ (strftime_snapshot t1 = strftime_snapshot t2 ↔ shown t1 = shown t2)
  ∧ length (strftime_snapshot t1) = 29%nat.
Proof.
  intros H1%calendar_in_range H2%calendar_in_range.
  assert (Hinj : strftime_snapshot t1 = strftime_snapshot t2 ↔ shown t1 = shown t2)
    by by apply strftime_snapshot_eq_iff.
  split; [|split; [done|]].
  - split.
    + intros Hlt. destruct (Z.lt_ge_cases (to_the_second t1) (to_the_second t2)); [done|].
      pose proof (strftime_snapshot_mono t2 t1 H2 H1) as Hle.
      unfold str_leb in Hle. rewrite Hlt in Hle. discriminate Hle. lia.
    + intros Hlt.
      pose proof (strftime_snapshot_mono t1 t2 H1 H2) as Hle.
      unfold str_leb in Hle.
      destruct (str_ltb_trichotomy (strftime_snapshot t1) (strftime_snapshot t2))
        as [?|[Heq|Hgt]]; [done| |].
      * apply Hinj, shown_to_the_second in Heq; [lia|done..].
      * rewrite Hgt in Hle. discriminate Hle. lia.
  - unfold strftime_snapshot. rewrite !length_app, !length_zfill. reflexivity.
Qed.

Section StoreMore.
Context {F : Type} `{PyFloat F}.
Import models snapshot.

(** X11.  [_serialize_item] and [_deserialize_item] are inverse to each
    other on items: a serialized item is deserialized to the item it came
    from, so two items with the same serialization are equal.  Data is
    deserialized to an item exactly when, under the ten keys that are read,
    it holds the fields of that item, the status and the priority by their
    values; what it holds under other keys changes nothing. *)
Theorem _deserialize_item_inverse (item : ProjectItem F) (data : ItemData F) :
  _deserialize_item (_serialize_item item) = Ok item
  ∧ (_deserialize_item data = Ok item ↔ stored_as data item)
  ∧ (∀ others,
       _deserialize_item
         {| d_id := d_id data; d_title := d_title data; d_status := d_status data;
            d_priority := d_priority data; d_assignees := d_assignees data;
            d_estimate_hours := d_estimate_hours data; d_labels := d_labels data;
            d_url := d_url data; d_repository := d_repository data;
            d_issue_number := d_issue_number data; d_others := others |}
       = _deserialize_item data)
  ∧ (∀ item', _serialize_item item' = _serialize_item item → item' = item).
Proof.
  split; [apply _deserialize_serialize|]. split; [apply _deserialize_item_stored|].
  split; [done|].
  intros item' Heq.
  pose proof (_deserialize_serialize item') as H1. rewrite Heq in H1.
  rewrite _deserialize_serialize in H1. congruence.
Qed.


Lemma load_latest_snapshot_determined (files1 files2 : gmap pystr (SnapshotData F))
    latest data :
  files1 !! latest = Some data → files2 !! latest = Some data →
  glob_snapshot latest = true →
  (∀ name, is_Some (files1 !! name) → glob_snapshot name = true →
     str_leb name latest = true) →
  (∀ name, is_Some (files2 !! name) → glob_snapshot name = true →
     str_leb name latest = true) →
  load_latest_snapshot (Some files1) = load_latest_snapshot (Some files2).
Proof.
  intros Hl1 Hl2 Hg Hmax1 Hmax2.
  assert (Hload : ∀ files : gmap pystr (SnapshotData F),
            files !! latest = Some data →
            (∀ name, is_Some (files !! name) → glob_snapshot name = true →
               str_leb name latest = true) →
            load_latest_snapshot (Some files)
            = Some <$> mapM _deserialize_item (snapshot.items data)).
  { intros files Hl Hmax.
    destruct (load_latest_snapshot_latest files) as (l & d & Hld & Hlg & Hlmax & ->).
    { exists latest. split; [by eexists|done]. }
    assert (l = latest) as ->.
    { apply str_leb_antisym; [apply Hmax; eauto|apply Hlmax; eauto]. }
    congruence. }
  by rewrite (Hload files1), (Hload files2).
Qed.

(** X13.  [load_latest_snapshot] looks at one file only.  Writing or
    deleting a file whose name is not that of a snapshot, or is smaller
    than the name of a snapshot in the directory, changes nothing in what
    is loaded, whatever the file holds. *)
Theorem load_latest_snapshot_ignores (files : gmap pystr (SnapshotData F))
    (name : pystr) :
  glob_snapshot name = false
  ∨ (∃ later, is_Some (files !! later) ∧ glob_snapshot later = true
              ∧ str_ltb name later = true) →
  (∀ data, load_latest_snapshot (Some (<[name := data]> files))
           = load_latest_snapshot (Some files))
  ∧ load_latest_snapshot (Some (delete name files)) = load_latest_snapshot (Some files).
Proof.
  intros Hname.
  assert (Hcases : (∀ n, is_Some (files !! n) → glob_snapshot n = false)
                   ∨ ∃ n, is_Some (files !! n) ∧ glob_snapshot n = true).
  { destruct (filter (λ p : pystr * SnapshotData F, glob_snapshot p.1 = true)
                (map_to_list files)) as [|[n d] l] eqn:Hf.
    - left. intros n [d Hn]. destruct (glob_snapshot n) eqn:Hg; [|done].
      assert (Hin : (n, d) ∈ filter (λ p : pystr * SnapshotData F, glob_snapshot p.1 = true)
                      (map_to_list files)).
      { apply list_elem_of_filter. split; [done|]. by apply elem_of_map_to_list. }
      rewrite Hf in Hin. by apply elem_of_nil in Hin.
    - right. exists n.
      assert (Hin : (n, d) ∈ filter (λ p : pystr * SnapshotData F, glob_snapshot p.1 = true)
                      (map_to_list files)) by (rewrite Hf; left).
      apply list_elem_of_filter in Hin as [Hg Hin]. apply elem_of_map_to_list in Hin.
      split; [by eexists|done]. }
  destruct Hcases as [Hnone|Hsome].
  - (* no snapshot at all: [name] is not one either *)
    destruct Hname as [Hg|(later & Hl & Hg & _)]; [|by rewrite Hnone in Hg].
    rewrite (load_latest_snapshot_no_files files) by done. split.
    + intros data. apply load_latest_snapshot_no_files. intros n Hn.
      destruct (decide (n = name)) as [->|Hne]; [done|].
      rewrite lookup_insert_ne in Hn by done. by apply Hnone.
    + apply load_latest_snapshot_no_files. intros n Hn.
      destruct (decide (n = name)) as [->|Hne]; [done|].
      rewrite lookup_delete_ne in Hn by done. by apply Hnone.
  - destruct (load_latest_snapshot_latest files Hsome)
      as (latest & ldata & Hl & Hg & Hmax & _).
    assert (Hne : name ≠ latest).
    { intros ->. destruct Hname as [Hn|(later & Hlater & Hlg & Hlt)]; [congruence|].
      pose proof (Hmax later Hlater Hlg) as Hle. unfold str_leb in Hle.
      by rewrite Hlt in Hle. }
    assert (Hle : glob_snapshot name = true → str_leb name latest = true).
    { intros Hng. destruct Hname as [Hn|(later & Hlater & Hlg & Hlt)]; [congruence|].
      eapply str_leb_trans; [by apply str_ltb_leb|by apply Hmax]. }
    split.
    + intros data. apply (load_latest_snapshot_determined _ _ latest ldata); try done.
      * by rewrite lookup_insert_ne.
      * intros n Hn Hng. destruct (decide (n = name)) as [->|Hnn]; [by apply Hle|].
        rewrite lookup_insert_ne in Hn by done. by apply Hmax.
    + apply (load_latest_snapshot_determined _ _ latest ldata); try done.
      * by rewrite lookup_delete_ne.
      * intros n Hn Hng. destruct (decide (n = name)) as [->|Hnn]; [by apply Hle|].
        rewrite lookup_delete_ne in Hn by done. by apply Hmax.
Qed.

End StoreMore.

(** ** Snapshot differencer: bounds and edge cases *)

Section DifferencerMore.
Context {F : Type}.
Import models snapshot.
Implicit Types (items current previous : list (ProjectItem F)) (k : pystr).

Lemma omap_all_None {A B} (f : A → option B) (l : list A) :
  (∀ x, x ∈ l → f x = None) → omap f l = [].
Proof.
  induction l as [|x l IH]; intros Hf; [done|]. csimpl.
  rewrite Hf by left. apply IH. intros. apply Hf. by right.
Qed.

Lemma filter_none {A} (P : A → Prop) `{∀ x, Decision (P x)} (l : list A) :
  (∀ x, x ∈ l → ¬ P x) → filter P l = [].
Proof.
  induction l as [|x l IH]; intros Hf; [done|].
  rewrite filter_cons_False by (apply Hf; left). apply IH. intros. apply Hf. by right.
Qed.

Lemma len_filter_impl {A} (P Q : A → Prop) `{∀ x, Decision (P x)} `{∀ x, Decision (Q x)}
    (l : list A) :
  (∀ x, P x → Q x) → len (filter P l) ≤ len (filter Q l).
Proof.
  intros HPQ. induction l as [|x l IH]; [done|]. rewrite !filter_cons.
  destruct (decide (P x)) as [HP|HP], (decide (Q x)) as [HQ|HQ];
    rewrite ?len_cons; try lia. by destruct HQ; apply HPQ.
Qed.

Lemma len_filter_split {A} (P : A → Prop) `{∀ x, Decision (P x)} (l : list A) :
  len (filter P l) + len (filter (λ x, ¬ P x) l) = len l.
Proof.
  induction l as [|x l IH]; [done|]. rewrite !filter_cons, len_cons.
  destruct (decide (P x)), (decide (¬ P x)); rewrite ?len_cons; try lia; tauto.
Qed.

(** X14.  A list of items with distinct identifiers compared with itself
    shows no change: nothing completed, nothing added, no status changed.
    Nothing is added even when identifiers repeat. *)
Theorem compare_snapshots_self items :
  items_added (compare_snapshots items (Some items)) = 0
  ∧ (NoDup (id <$> items) →
       compare_snapshots items (Some items)
       = {| items_completed := 0; items_added := 0; status_changes := [] |}).
Proof.
  rewrite compare_snapshots_Some. cbn [items_added].
  assert (Hadded : Z.of_nat (size (ids items ∖ ids items)) = 0).
  { replace (ids items ∖ ids items) with (∅ : gset pystr) by set_solver.
    by rewrite size_empty. }
  split; [done|]. intros Hnd. rewrite Hadded. f_equal.
  - rewrite filter_none; [done|]. intros item Hitem. unfold completed.
    rewrite lookup_id_NoDup by done.
    destruct (bool_decide (status item = DONE)); simpl; congruence.
  - apply omap_all_None. intros item Hitem. unfold status_change.
    rewrite lookup_id_NoDup by done. by rewrite bool_decide_eq_true_2.
Qed.

(** X15.  What [compare_snapshots] reports is bounded by what [current]
    holds.  Every completed item is also a status change; the status
    changes and the added items together are no more than the items of
    [current]; and every entry of the status changes names an item of
    [current], with its title and the value of its status, and a previous
    status that differs. *)
Theorem compare_snapshots_bounds current (previous : option (list (ProjectItem F))) :
  let r := compare_snapshots current previous in
  0 ≤ items_completed r ≤ len (status_changes r)
  ∧ 0 ≤ items_added r
  ∧ len (status_changes r) + items_added r ≤ len current
  ∧ Forall (λ change,
              c_from_status change ≠ c_to_status change
              ∧ ∃ item, item ∈ current ∧ c_id change = id item
                        ∧ c_title change = title item
                        ∧ c_to_status change = Status_value (status item))
      (status_changes r).
Proof.
  destruct previous as [previous|]; [|simpl; unfold len; simpl; repeat split; (lia || done)].
  intros r. subst r. rewrite compare_snapshots_Some.
  cbn [items_completed items_added status_changes].
  set (changed := λ item : ProjectItem F,
                    match lookup_id previous (id item) with
                    | Some p => negb (bool_decide (status p = status item))
                    | None => false
                    end = true).
  assert (Hlen : len (omap (status_change previous) current) = len (filter changed current)).
  { unfold len. by rewrite status_changes_length. }
  rewrite Hlen. split; [|split; [lia|split]].
  - split; [apply len_nonneg|]. apply len_filter_impl. intros item.
    unfold completed, changed. destruct (lookup_id previous (id item)) as [p|]; [|done].
    rewrite andb_true_iff, !negb_true_iff, bool_decide_eq_true, !bool_decide_eq_false.
    intros [Hp Hi]. congruence.
  - pose proof (new_ids_le current previous) as Hnew.
    pose proof (len_filter_split (λ item, id item ∈ ids previous) current) as Hsplit.
    assert (len (filter changed current)
            ≤ len (filter (λ item, id item ∈ ids previous) current)).
    { apply len_filter_impl. intros item. unfold changed.
      destruct (lookup_id previous (id item)) as [p|] eqn:Hp; [|done]. intros _.
      apply lookup_id_is_Some. by rewrite Hp. }
    unfold len in *. lia.
  - apply Forall_forall. intros change Hchange.
    apply list_elem_of_omap in Hchange as (item & Hitem & Hchange).
    unfold status_change in Hchange.
    destruct (lookup_id previous (id item)) as [p|]; [|done].
    case_bool_decide as Hst; [done|]. injection Hchange as <-. simpl. split.
    + intros Heq%Status_value_inj. done.
    + exists item. done.
Qed.

(** X16.  An empty previous snapshot is not the absence of one: against
    [None] nothing is reported, against the empty list every identifier of
    [current] is reported as added (and nothing as completed or
    changed). *)
Theorem compare_snapshots_empty_previous current :
  compare_snapshots current (Some [])
  = {| items_completed := 0;
       items_added := Z.of_nat (size (ids current));
       status_changes := [] |}
  ∧ (current ≠ [] → 0 < items_added (compare_snapshots current (Some []))
                    ∧ items_added (compare_snapshots current None) = 0).
Proof.
  rewrite compare_snapshots_Some. split.
  - f_equal.
    + by rewrite filter_none.
    + do 2 f_equal. unfold ids at 2. set_solver.
    + by apply omap_all_None.
  - intros Hne. split; [|done]. cbn [items_added].
    destruct current as [|item current]; [done|].
    assert (size (ids (item :: current) ∖ ids (F := F) []) ≠ 0%nat); [|lia].
    intros Hz%size_empty_iff.
    assert (Hin : id item ∈ ids (item :: current) ∖ ids (F := F) [])
      by (rewrite ids_cons; unfold ids at 2; set_solver).
    rewrite Hz in Hin. set_solver.
Qed.

End DifferencerMore.

(** ** Date filter *)

Example iso_examples :
  Iso8601.parse (lit "2025-01-31")
  = Some {| Iso8601.fields := (2025, 1, 31, 0, 0, 0); Iso8601.utcoffset := None |}
  ∧ Iso8601.parse (lit "2025-01-15T10:30:00+00:00")
    = Some {| Iso8601.fields := (2025, 1, 15, 10, 30, 0); Iso8601.utcoffset := Some 0 |}
  ∧ Iso8601.parse (lit "2025-02-29") = None
  ∧ Iso8601.parse (lit "2024-02-29T23:59:59-05:30")
    = Some {| Iso8601.fields := (2024, 2, 29, 23, 59, 59); Iso8601.utcoffset := Some (-330) |}
  ∧ Iso8601.days_from_civil 1970 1 1 = 0
  ∧ Iso8601.days_from_civil 2025 1 31 = 20119.
Proof. vm_compute. repeat split. Qed.

Section FilterProperties.
Context {F : Type} `{PyFloat F} {D : Type} `{PyDatetime D}.
Import models_v2 processor_v2.
Implicit Types (items kept : list (ProjectItemV2 F)) (item : ProjectItemV2 F)
  (start_date end_date : option pystr) (date_field : DateField).

(** The loop, from any list gathered so far. *)
Lemma filter_step_from start_date end_date date_field filtered item :
  filter_step start_date end_date date_field filtered item
  = (filtered ++.) <$> filter_step start_date end_date date_field [] item.
Proof.
  unfold filter_step.
  destruct (py_truth (getattr item date_field)); simpl; [|by rewrite app_nil_r].
  destruct (py_replace _ _ _) as [text|]; simpl; [|done].
  destruct (fromisoformat text) as [item_date|]; simpl; [|done].
  destruct (match start_date with Some (c :: s) => _ | _ => _ end) as [[]|];
    simpl; [by rewrite app_nil_r| |done].
  destruct (match end_date with Some (c :: s) => _ | _ => _ end) as [[]|];
    simpl; [by rewrite app_nil_r|done|done].
Qed.

(** One item is dropped, kept, or makes the function raise; an item that
    is kept has a date. *)
Lemma filter_step_cases start_date end_date date_field item :
  filter_step start_date end_date date_field [] item = Ok []
  ∨ (filter_step start_date end_date date_field [] item = Ok [item]
     ∧ py_truth (getattr item date_field) = true)
  ∨ ∃ e, filter_step start_date end_date date_field [] item = Raise e.
Proof.
  unfold filter_step.
  destruct (py_truth (getattr item date_field)); simpl; [|by left].
  destruct (py_replace _ _ _) as [text|]; simpl; [|by right; right; eexists].
  destruct (fromisoformat text) as [item_date|]; simpl; [|by right; right; eexists].
  destruct (match start_date with Some (c :: s) => _ | _ => _ end) as [[]|];
    simpl; [by left| |by right; right; eexists].
  destruct (match end_date with Some (c :: s) => _ | _ => _ end) as [[]|];
    simpl; [by left|by right; left|by right; right; eexists].
Qed.

Lemma filter_step_no_date start_date end_date date_field item :
  py_truth (getattr item date_field) = false →
  filter_step start_date end_date date_field [] item = Ok [].
Proof. intros Hd. unfold filter_step. by rewrite Hd. Qed.

Lemma filter_fold_from start_date end_date date_field items
    (acc : except (list (ProjectItemV2 F))) :
  foldl (λ filtered item,
           filtered ≫= λ filtered, filter_step start_date end_date date_field filtered item)
    acc items
  = acc ≫= λ filtered,
      (filtered ++.) <$>
        foldl (λ filtered item,
                 filtered ≫= λ filtered,
                   filter_step start_date end_date date_field filtered item)
          (Ok []) items.
Proof.
  revert acc. induction items as [|item items IH]; intros acc.
  - simpl. destruct acc; simpl; [by rewrite app_nil_r|done].
  - simpl. rewrite IH. rewrite (IH (filter_step _ _ _ _ _)).
    destruct acc as [filtered|]; simpl; [|done].
    rewrite filter_step_from.
    destruct (filter_step start_date end_date date_field [] item) as [l|]; simpl; [|done].
    destruct (foldl _ _ items) as [l'|]; simpl; [|done].
    by rewrite app_assoc.
Qed.

(** With a bound given, the loop takes the items one by one. *)
Lemma filter_by_date_range_cons start_date end_date date_field item items :
  opt_str_truth start_date = true ∨ opt_str_truth end_date = true →
  filter_by_date_range (item :: items) start_date end_date date_field
  = l ← filter_step start_date end_date date_field [] item;
    l' ← filter_by_date_range items start_date end_date date_field;
    Ok (l ++ l').
Proof.
  intros Hb. unfold filter_by_date_range.
  assert (negb (opt_str_truth start_date) && negb (opt_str_truth end_date) = false) as ->
    by (destruct Hb as [-> | ->]; simpl; [done|apply andb_false_r]).
  simpl. rewrite filter_fold_from.
  destruct (filter_step _ _ _ _ _) as [l|]; simpl; [|done].
  by destruct (foldl _ _ items).
Qed.

Lemma filter_by_date_range_nil start_date end_date date_field :
  filter_by_date_range (D := D) [] start_date end_date date_field = Ok [].
Proof. unfold filter_by_date_range. by destruct (_ && _). Qed.

(** X17.  [filter_by_date_range] selects, it does not reorder.  With no
    bound ([None] or the empty string for both) the list is returned as it
    is, items without a date included, and nothing raises.  With a bound,
    what is returned is a sub-sequence of the items, each with a date in
    the chosen field; an item whose date is [None] or empty is dropped
    whatever the bounds are, so that a list in which no item has the date
    gives the empty list even when a bound is malformed. *)
Theorem filter_by_date_range_selects items start_date end_date date_field :
  (opt_str_truth start_date = false → opt_str_truth end_date = false →
     filter_by_date_range (D := D) items start_date end_date date_field = Ok items)
  ∧ (∀ kept,
       filter_by_date_range (D := D) items start_date end_date date_field = Ok kept →
       sublist kept items
       ∧ (opt_str_truth start_date = true ∨ opt_str_truth end_date = true →
            Forall (λ item, py_truth (getattr item date_field) = true) kept))
  ∧ (opt_str_truth start_date = true ∨ opt_str_truth end_date = true →
       Forall (λ item, py_truth (getattr item date_field) = false) items →
       filter_by_date_range (D := D) items start_date end_date date_field = Ok []).
Proof.
  split; [|split].
  - intros Hs He. unfold filter_by_date_range. by rewrite Hs, He.
  - destruct (opt_str_truth start_date) eqn:Hs; [|destruct (opt_str_truth end_date) eqn:He].
    3: { intros kept. unfold filter_by_date_range. rewrite Hs, He. simpl.
         intros [= <-]. split; [done|]. by intros [|]. }
    all: assert (Hb : opt_str_truth start_date = true ∨ opt_str_truth end_date = true)
           by (rewrite ?Hs, ?He; auto);
         rewrite ?Hs, ?He in Hb;
         induction items as [|item items IH]; intros kept;
         [rewrite filter_by_date_range_nil; intros [= <-]; by split|];
         rewrite filter_by_date_range_cons by (rewrite ?Hs, ?He; auto);
         destruct (filter_step_cases start_date end_date date_field item)
           as [-> | [[-> Hd] | [e ->]]]; simpl; [| |done];
         (destruct (filter_by_date_range items _ _ _) as [l'|]; simpl; [|done]);
         intros [= <-]; destruct (IH l' eq_refl) as [Hsub Hall].
    + split; [by apply sublist_cons|done].
    + split; [by apply sublist_skip|]. intros _. constructor; [done|by apply Hall].
    + split; [by apply sublist_cons|done].
    + split; [by apply sublist_skip|]. intros _. constructor; [done|by apply Hall].
  - intros Hb. induction 1 as [|item items Hd _ IH].
    + apply filter_by_date_range_nil.
    + rewrite filter_by_date_range_cons by done.
      rewrite filter_step_no_date by done. simpl. by rewrite IH.
Qed.

Lemma filter_by_date_range_singleton start_date end_date date_field item :
  opt_str_truth start_date = true ∨ opt_str_truth end_date = true →
  filter_by_date_range [item] start_date end_date date_field
  = filter_step start_date end_date date_field [] item.
Proof.
  intros Hb. rewrite filter_by_date_range_cons by done.
  rewrite filter_by_date_range_nil.
  destruct (filter_step _ _ _ _ _); simpl; [by rewrite app_nil_r|done].
Qed.

(** X18.  Filtering composes.  Two lists can be filtered apart and the
    results appended: filtering their concatenation returns that, and
    raises when one of the two does.  Filtering again what was returned,
    with the same bounds, returns it unchanged. *)
Theorem filter_by_date_range_composes items1 items2 start_date end_date date_field :
  filter_by_date_range (D := D) (items1 ++ items2) start_date end_date date_field
  = (l1 ← filter_by_date_range items1 start_date end_date date_field;
     l2 ← filter_by_date_range items2 start_date end_date date_field;
     Ok (l1 ++ l2))
  ∧ (∀ kept,
       filter_by_date_range (D := D) items1 start_date end_date date_field = Ok kept →
       filter_by_date_range kept start_date end_date date_field = Ok kept).
Proof.
  destruct (negb (opt_str_truth start_date) && negb (opt_str_truth end_date)) eqn:Hnb.
  { unfold filter_by_date_range. rewrite Hnb. simpl. split; [done|]. by intros kept [= <-]. }
  assert (Hb : opt_str_truth start_date = true ∨ opt_str_truth end_date = true).
  { destruct (opt_str_truth start_date); [by left|].
    destruct (opt_str_truth end_date); [by right|done]. }
  assert (Happ : ∀ l1 l2,
            filter_by_date_range (D := D) (l1 ++ l2) start_date end_date date_field
            = (k1 ← filter_by_date_range l1 start_date end_date date_field;
               k2 ← filter_by_date_range l2 start_date end_date date_field;
               Ok (k1 ++ k2))).
  { intros l1 l2. induction l1 as [|item l1 IH].
    - rewrite filter_by_date_range_nil. simpl. by destruct (filter_by_date_range l2 _ _ _).
    - rewrite <- app_comm_cons, !filter_by_date_range_cons, IH by done.
      destruct (filter_step _ _ _ _ _) as [l|]; simpl; [|done].
      destruct (filter_by_date_range l1 _ _ _) as [k1|]; simpl; [|done].
      destruct (filter_by_date_range l2 _ _ _) as [k2|]; simpl; [|done].
      by rewrite app_assoc. }
  split; [apply Happ|].
  induction items1 as [|item items IH]; intros kept.
  - rewrite filter_by_date_range_nil. intros [= <-]. apply filter_by_date_range_nil.
  - rewrite filter_by_date_range_cons by done.
    destruct (filter_step_cases start_date end_date date_field item)
      as [Hstep | [[Hstep Hd] | [e Hstep]]]; rewrite Hstep; simpl; [| |done];
      (destruct (filter_by_date_range items _ _ _) as [l'|]; simpl; [|done]);
      intros [= <-]; [by apply IH|].
    rewrite filter_by_date_range_cons, Hstep by done. simpl.
    by rewrite (IH l' eq_refl).
Qed.

End FilterProperties.


(** ** Configuration and renderers *)

Lemma lstrip_nil_iff s : lstrip s = [] ↔ Forall (λ c, isspace c = true) s.
Proof.
  induction s as [|c s IH]; simpl; [by split|].
  destruct (isspace c) eqn:Hc.
  - rewrite IH. split; [by constructor|by intros [_ ?]%Forall_cons].
  - split; [done|]. intros [Hc' _]%Forall_cons. congruence.
Qed.

Lemma lstrip_head s c s' : lstrip s = c :: s' → isspace c = false.
Proof.
  induction s as [|d s IH]; simpl; [done|].
  destruct (isspace d) eqn:Hd; [done|]. by intros [= <- _].
Qed.

(** Stripping leaves nothing exactly when every character is white
    space. *)
Lemma strip_nil_iff s : strip s = [] ↔ Forall (λ c, isspace c = true) s.
Proof.
  unfold strip. rewrite <- (reverse_involutive []), (inj_iff reverse). simpl.
  rewrite reverse_nil, lstrip_nil_iff, Forall_reverse. split.
  - intros Hall. apply lstrip_nil_iff.
    destruct (lstrip s) as [|c s'] eqn:Hs; [done|].
    apply lstrip_head in Hs. apply Forall_cons in Hall as [Hc _]. congruence.
  - intros Hall%lstrip_nil_iff. by rewrite Hall.
Qed.

Section ConfigProperties.
Context {F : Type} `{PyFloat F} `{PyFloatOrd F}.
Import config.

Lemma empty_false_iff (v : pyval F) : empty v = Ok false ↔ has_text v.
Proof.
  unfold empty, has_text. split.
  - destruct v; simpl; try (by repeat case_match).
    case_bool_decide as Hs; simpl; [done|]. case_bool_decide as Hstrip; simpl; [done|].
    intros _.
    assert (Hex : Exists (λ c, isspace c ≠ true) s).
    { apply not_Forall_Exists; [apply _|]. by rewrite <- strip_nil_iff. }
    apply Exists_exists in Hex as (c & Hc & Hsp).
    exists s, c. split; [done|]. split; [done|]. by destruct (isspace c).
  - intros (s & c & -> & Hc & Hsp). simpl.
    rewrite bool_decide_eq_false_2 by (intros ->; by apply elem_of_nil in Hc). simpl.
    rewrite bool_decide_eq_false_2; [done|].
    rewrite strip_nil_iff, Forall_forall. intros Hall. specialize (Hall c Hc). congruence.
Qed.

Lemma empty_str (s : pystr) : ∃ b, empty (F := F) (VStr s) = Ok b.
Proof. unfold empty. simpl. destruct (negb _); simpl; eauto. Qed.

Lemma py_le_zero_false_iff (v : pyval F) : py_le_zero v = Ok false ↔ is_positive v.
Proof.
  unfold py_le_zero, is_positive. destruct v; try (split; [done|tauto]).
  - destruct b; split; done.
  - split; [intros [= Hz%Z.leb_gt]; lia|]. intros Hz. f_equal. apply Z.leb_gt. lia.
  - split; congruence.
Qed.

Lemma py_not_in_false_iff (v : pyval F) : py_not_in v valid_formats = false ↔ is_format v.
Proof.
  unfold py_not_in, is_format. destruct v; try (split; [done|by intros (? & [=] & _)]).
  rewrite negb_false_iff, bool_decide_eq_true. split; [eauto|]. by intros (? & [= <-] & ?).
Qed.

Lemma message_format :
  lit "format must be one of: " ++ join (lit ", ") valid_formats
  = lit "format must be one of: html, md, csv, json".
Proof. reflexivity. Qed.

Lemma validate_Valid_iff (self : Config F) :
  validate self = Valid
  ↔ has_text (owner self) ∧ is_positive (project_number self)
    ∧ is_format (default_format self) ∧ has_text (output_directory self).
Proof.
  unfold validate.
  rewrite <- !empty_false_iff, <- py_le_zero_false_iff, <- py_not_in_false_iff.
  destruct (empty (owner self)) as [[]|]; simpl; try (split; [done|by intros [[=] _]]).
  destruct (py_le_zero (project_number self)) as [[]|]; simpl;
    try (split; [done|by intros (_ & [=] & _)]).
  destruct (py_not_in (default_format self) valid_formats); simpl;
    try (split; [done|by intros (_ & _ & [=] & _)]).
  destruct (empty (output_directory self)) as [[]|]; simpl;
    try (split; [done|by intros (_ & _ & _ & [=])]).
Qed.

(** X19.  [validate] returns exactly when the owner and the output directory
    are strings with a character that is not white space, the project
    number is positive, and the format is one of html, md, csv and json.
    When it raises [ConfigValidationError], the message is one of four.
    On a configuration whose fields have the declared types it raises
    nothing else. *)
Theorem validate_cases (self : Config F) :
  (validate self = Valid
   ↔ has_text (owner self) ∧ is_positive (project_number self)
     ∧ is_format (default_format self) ∧ has_text (output_directory self))
  ∧ (∀ message, validate self = ConfigValidationError message → message ∈ messages)
  ∧ (well_typed self → ∀ e, validate self ≠ Error e).
Proof.
  split; [apply validate_Valid_iff|].
  unfold validate. rewrite message_format. split.
  - intros message. unfold messages.
    destruct (empty (owner self)) as [[]|]; simpl; [intros [= <-]; set_solver| |done].
    destruct (py_le_zero (project_number self)) as [[]|]; simpl;
      [intros [= <-]; set_solver| |done].
    destruct (py_not_in (default_format self) valid_formats); simpl;
      [intros [= <-]; set_solver|].
    destruct (empty (output_directory self)) as [[]|]; simpl;
      [intros [= <-]; set_solver|done|done].
  - intros ([o Ho] & [n Hn] & [f Hf] & [d Hd]) e. rewrite Ho, Hn, Hf, Hd.
    destruct (empty_str o) as [bo ->]. destruct (empty_str d) as [bd ->].
    simpl. destruct bo; [done|]. destruct (n <=? 0); [done|].
    destruct (negb _); [done|]. by destruct bd.
Qed.

(** X20.  [Config.load] returns exactly when the file is missing, cannot
    be read, or holds a JSON object.  A missing or unreadable file gives
    the defaults, and the defaults pass [validate].  From an object it
    takes each of the four entries that is present, whatever its type, and
    the default for each that is absent.  A file that holds any other JSON
    value makes it raise [AttributeError]. *)
Theorem load_cases (config_file : ConfigFile F) :
  ((∃ loaded, load config_file = Ok loaded)
   ↔ ∀ v, config_file = Holds v → ∃ d, v = VDict d)
  ∧ (config_file = Absent ∨ config_file = Unreadable → load config_file = Ok Config_defaults)
  ∧ validate Config_defaults = Valid
  ∧ (∀ d, config_file = Holds (VDict d) →
       load config_file
       = Ok {| owner := entry d "owner" (VStr (lit "TechBurst-Pro"));
               project_number := entry d "project_number" (VInt 2);
               default_format := entry d "default_format" (VStr (lit "html"));
               output_directory := entry d "output_directory" (VStr (lit "reports")) |})
  ∧ (∀ v, config_file = Holds v → (∀ d, v ≠ VDict d) →
       load config_file = Raise AttributeError).
Proof.
  split; [|split; [by intros [-> | ->]|]]; [|split; [reflexivity|split]].
  - split.
    + intros [loaded Hloaded] v ->. destruct v; try done. eauto.
    + intros Hobj. destruct config_file as [| |v]; simpl; eauto.
      destruct (Hobj v eq_refl) as [d ->]. simpl. eauto.
  - by intros d ->.
  - intros v -> Hv. destruct v; try done. by destruct (Hv d).
Qed.

End ConfigProperties.

Section RendererProperties.
Context {F : Type} `{PyFloat F} `{PyFloatOrd F}.
Import config main.

(** X21.  [get_renderer] knows exactly the formats [validate] accepts: it
    returns a renderer for html, md, csv and json, and raises [ValueError]
    for every other string.  So the default format of a configuration that
    passed [validate] has a renderer. *)
Theorem get_renderer_formats (format_type : pystr) :
  ((∃ renderer, get_renderer format_type = Ok renderer) ↔ format_type ∈ valid_formats)
  ∧ (format_type ∉ valid_formats → get_renderer format_type = Raise ValueError)
  ∧ (∀ self : Config F,
       validate self = Valid →
       ∃ s renderer, default_format self = VStr s ∧ get_renderer s = Ok renderer).
Proof.
  assert (Hall : ∀ s, s ∈ valid_formats → ∃ r, get_renderer s = Ok r).
  { intros s Hs. unfold valid_formats in Hs.
    repeat (apply elem_of_cons in Hs as [->|Hs]; [by eexists|]).
    by apply elem_of_nil in Hs. }
  assert (Hno : format_type ∉ valid_formats → get_renderer format_type = Raise ValueError).
  { intros Hn. unfold get_renderer, renderers. simpl.
    do 4 (rewrite bool_decide_eq_false_2;
          [|intros <-; apply Hn; unfold valid_formats; set_solver]; simpl).
    done. }
  split; [|split; [done|]].
  - split; [|apply Hall]. intros [r Hr].
    destruct (decide (format_type ∈ valid_formats)) as [|Hn]; [done|].
    rewrite Hno in Hr by done. discriminate.
  - intros self Hvalid. apply validate_Valid_iff in Hvalid as (_ & _ & (s & Hs & Hin) & _).
    destruct (Hall s Hin) as [r Hr]. eauto.
Qed.

End RendererProperties.

(** ** The snapshot step of [main] *)

Section SortedFiles.
Context {A : Type}.
Implicit Types (p q : pystr * A) (l : list (pystr * A)).
Import snapshot main.

Lemma sorted_insert_Permutation p l : sorted_insert p l ≡ₚ p :: l.
Proof.
  induction l as [|q l IH]; simpl; [done|].
  destruct (str_ltb p.1 q.1); [done|]. rewrite IH. apply Permutation_swap.
Qed.

Lemma sorted_from_Permutation l acc :
  foldl (λ acc p, sorted_insert p acc) acc l ≡ₚ acc ++ l.
Proof.
  revert acc. induction l as [|p l IH]; intros acc; simpl; [by rewrite app_nil_r|].
  rewrite IH, sorted_insert_Permutation. apply Permutation_middle.
Qed.

Lemma sorted_Permutation l : sorted l ≡ₚ l.
Proof. unfold sorted. by rewrite sorted_from_Permutation. Qed.

Lemma name_lt_trans p q r : name_lt p q → name_lt q r → name_lt p r.
Proof. apply str_ltb_trans. Qed.

Lemma name_lt_asym p q : name_lt p q → name_lt q p → False.
Proof.
  unfold name_lt. intros Hpq Hqp.
  pose proof (str_ltb_trans _ _ _ Hpq Hqp) as Hpp. by rewrite str_ltb_irrefl in Hpp.
Qed.

Lemma sorted_insert_StronglySorted p l :
  p.1 ∉ l.*1 → StronglySorted name_lt l → StronglySorted name_lt (sorted_insert p l).
Proof.
  intros Hp Hl. induction Hl as [|q l Hl IH Hq]; simpl.
  - repeat constructor.
  - rewrite fmap_cons, not_elem_of_cons in Hp. destruct Hp as [Hpq Hp].
    destruct (str_ltb p.1 q.1) eqn:Hlt.
    + constructor; [by constructor|]. constructor; [done|].
      eapply Forall_impl; [done|]. intros r Hr. by eapply name_lt_trans.
    + constructor; [by apply IH|].
      rewrite sorted_insert_Permutation. constructor; [|done].
      unfold name_lt. destruct (str_ltb_trichotomy p.1 q.1) as [?|[?|?]]; [congruence|done..].
Qed.

Lemma sorted_from_StronglySorted l acc :
  NoDup (acc.*1 ++ l.*1) → StronglySorted name_lt acc →
  StronglySorted name_lt (foldl (λ acc p, sorted_insert p acc) acc l).
Proof.
  revert acc. induction l as [|p l IH]; intros acc Hnd Hacc; simpl; [done|].
  rewrite fmap_cons in Hnd. apply NoDup_app in Hnd as (Hacc_nd & Hdisj & Hl_nd).
  apply NoDup_cons in Hl_nd as [Hp Hl_nd].
  apply IH.
  - rewrite sorted_insert_Permutation, fmap_cons. simpl. constructor.
    + rewrite elem_of_app. intros [Hin|Hin]; [|done].
      apply (Hdisj p.1 Hin). left.
    + apply NoDup_app. split; [done|]. split; [|done].
      intros x Hx Hx'. apply (Hdisj x Hx). by right.
  - apply sorted_insert_StronglySorted; [|done].
    intros Hin. apply (Hdisj p.1 Hin). left.
Qed.

(** Files with distinct names have one ascending order. *)
Lemma sorted_unique l l' :
  NoDup l.*1 → l ≡ₚ l' → StronglySorted name_lt l' → sorted l = l'.
Proof.
  intros Hnd Hp Hl'. apply (StronglySorted_unique_strong name_lt).
  - intros x1 x2 _ _ H12 H21. destruct (name_lt_asym _ _ H12 H21).
  - apply sorted_from_StronglySorted; [done|constructor].
  - done.
  - by rewrite sorted_Permutation.
Qed.

Lemma StronglySorted_last l m :
  StronglySorted name_lt l → last l = Some m → ∀ p, p ∈ l → p = m ∨ name_lt p m.
Proof.
  intros Hl. induction Hl as [|q l Hl IH Hq]; intros Hlast p Hp; [done|].
  destruct l as [|q' l'].
  - injection Hlast as <-. apply list_elem_of_singleton in Hp. by left.
  - change (last (q' :: l') = Some m) in Hlast.
    assert (Hm : m ∈ q' :: l') by by apply last_Some_elem_of.
    apply elem_of_cons in Hp as [->|Hp]; [|by apply IH].
    right. rewrite Forall_forall in Hq. by apply Hq.
Qed.

(** The last file in ascending order is the one [max] finds. *)
Lemma last_sorted_max (first : pystr * A) (rest : list (pystr * A)) :
  NoDup (first :: rest).*1 → last (sorted (first :: rest)) = Some (max_by_name first rest).
Proof.
  intros Hnd.
  pose proof (sorted_Permutation (first :: rest)) as Hperm.
  assert (Hs : StronglySorted name_lt (sorted (first :: rest)))
    by (apply sorted_from_StronglySorted; [done|constructor]).
  destruct (last (sorted (first :: rest))) as [m|] eqn:Hlast.
  - f_equal. destruct (max_by_name_spec first rest) as [Hin Hmax].
    rewrite <- Hperm in Hin.
    destruct (StronglySorted_last _ m Hs Hlast _ Hin) as [->|Hlt]; [done|].
    assert (Hm : m ∈ first :: rest) by (rewrite <- Hperm; by apply last_Some_elem_of).
    specialize (Hmax m Hm). unfold str_leb in Hmax. unfold name_lt in Hlt.
    by rewrite Hlt in Hmax.
  - apply last_None in Hlast. rewrite Hlast in Hperm.
    by apply Permutation_nil_cons in Hperm.
Qed.

End SortedFiles.

Section MainProperties.
Context {F : Type} `{PyFloat F}.
Import models snapshot main.

(** X22.  The snapshot step of [main], at a clock reading with a year of
    four digits, when no snapshot in the directory has a name greater than
    the one being written.  When no string of the items holds a surrogate,
    the items are saved.  When the list of items is empty nothing is
    compared.  Otherwise the items are compared with what
    [load_latest_snapshot] would have loaded from the other files of the
    directory: with the snapshot that was the latest before this run, a
    file from the same second apart, since the save replaced it.  Nothing
    is compared when there is no such snapshot, and the step raises when
    that snapshot cannot be deserialized.  When a string of the items holds
    a surrogate, the step raises [UnicodeEncodeError] at the save. *)
Theorem track_snapshot_compares (now : datetime) (items : list (ProjectItem F))
    (snapshots : directory F) :
  let filename := strftime_snapshot now in
  let others := delete filename (default ∅ snapshots) in
  calendar now →
  (∀ name, is_Some (others !! name) → glob_snapshot name = true →
     str_ltb name filename = true) →
  (all_encodable items = true →
     ∃ saved,
       save_snapshot now items snapshots = Ok (filename, saved)
       ∧ track_snapshot now items snapshots
         = match items with
           | [] => Ok (saved, None)
           | _ =>
               match load_latest_snapshot (Some others) with
               | Ok (Some previous_items) =>
                   Ok (saved, Some (compare_snapshots items (Some previous_items)))
               | Ok None => Ok (saved, None)
               | Raise e => Raise e
               end
           end)
  ∧ (all_encodable items = false →
       track_snapshot now items snapshots = Raise UnicodeEncodeError).
Proof.
  intros filename others _ Hgreatest. split; cycle 1.
  { intros Henc. unfold track_snapshot. by rewrite save_snapshot_raises. }
  intros Henc.
  destruct (load_after_save_greatest now items snapshots Henc)
    as (saved & Hsave & Hload).
  { intros files0 name -> Hname Hglob.
    destruct (decide (name = filename)) as [->|Hne]; [apply str_leb_refl|].
    apply str_ltb_leb, Hgreatest; [|done]. unfold others. simpl.
    by rewrite lookup_delete_ne. }
  exists saved. split; [done|].
  unfold track_snapshot. rewrite Hsave. cbn [mbind except_bind].
  rewrite Hload. cbn [mbind except_bind].
  destruct items as [|item items']; [done|].
  apply save_snapshot_Ok in Hsave as (_ & _ & Hsaved). cbn [snd] in Hsaved.
  fold filename in Hsaved.
  set (data := {| timestamp := isoformat now ++ lit "Z";
                  snapshot.items := _serialize_item <$> item :: items' |}) in *.
  assert (Hfiles : default ∅ saved = <[filename := data]> others).
  { rewrite Hsaved. cbn [default from_option]. unfold Datatypes.id, others.
    by rewrite insert_delete_eq. }
  clear Hsaved Hload. rewrite !Hfiles.
  set (Lo := filter (λ p : pystr * SnapshotData F, glob_snapshot p.1 = true)
               (map_to_list others)).
  assert (Hnd : NoDup Lo.*1).
  { eapply sublist_NoDup; [apply (NoDup_fst_map_to_list others)|].
    apply fmap_sublist, sublist_filter. }
  assert (Hsorted :
    sorted (filter (λ p : pystr * SnapshotData F, glob_snapshot p.1 = true)
              (map_to_list (<[filename := data]> others)))
    = sorted Lo ++ [(filename, data)]).
  { apply sorted_unique.
    - eapply sublist_NoDup; [apply (NoDup_fst_map_to_list (<[filename := data]> others))|].
      apply fmap_sublist, sublist_filter.
    - rewrite map_to_list_insert by apply lookup_delete_eq.
      rewrite filter_cons_True by apply glob_snapshot_strftime.
      fold Lo. rewrite sorted_Permutation. apply Permutation_cons_append.
    - apply StronglySorted_app_2.
      + intros p q Hp ->%list_elem_of_singleton. unfold name_lt. simpl.
        rewrite sorted_Permutation in Hp. apply list_elem_of_filter in Hp as [Hg Hp].
        destruct p as [n d]. apply elem_of_map_to_list in Hp.
        apply Hgreatest; [by eexists|done].
      + apply sorted_from_StronglySorted; [done|constructor].
      + repeat constructor. }
  rewrite Hsorted, len_app, reverse_app. cbn [reverse rev_append app].
  unfold load_latest_snapshot. fold Lo.
  destruct Lo as [|first rest] eqn:HLo.
  - reflexivity.
  - assert (Hlen : (1 <? len (sorted (first :: rest)) + len [(filename, data)]) = true).
    { apply Z.ltb_lt. rewrite (len_Permutation _ _ (sorted_Permutation _)), !len_cons.
      pose proof (len_nonneg rest). unfold len at 2. simpl. lia. }
    rewrite Hlen.
    change ((?p :: ?l) !! 1%nat) with (l !! 0%nat).
    rewrite <- head_lookup, head_reverse, last_sorted_max by done.
    destruct (mapM _deserialize_item _); reflexivity.
Qed.

End MainProperties.

(** ** Workload and charts *)

Section WorkloadProperties.
Context {F : Type} `{PyFloat F}.
Import models processor html_renderer chart_builder.

Lemma assignee_workload_lookup (items_by_assignee : gmap pystr (list (ProjectItem F)))
    (assignee : pystr) :
  assignee_workload items_by_assignee !! assignee
  = if decide (assignee = lit "MansourM") then None
    else match items_by_assignee !! assignee with
         | Some assignee_items =>
             if 0 <? sum_ones is_active assignee_items
             then Some (sum_ones is_active assignee_items) else None
         | None => None
         end.
Proof.
  unfold assignee_workload.
  apply (map_fold_weak_ind (λ r m, r !! assignee
           = if decide (assignee = lit "MansourM") then None
             else match m !! assignee with
                  | Some assignee_items =>
                      if 0 <? sum_ones is_active assignee_items
                      then Some (sum_ones is_active assignee_items) else None
                  | None => None
                  end)).
  - rewrite !lookup_empty. by destruct (decide _).
  - intros a l m r Hfresh IH.
    destruct (decide (a = assignee)) as [->|Hne].
    + rewrite lookup_insert_eq. rewrite Hfresh in IH.
      destruct (decide (assignee = lit "MansourM")); [done|].
      destruct (0 <? sum_ones is_active l); [by rewrite lookup_insert_eq|done].
    + rewrite (lookup_insert_ne m) by done. rewrite <- IH.
      destruct (decide (a = lit "MansourM")); [done|].
      destruct (0 <? sum_ones is_active l); [by rewrite lookup_insert_ne|done].
Qed.

Lemma items_by_assignee_groups (items : list (ProjectItem F)) :
  items_by_assignee (calculate_metrics items) = group_by_assignee items.
Proof.
  destruct items; [done|]. unfold calculate_metrics.
  by destruct (calculate_unplanned_done_stats _).
Qed.

(** X23.  The team workload that the HTML report charts, computed from the
    metrics of a list of items: an assignee has an entry exactly when the
    name is not "MansourM" and some item that is not Done is filed under
    it, and the entry is the number of such items.  Items without
    assignees count under "Unassigned". *)
Theorem assignee_workload_metrics (items : list (ProjectItem F)) (assignee : pystr) (n : Z) :
  assignee_workload (items_by_assignee (calculate_metrics items)) !! assignee = Some n
  ↔ assignee ≠ lit "MansourM"
    ∧ 0 < n
    ∧ n = len (filter (λ item, status item ≠ DONE) (items ≫= filed_under assignee)).
Proof.
  rewrite assignee_workload_lookup, items_by_assignee_groups, group_by_assignee_groups.
  assert (Hcount : ∀ l : list (ProjectItem F),
            sum_ones is_active l = len (filter (λ item, status item ≠ DONE) l)).
  { intros l. rewrite sum_ones_filter. f_equal. apply list_filter_iff. intros item.
    unfold is_active. rewrite negb_true_iff. apply bool_decide_eq_false. }
  destruct (decide (assignee = lit "MansourM")) as [Hm|Hm]; [by split; [|intros []]|].
  destruct (items ≫= filed_under assignee) as [|x l] eqn:Hl; simpl.
  - split; [done|]. intros (_ & Hpos & ->). done.
  - rewrite Hcount. destruct (Z.ltb_spec 0 (len (filter (λ item, status item ≠ DONE) (x :: l)))).
    + split; [by intros [= <-]|]. by intros (_ & _ & ->).
    + split; [done|]. intros (_ & Hpos & ->). lia.
Qed.

Lemma items_by_priority_groups (items : list (ProjectItem F)) :
  items_by_priority (calculate_metrics items) = group_by_priority items.
Proof.
  destruct items; [done|]. unfold calculate_metrics.
  by destruct (calculate_unplanned_done_stats _).
Qed.

(** X24.  The team workload chart colours each bar by the tiers of
    [get_workload_color]: red above 10, yellow from 6 to 10, green below,
    in the codes #ef4444, #eab308 and #22c55e; it has one colour for each
    value, in the order of the values. *)
Theorem create_team_workload_chart_colors (data : list (pystr * Z)) :
  let chart := create_team_workload_chart data in
  y chart = data.*1
  ∧ x chart = data.*2
  ∧ marker_color chart = (λ count, hex (get_workload_color count)) <$> data.*2.
Proof.
  unfold create_team_workload_chart. simpl. split; [done|]. split; [done|].
  assert (Hfrom : ∀ values colors,
            foldl (λ colors count,
                     if 10 <? count then colors ++ [lit "#ef4444"]
                     else if 6 <=? count then colors ++ [lit "#eab308"]
                     else colors ++ [lit "#22c55e"]) colors values
            = colors ++ ((λ count, hex (get_workload_color count)) <$> values)).
  { induction values as [|count values IH]; intros colors; simpl.
    - by rewrite app_nil_r.
    - unfold get_workload_color at 1.
      destruct (10 <? count); [|destruct (6 <=? count)];
        rewrite IH, <- app_assoc; done. }
  apply (Hfrom _ []).
Qed.

(** X25.  The priority chart has a colour of its own for the value of each
    member of [Priority], and grey for every other label.  So the chart of
    the priority counts of computed metrics shows no grey bar. *)
Theorem create_priority_chart_colors :
  (∀ p, dict_get priority_colors (Priority_value p) (lit "#6b7280")
        = match p with
          | FIRE => lit "#ef4444"
          | P0 => lit "#f97316"
          | P1 => lit "#eab308"
          | P2 => lit "#3b82f6"
          end)
  ∧ (∀ label, (∀ p, label ≠ Priority_value p) →
       dict_get priority_colors label (lit "#6b7280") = lit "#6b7280")
  ∧ (∀ items : list (ProjectItem F),
       let chart := create_priority_chart (counts (items_by_priority (calculate_metrics items))) in
       Forall (λ color, color ≠ lit "#6b7280") (marker_color chart)
       ∧ length (marker_color chart) = length (y chart)).
Proof.
  split; [by intros []|]. split.
  - intros label Hno. unfold dict_get, priority_colors. cbn [List.find fst].
    repeat (case_bool_decide as Heq;
            [exfalso;
             first [apply (Hno FIRE); symmetry; exact Heq
                   |apply (Hno P0); symmetry; exact Heq
                   |apply (Hno P1); symmetry; exact Heq
                   |apply (Hno P2); symmetry; exact Heq]|clear Heq]).
    done.
  - intros items. unfold create_priority_chart. simpl. split; [|by rewrite length_fmap].
    apply Forall_fmap, Forall_fmap, Forall_forall. intros [label n] Hin. simpl.
    unfold counts in Hin. apply elem_of_map_to_list in Hin.
    rewrite lookup_fmap in Hin.
    destruct (items_by_priority (calculate_metrics items) !! label) as [l|] eqn:Hl; [|done].
    rewrite items_by_priority_groups, group_by_priority_groups in Hl.
    destruct (filter _ items) as [|item l'] eqn:Hf; [done|].
    assert (Hitem : item ∈ filter (λ item, Priority_value (priority item) = label) items)
      by (rewrite Hf; left).
    apply list_elem_of_filter in Hitem as [<- _].
    by destruct (priority item).
Qed.

End WorkloadProperties.

(** ** The further properties on the sample data *)

Section SamplesMore.
Import models processor snapshot samples.

(** The status "Todo" of the sample record is read as Todo. *)
Lemma parse_item_status_witness :
  ∃ item, parse_item raw_corrupted = Ok item ∧ status item = TODO.
Proof.
  eexists. split; [reflexivity|].
  apply (proj1 (parse_item_status raw_corrupted _ eq_refl) TODO). reflexivity.
Defined.

(** Two records that are parsed, and the same two with one in between
    whose priority is a number. *)
Lemma parse_items_all_or_nothing_witness :
  (∃ items, parse_items [raw_corrupted; raw None None] = Ok items ∧ length items = 2%nat)
  ∧ parse_items [raw_corrupted; raw_numeric_priority; raw None None]
    = Raise AttributeError.
Proof.
  split.
  - destruct (proj1 (parse_items_all_or_nothing [raw_corrupted; raw None None]))
      as (items & Hitems & Hall).
    + repeat constructor.
    + exists items. split; [exact Hitems|].
      symmetry. exact (Forall2_length _ _ _ Hall).
  - apply (proj2 (parse_items_all_or_nothing
                    [raw_corrupted; raw_numeric_priority; raw None None])).
    intros Hall. apply Forall_cons in Hall as [_ Hall].
    apply Forall_cons in Hall as [[Hp _] _]. vm_compute in Hp. discriminate Hp.
Defined.

(** The three sample items, and the same in reverse order. *)
Lemma calculate_metrics_permutation_witness :
  same_numbers (calculate_metrics three_items) (calculate_metrics (reverse three_items)).
Proof.
  apply (calculate_metrics_permutation three_items (reverse three_items)).
  symmetry. apply reverse_Permutation.
Defined.

(** 00:50 comes before 01:10, and so do the names. *)
Lemma strftime_snapshot_order_witness :
  str_ltb (strftime_snapshot at_0050) (strftime_snapshot at_0110) = true.
Proof.
  apply (strftime_snapshot_order at_0050 at_0110).
  - vm_compute. repeat split; discriminate.
  - vm_compute. repeat split; discriminate.
  - reflexivity.
Defined.


(** A file of notes beside two snapshots. *)
Lemma load_latest_snapshot_ignores_witness :
  load_latest_snapshot (Some (<[lit "notes.txt" := notes]> (default ∅ two_snapshots)))
  = load_latest_snapshot two_snapshots.
Proof.
  apply (load_latest_snapshot_ignores (default ∅ two_snapshots) (lit "notes.txt")).
  left. reflexivity.
Defined.

(** The two sample items compared with themselves. *)
Lemma compare_snapshots_self_witness :
  compare_snapshots current_two (Some current_two)
  = {| items_completed := 0; items_added := 0; status_changes := [] |}.
Proof.
  apply (compare_snapshots_self current_two).
  apply (bool_decide_unpack _). vm_compute. exact I.
Defined.

(** January 2025: the item of 10 January is kept; the item of 31 January,
    10:00, comes after the end of the range, which is 31 January, 00:00;
    the item without a date and the item of February are dropped. *)
Lemma filter_by_date_range_selects_witness :
  processor_v2.filter_by_date_range (D := Iso8601.dt) dated_items
    (Some (lit "2025-01-01")) (Some (lit "2025-01-31")) processor_v2.by_issue_created_at
  = Ok [dated "1" (VStr (lit "2025-01-10T09:00:00Z"))]
  ∧ sublist [dated "1" (VStr (lit "2025-01-10T09:00:00Z"))] dated_items.
Proof.
  assert (Hrun : processor_v2.filter_by_date_range (D := Iso8601.dt) dated_items
                   (Some (lit "2025-01-01")) (Some (lit "2025-01-31"))
                   processor_v2.by_issue_created_at
                 = Ok [dated "1" (VStr (lit "2025-01-10T09:00:00Z"))])
    by (vm_compute; reflexivity).
  split; [exact Hrun|].
  exact (proj1 (proj1 (proj2 (filter_by_date_range_selects (D := Iso8601.dt) dated_items
                                (Some (lit "2025-01-01")) (Some (lit "2025-01-31"))
                                processor_v2.by_issue_created_at)) _ Hrun)).
Defined.

(** What was kept is kept again. *)
Lemma filter_by_date_range_composes_witness :
  processor_v2.filter_by_date_range (D := Iso8601.dt)
    [dated "1" (VStr (lit "2025-01-10T09:00:00Z"))]
    (Some (lit "2025-01-01")) (Some (lit "2025-01-31")) processor_v2.by_issue_created_at
  = Ok [dated "1" (VStr (lit "2025-01-10T09:00:00Z"))].
Proof.
  apply (proj2 (filter_by_date_range_composes (D := Iso8601.dt) dated_items []
                  (Some (lit "2025-01-01")) (Some (lit "2025-01-31"))
                  processor_v2.by_issue_created_at)).
  vm_compute. reflexivity.
Defined.

(** A bound that is no date goes unnoticed when no item has the date, and
    raises [ValueError] as soon as one has; a date without an offset
    cannot be compared with the bounds. *)
Example filter_by_date_range_errors :
  processor_v2.filter_by_date_range (D := Iso8601.dt) [dated "3" VNone]
    (Some (lit "January")) None processor_v2.by_issue_created_at = Ok []
  ∧ processor_v2.filter_by_date_range (D := Iso8601.dt) dated_items
      (Some (lit "January")) None processor_v2.by_issue_created_at = Raise ValueError
  ∧ processor_v2.filter_by_date_range (D := Iso8601.dt)
      [dated "5" (VStr (lit "2025-01-10T09:00:00"))]
      (Some (lit "2025-01-01")) None processor_v2.by_issue_created_at = Raise TypeError
  ∧ processor_v2.filter_by_date_range (D := Iso8601.dt) [dated "6" (VInt 20250110)]
      (Some (lit "2025-01-01")) None processor_v2.by_issue_created_at
    = Raise AttributeError
  ∧ processor_v2.filter_by_date_range (D := Iso8601.dt) dated_items
      (Some (lit "2025-01-01")) None processor_v2.by_no_attribute = Ok [].
Proof. vm_compute. repeat split. Qed.

(** The defaults pass; a blank owner does not. *)
Lemma validate_cases_witness :
  config.validate (F := float) config.Config_defaults = config.Valid
  ∧ config.validate blank_owner ≠ config.Valid.
Proof.
  split.
  - apply (proj1 (validate_cases (F := float) config.Config_defaults)).
    repeat split.
    + exists (lit "TechBurst-Pro"), 84%N. repeat split. by left.
    + exists (lit "html"). split; [reflexivity|]. by left.
    + exists (lit "reports"), 114%N. repeat split. by left.
  - intros Hvalid.
    apply (proj1 (validate_cases blank_owner)) in Hvalid as [(s & c & Hs & Hc & Hsp) _].
    injection Hs as <-. vm_compute in Hc.
    repeat (apply elem_of_cons in Hc as [->|Hc]; [discriminate Hsp|]).
    by apply elem_of_nil in Hc.
Defined.

(** The third run: the snapshots of 00:50 and 01:10 are there, the clock
    reads 01:30; the items are compared with those of 01:10. *)
Lemma track_snapshot_compares_witness :
  ∃ saved,
    save_snapshot at_0130 three_items two_snapshots
    = Ok (strftime_snapshot at_0130, saved)
    ∧ main.track_snapshot at_0130 three_items two_snapshots
      = Ok (saved, Some (compare_snapshots three_items (Some current_two))).
Proof.
  pose proof (track_snapshot_compares at_0130 three_items two_snapshots) as Hstep.
  cbv zeta in Hstep. destruct Hstep as [Hsaves _].
  - vm_compute. repeat split; discriminate.
  - intros name Hname _.
    assert (Hdir : after_saves [(at_0050, previous_two); (at_0110, current_two)] None
                   = Ok (Some (default ∅ two_snapshots))) by reflexivity.
    assert (Hin : is_Some (default ∅ two_snapshots !! name)).
    { destruct Hname as [d Hd]. apply lookup_delete_Some in Hd as [_ Hd]. by eexists. }
    destruct (after_saves_names _ None _ name Hdir Hin) as [(? & [=] & _)|(save & Hs & ->)].
    repeat (apply elem_of_cons in Hs as [->|Hs]; [reflexivity|]).
    by apply elem_of_nil in Hs.
  - destruct Hsaves as (saved & Hsave & Hstep); [reflexivity|].
    exists saved. split; [exact Hsave|]. rewrite Hstep. vm_compute. reflexivity.
Defined.

(** A run that finds no directory compares nothing, and neither does a
    run with no items. *)
Example track_snapshot_first_run :
  snd <$> main.track_snapshot at_0130 three_items None = Ok None
  ∧ snd <$> main.track_snapshot at_0130 [] two_snapshots = Ok None.
Proof. vm_compute. repeat split. Qed.

End SamplesMore.
